(** * Habit tracker: month summary, streaks and CRUD handlers

    A shallow embedding of [appraju.py] (the Flask habit tracker) and the
    verification of its month aggregation ([get_habits]), of the three
    mutating handlers ([create_habit], [delete_habit], [toggle_completion]),
    of [init_db], and of the keys and the habit rows that the script of
    the page builds from the month summary.

    - Python [date] values are records (year, month, day) restricted by
      [valid_date] to the range 0001-01-01 .. 9999-12-31; adding or
      subtracting [timedelta(days=1)] raises [OverflowError] outside it.
    - The two SQL tables are lists of rows; the primary keys and the unique
      index [idx_habit_date] are the invariant [store_wf].
    - Python dictionaries are [gmap]s.
    - A Python [str] is the list of its code points; SQLite stores it as
      UTF-8, which has no encoding for a lone surrogate.
    - Exceptions are an error monad [res]; [while] loops take fuel and the
      handlers supply enough of it. *)

From Stdlib Require Import ZArith Lia Ascii String.
From stdpp Require Import base tactics option list gmap strings pretty sorting.

Local Open Scope Z_scope.

(** ** Exceptions *)

Inductive exn : Type :=
  | ValueError
  | TypeError
  | OverflowError
  | KeyError
  | NotFound.        (* werkzeug.exceptions.NotFound, raised by get_or_404 *)

Inductive res (A : Type) : Type :=
  | Ret (a : A)
  | Raise (e : exn)
  | OutOfFuel.

Arguments Ret {A} a.
Arguments Raise {A} e.
Arguments OutOfFuel {A}.

Global Instance res_ret : MRet res := λ A a, Ret a.
Global Instance res_bind : MBind res := λ A B k m,
  match m with
  | Ret a => k a
  | Raise e => Raise e
  | OutOfFuel => OutOfFuel
  end.

(** [while cond: body] on a loop state of type [S]. *)
Fixpoint while {S : Type} (fuel : nat) (cond : S → bool) (body : S → res S)
    (s : S) : res S :=
  match fuel with
  | O => OutOfFuel
  | Datatypes.S n => if cond s then body s ≫= while n cond body else Ret s
  end.

(** [for x in l: body] with a body that may raise. *)
Fixpoint for_each {A S : Type} (body : S → A → res S) (s : S) (l : list A)
    : res S :=
  match l with
  | [] => Ret s
  | x :: l' => s' ← body s x; for_each body s' l'
  end.

(** ** Calendar dates (datetime.date) *)

Record date : Type := mkdate { year : Z; month : Z; day : Z }.

Global Instance date_eq_dec : EqDecision date.
Proof. solve_decision. Defined.

Definition is_leap (y : Z) : bool :=
  (y mod 4 =? 0) && (negb (y mod 100 =? 0) || (y mod 400 =? 0)).

(** [calendar.monthrange(y, m)[1]]. *)
Definition days_in_month (y m : Z) : Z :=
  if m =? 2 then (if is_leap y then 29 else 28)
  else if (m =? 4) || (m =? 6) || (m =? 9) || (m =? 11) then 30
  else 31.

Definition MINYEAR : Z := 1.
Definition MAXYEAR : Z := 9999.

Definition valid_month (y m : Z) : bool :=
  (MINYEAR <=? y) && (y <=? MAXYEAR) && (1 <=? m) && (m <=? 12).

Definition valid_date (d : date) : bool :=
  valid_month (year d) (month d)
  && (1 <=? day d) && (day d <=? days_in_month (year d) (month d)).

(** [datetime(y, m, d).date()].  The constructor first converts its
    arguments to C ints (32 bits) and raises [OverflowError] for a Python
    int that does not fit; then it checks the ranges and raises
    [ValueError]. *)
Definition fits_c_int (z : Z) : bool :=
  (-2147483648 <=? z) && (z <=? 2147483647).

Definition datetime_date (y m d : Z) : res date :=
  if fits_c_int y && fits_c_int m && fits_c_int d then
    if valid_date (mkdate y m d) then Ret (mkdate y m d) else Raise ValueError
  else Raise OverflowError.

(** Dates compare as the tuples (year, month, day). *)
Definition date_ltb (a b : date) : bool :=
  (year a <? year b)
  || ((year a =? year b)
      && ((month a <? month b)
          || ((month a =? month b) && (day a <? day b)))).

Definition date_leb (a b : date) : bool := negb (date_ltb b a).

(** [min(a, b)] returns [a] unless [b < a]. *)
Definition date_min (a b : date) : date := if date_ltb b a then b else a.

(** Proleptic Gregorian ordinal, as [date.toordinal]. *)
Definition days_before_year (y : Z) : Z :=
  let y' := y - 1 in y' * 365 + y' / 4 - y' / 100 + y' / 400.

Definition days_before_month (y m : Z) : Z :=
  (if m =? 1 then 0 else if m =? 2 then 31 else if m =? 3 then 59
   else if m =? 4 then 90 else if m =? 5 then 120 else if m =? 6 then 151
   else if m =? 7 then 181 else if m =? 8 then 212 else if m =? 9 then 243
   else if m =? 10 then 273 else if m =? 11 then 304 else 334)
  + (if (2 <? m) && is_leap y then 1 else 0).

Definition toordinal (d : date) : Z :=
  days_before_year (year d) + days_before_month (year d) (month d) + day d.

(** [(a - b).days] *)
Definition days_between (a b : date) : Z := toordinal a - toordinal b.

(** [d - timedelta(days=1)] *)
Definition date_pred (d : date) : res date :=
  if 1 <? day d then Ret (mkdate (year d) (month d) (day d - 1))
  else if 1 <? month d then
    Ret (mkdate (year d) (month d - 1) (days_in_month (year d) (month d - 1)))
  else if MINYEAR <? year d then Ret (mkdate (year d - 1) 12 31)
  else Raise OverflowError.

(** [d + timedelta(days=1)] *)
Definition date_succ (d : date) : res date :=
  if day d <? days_in_month (year d) (month d) then
    Ret (mkdate (year d) (month d) (day d + 1))
  else if month d <? 12 then Ret (mkdate (year d) (month d + 1) 1)
  else if year d <? MAXYEAR then Ret (mkdate (year d + 1) 1 1)
  else Raise OverflowError.

(** ['%04d-%02d-%02d'], the text of [str(d)] for a date. *)
Definition digit (n : Z) : ascii := pretty_N_char (Z.to_N (n mod 10)).

Definition str_date (d : date) : string :=
  String (digit (year d / 1000)) (String (digit (year d / 100))
  (String (digit (year d / 10)) (String (digit (year d))
  (String "-"%char
  (String (digit (month d / 10)) (String (digit (month d))
  (String "-"%char
  (String (digit (day d / 10)) (String (digit (day d)) ""))))))))).

(** [k.endswith(s)] *)
Fixpoint endswith (k s : string) : bool :=
  bool_decide (k = s)
  || match k with
     | "" => false
     | String _ k' => endswith k' s
     end.

(** ** Text (Python [str]): a sequence of Unicode code points *)

Definition text : Type := list N.

(** Code points that [str.strip()] removes (those with [str.isspace]). *)
Definition is_space (c : N) : bool :=
  ((9 <=? c) && (c <=? 13) || (28 <=? c) && (c <=? 32)
   || (c =? 133) || (c =? 160) || (c =? 5760)
   || (8192 <=? c) && (c <=? 8202) || (c =? 8232) || (c =? 8233)
   || (c =? 8239) || (c =? 8287) || (c =? 12288))%N.

Fixpoint lstrip (t : text) : text :=
  match t with
  | c :: t' => if is_space c then lstrip t' else t
  | [] => []
  end.

Definition strip (t : text) : text := reverse (lstrip (reverse (lstrip t))).

(** The default emoji, U+2B50. *)
Definition star : text := [11088%N].

(** The surrogate code points U+D800 .. U+DFFF.  A [str] can hold one on
    its own (the JSON text "\ud800" gives one); UTF-8 has no encoding for
    it. *)
Definition is_surrogate (c : N) : bool := ((55296 <=? c) && (c <=? 57343))%N.

(** [t.encode('utf-8')] does not raise. *)
Definition encodable (t : text) : bool :=
  forallb (λ c, negb (is_surrogate c)) t.

(** ** The two tables *)

Module Habit.
Record t : Type := mk
  { id : Z; name : text; emoji : text; color : string; created_at : Z }.
End Habit.

Module Completion.
Record t : Type := mk
  { id : Z; habit_id : Z; date : date; completed : bool }.
End Completion.

Record db : Type := mkdb
  { habit_table : list Habit.t; completion_table : list Completion.t }.

(** Primary keys, the unique index [idx_habit_date], and the fact that
    every stored date is a [datetime.date]. *)
Record store_wf (s : db) : Prop := mk_store_wf
  { wf_habit_pk : NoDup (Habit.id <$> habit_table s);
    wf_completion_pk : NoDup (Completion.id <$> completion_table s);
    wf_idx_habit_date :
      NoDup ((λ c, (Completion.habit_id c, Completion.date c))
               <$> completion_table s);
    wf_dates : Forall (λ c, valid_date (Completion.date c) = true)
                 (completion_table s) }.

(** ** Numbers of the JSON answer

    [percentage] is a Python float, except that it is the int [0] when
    there is no habit.  The float operations are those of the interpreter. *)

Class PyFloat (F : Type) : Type :=
  { int_truediv : Z → Z → F;      (* a / b on ints *)
    float_mul_int : F → Z → F;    (* x * n *)
    float_round : F → Z → F }.    (* round(x, ndigits) *)

Inductive number (F : Type) : Type :=
  | PyInt (z : Z)
  | PyFloatV (x : F).

Arguments PyInt {F} z.
Arguments PyFloatV {F} x.

(** [round(x, ndigits)] with [ndigits >= 0]: an int is returned unchanged. *)
Definition py_round `{PyFloat F} (x : number F) (ndigits : Z) : number F :=
  match x with
  | PyInt z => PyInt z
  | PyFloatV f => PyFloatV (float_round f ndigits)
  end.

(** ** GET /api/habits *)

Record streaks : Type := mk_streaks { current_streak : Z; best_streak : Z }.

Module HabitJson.
Record t : Type := mk
  { id : Z; name : text; emoji : text; color : string;
    current_streak : Z; best_streak : Z }.
End HabitJson.

Module DayStat.
Record t (F : Type) : Type := mk { day : Z; percentage : number F }.
Arguments mk {F} day percentage.
Arguments day {F} t.
Arguments percentage {F} t.
End DayStat.

Module Summary.
Record t (F : Type) : Type := mk
  { habits : list HabitJson.t;
    completions : gmap string bool;
    daily_stats : list (DayStat.t F) }.
Arguments mk {F} habits completions daily_stats.
Arguments habits {F} t.
Arguments completions {F} t.
Arguments daily_stats {F} t.
End Summary.

Definition date_le (a b : date) : Prop := date_leb a b = true.

Global Instance date_le_dec : RelDecision date_le.
Proof. intros a b. unfold date_le. apply _. Defined.

Global Instance date_inhabited : Inhabited date := populate (mkdate 1 1 1).

(** [Completion.query.filter_by(habit_id=hid, completed=True)
      .order_by(Completion.date.asc()).all()], then the dates of the rows. *)
Definition completion_date_le (a b : Completion.t) : Prop :=
  date_le (Completion.date a) (Completion.date b).

Global Instance completion_date_le_dec : RelDecision completion_date_le.
Proof. intros a b. unfold completion_date_le. apply _. Defined.

Definition all_comps (s : db) (hid : Z) : list Completion.t :=
  merge_sort completion_date_le
    (filter (λ c, Completion.habit_id c = hid ∧ Completion.completed c = true)
       (completion_table s)).

Definition dates_of (s : db) (hid : Z) : list date :=
  Completion.date <$> all_comps s hid.

(** Fuel for a loop that visits the days of one month. *)
Definition month_fuel (last_day : date) : nat := S (Z.to_nat (day last_day)).

(** Lines 495-499: the backward walk. *)
Definition streak_cond (first_day : date) (dates : list date)
    (st : Z * date) : bool :=
  date_leb first_day st.2 && bool_decide (st.2 ∈ dates).

Definition streak_body (st : Z * date) : res (Z * date) :=
  current_check_date ← date_pred st.2;
  mret (st.1 + 1, current_check_date).

Definition current_streak_of (today first_day last_day : date)
    (dates : list date) : res Z :=
  st ← while (month_fuel last_day) (streak_cond first_day dates) streak_body
         (0, date_min today last_day);
  mret st.1.

(** Lines 501-513: the best streak of the month. *)
Definition best_step (sorted_dates : list date) (st : Z * Z) (i : nat)
    : Z * Z :=
  if days_between (sorted_dates !!! i) (sorted_dates !!! (i - 1)%nat) =? 1
  then (st.1, st.2 + 1)
  else (Z.max st.1 st.2, 1).

Definition best_streak_of (first_day last_day : date) (dates : list date)
    : Z :=
  let month_dates :=
    filter (λ d, date_le first_day d ∧ date_le d last_day) dates in
  if bool_decide (month_dates ≠ []) then
    let sorted_dates := merge_sort date_le month_dates in
    let st := foldl (best_step sorted_dates) (0, 1)
                (seq 1 (length sorted_dates - 1)) in
    Z.max st.1 st.2
  else 0.

(** Lines 519-528: the keys of the month's completions. *)
Definition completion_key (hid : Z) (d : date) : string :=
  pretty hid +:+ "-" +:+ str_date d.

Definition month_comps (s : db) (hid : Z) (first_day last_day : date)
    : list Completion.t :=
  filter (λ c, Completion.habit_id c = hid
               ∧ date_le first_day (Completion.date c)
               ∧ date_le (Completion.date c) last_day
               ∧ Completion.completed c = true)
    (completion_table s).

Definition add_keys (hid : Z) (completions_dict : gmap string bool)
    (comps : list Completion.t) : gmap string bool :=
  foldl (λ d comp, <[completion_key hid (Completion.date comp) := true]> d)
    completions_dict comps.

(** The body of [for habit in habits]. *)
Definition habit_body (s : db) (today first_day last_day : date)
    (st : gmap string bool * gmap Z streaks) (habit : Habit.t)
    : res (gmap string bool * gmap Z streaks) :=
  let dates := dates_of s (Habit.id habit) in
  streak ← current_streak_of today first_day last_day dates;
  let best := best_streak_of first_day last_day dates in
  let habit_streaks :=
    <[Habit.id habit := mk_streaks streak best]> st.2 in
  let comps := month_comps s (Habit.id habit) first_day last_day in
  mret (add_keys (Habit.id habit) st.1 comps, habit_streaks).

(** Lines 534-535: the number of keys that end with the day's date. *)
Definition day_completions (completions_dict : gmap string bool)
    (current_date : date) : Z :=
  Z.of_nat (length
    (filter (λ kv : string * bool,
               kv.2 = true ∧ endswith kv.1 (str_date current_date) = true)
       (map_to_list completions_dict))).

Section Aggregator.
Context `{PyFloat F}.

Definition percentage_of (habits : list Habit.t) (n : Z) : number F :=
  if bool_decide (habits ≠ []) then
    PyFloatV (float_mul_int (int_truediv n (Z.of_nat (length habits))) 100)
  else PyInt 0.

Definition stats_cond (last_day : date) (st : list (DayStat.t F) * date)
    : bool :=
  date_leb st.2 last_day.

Definition stats_body (habits : list Habit.t)
    (completions_dict : gmap string bool) (st : list (DayStat.t F) * date)
    : res (list (DayStat.t F) * date) :=
  let percentage :=
    percentage_of habits (day_completions completions_dict st.2) in
  let daily_stats := st.1 ++ [DayStat.mk (day st.2) (py_round percentage 1)] in
  current_date ← date_succ st.2;
  mret (daily_stats, current_date).

Definition habit_json (habit_streaks : gmap Z streaks) (h : Habit.t)
    : HabitJson.t :=
  HabitJson.mk (Habit.id h) (Habit.name h) (Habit.emoji h) (Habit.color h)
    (default 0 (current_streak <$> habit_streaks !! Habit.id h))
    (default 0 (best_streak <$> habit_streaks !! Habit.id h)).

(** [today] is [datetime.now().date()]; [year] and [month] are the request
    arguments after [int(...)]. *)
Definition get_habits (today : date) (year month : Z) (s : db)
    : res (Summary.t F) :=
  let habits := habit_table s in
  first_day ← datetime_date year month 1;
  last_day ← datetime_date year month (days_in_month year month);
  st ← for_each (habit_body s today first_day last_day) (∅, ∅) habits;
  ds ← while (month_fuel last_day) (stats_cond last_day)
         (stats_body habits st.1) ([], first_day);
  mret (Summary.mk (habit_json st.2 <$> habits) st.1 ds.1).

End Aggregator.

(** ** The mutating handlers

    [request.json] is [None] or a JSON object; the values of its fields are
    of a type [V] on which the interpreter's [str], [int] and
    [datetime.strptime(_, '%Y-%m-%d').date()] are given. *)

Class PyValue (V : Type) : Type :=
  { py_str : V → text;
    py_int : V → res Z;
    py_strptime_date : V → res date }.

Inductive json_body : Type :=
  | ErrorBody (msg : string)     (* {'error': msg} *)
  | IdBody (id : Z)              (* {'id': id} *)
  | SuccessBody                  (* {'success': True} *)
  | EmptyBody.                   (* '' *)

Record response : Type := mk_response { status : Z; body : json_body }.

(** The integer primary key that SQLite gives to an inserted row: one more
    than the largest key in the table, and 1 in an empty table. *)
Definition next_id (ids : list Z) : Z :=
  match ids with
  | [] => 1
  | i :: rest => foldr Z.max i rest + 1
  end.

(** [Habit.query.get_or_404(habit_id)] *)
Definition get_or_404 (s : db) (habit_id : Z) : res Habit.t :=
  match list_find (λ h, Habit.id h = habit_id) (habit_table s) with
  | Some (_, h) => Ret h
  | None => Raise NotFound
  end.

(** [not data] for the parsed request body. *)
Definition falsy {V : Type} (data : option (gmap string V)) : bool :=
  match data with
  | None => true
  | Some m => bool_decide (m = ∅)
  end.

Definition has_key {V : Type} (data : option (gmap string V)) (k : string)
    : bool :=
  match data with
  | None => false
  | Some m => bool_decide (is_Some (m !! k))
  end.

Definition colors : list string :=
  ["bg-orange-100"; "bg-blue-100"; "bg-purple-100"; "bg-green-100";
   "bg-yellow-100"; "bg-red-100"; "bg-pink-100"; "bg-indigo-100"].

Section Handlers.
Context `{PyValue V}.

(** [data.get(k, dflt)] followed by [str(...)]. *)
Definition str_get (data : option (gmap string V)) (k : string) (dflt : text)
    : text :=
  match data ≫= (.!! k) with
  | Some v => py_str v
  | None => dflt
  end.

(** [db.session.add(habit); db.session.commit()].  SQLite takes the texts
    of the row as UTF-8: for a name or an emoji with a lone surrogate the
    insert raises [UnicodeEncodeError] (a [ValueError]) and no row is
    stored.  The colors are ASCII. *)
Definition insert_habit (s : db) (habit : Habit.t) : res db :=
  if encodable (Habit.name habit) && encodable (Habit.emoji habit) then
    Ret (mkdb (habit_table s ++ [habit]) (completion_table s))
  else Raise ValueError.

(** The body of the [try] of [create_habit]; [now] is
    [datetime.utcnow()]. *)
Definition create_try (now : Z) (s : db) (data : option (gmap string V))
    : res (db * response) :=
  if falsy data || negb (has_key data "name") then
    mret (s, mk_response 400 (ErrorBody "Habit name is required"))
  else
    let name := strip (str_get data "name" []) in
    let emoji := take 2 (strip (str_get data "emoji" star)) in
    if bool_decide (name = []) || (100 <? Z.of_nat (length name)) then
      mret (s, mk_response 400
                 (ErrorBody "Habit name must be between 1-100 characters"))
    else
      let habit :=
        Habit.mk (next_id (Habit.id <$> habit_table s))
          name
          (if bool_decide (emoji = []) then star else emoji)
          (colors !!! (length (habit_table s) `mod` length colors)%nat)
          now in
      s' ← insert_habit s habit;
      mret (s', mk_response 201 (IdBody (Habit.id habit))).

(** POST /api/habits: [except Exception] rolls the session back and
    answers 500. *)
Definition create_habit (now : Z) (s : db) (data : option (gmap string V))
    : db * response :=
  match create_try now s data with
  | Ret r => r
  | Raise _ | OutOfFuel =>
      (s, mk_response 500 (ErrorBody "Failed to create habit"))
  end.

(** [db.session.delete(habit)]: the relationship [completions] has
    [cascade='all, delete-orphan']. *)
Definition delete_habit_row (s : db) (habit : Habit.t) : db :=
  mkdb (filter (λ h, Habit.id h ≠ Habit.id habit) (habit_table s))
       (filter (λ c, Completion.habit_id c ≠ Habit.id habit)
          (completion_table s)).

(** DELETE /api/habits/<id>.  [get_or_404] is inside the [try], and
    [except Exception] also catches the [NotFound] that it raises. *)
Definition delete_habit (s : db) (habit_id : Z) : db * response :=
  match
    habit ← get_or_404 s habit_id;
    mret (delete_habit_row s habit, mk_response 204 EmptyBody)
  with
  | Ret r => r
  | Raise _ | OutOfFuel =>
      (s, mk_response 500 (ErrorBody "Failed to delete habit"))
  end.

(** [Completion.query.filter_by(habit_id=.., date=..).first()] *)
Definition find_completion (s : db) (habit_id : Z) (d : date)
    : option Completion.t :=
  snd <$> list_find
    (λ c, Completion.habit_id c = habit_id ∧ Completion.date c = d)
    (completion_table s).

Definition delete_completion_row (s : db) (c : Completion.t) : db :=
  mkdb (habit_table s)
       (filter (λ c', Completion.id c' ≠ Completion.id c)
          (completion_table s)).

Definition add_completion_row (s : db) (habit_id : Z) (d : date) : db :=
  mkdb (habit_table s)
       (completion_table s
        ++ [Completion.mk (next_id (Completion.id <$> completion_table s))
              habit_id d true]).

(** The body of the [try] of [toggle_completion]. *)
Definition toggle_try (s : db) (data : option (gmap string V))
    : res (db * response) :=
  if falsy data || negb (has_key data "habit_id")
     || negb (has_key data "date") then
    mret (s, mk_response 400 (ErrorBody "habit_id and date are required"))
  else
    match data ≫= (.!! "habit_id"), data ≫= (.!! "date") with
    | Some vh, Some vd =>
        habit_id ← py_int vh;
        match py_strptime_date vd with
        | Raise ValueError =>
            mret (s, mk_response 400
                       (ErrorBody "Invalid date format. Use YYYY-MM-DD"))
        | r =>
            d ← r;
            _ ← get_or_404 s habit_id;
            let s' :=
              match find_completion s habit_id d with
              | Some completion => delete_completion_row s completion
              | None => add_completion_row s habit_id d
              end in
            mret (s', mk_response 200 SuccessBody)
        end
    | _, _ => Raise KeyError      (* not reached: both keys are present *)
    end.

(** POST /api/completions *)
Definition toggle_completion (s : db) (data : option (gmap string V))
    : db * response :=
  match toggle_try s data with
  | Ret r => r
  | Raise ValueError =>
      (s, mk_response 400 (ErrorBody "Invalid input data"))
  | Raise _ | OutOfFuel =>
      (s, mk_response 500 (ErrorBody "Failed to toggle completion"))
  end.

End Handlers.

(** ** Notions of the specification *)

(** The habit [hid] has a completion row for the date [d]. *)
Definition done_on (s : db) (hid : Z) (d : date) : Prop :=
  ∃ c, c ∈ completion_table s ∧ Completion.habit_id c = hid
       ∧ Completion.date c = d ∧ Completion.completed c = true.

(** The habit [hid] is completed on the day whose ordinal is [o]. *)
Definition completed_on (s : db) (hid : Z) (o : Z) : Prop :=
  ∃ d, done_on s hid d ∧ toordinal d = o.

(** [k] consecutive days [start], [start - 1], .. satisfy [P] and are not
    before day [lo]; the next day back is before [lo] or fails [P]. *)
Definition walk_count (P : Z → Prop) (lo start k : Z) : Prop :=
  0 ≤ k
  ∧ (∀ i, 0 ≤ i < k → lo ≤ start - i ∧ P (start - i))
  ∧ ¬ (lo ≤ start - k ∧ P (start - k)).

(** The [k] consecutive days from [a] on are in [lo .. hi] and satisfy [P]. *)
Definition run (P : Z → Prop) (lo hi a k : Z) : Prop :=
  0 ≤ k ∧ ∀ i, 0 ≤ i < k → lo ≤ a + i ≤ hi ∧ P (a + i).

Definition longest_run (P : Z → Prop) (lo hi b : Z) : Prop :=
  (∃ a, run P lo hi a b) ∧ ∀ a k, run P lo hi a k → k ≤ b.

(** The keys that one habit adds to [completions_dict]. *)
Definition pure_keys (s : db) (first_day last_day : date)
    (d : gmap string bool) (h : Habit.t) : gmap string bool :=
  add_keys (Habit.id h) d (month_comps s (Habit.id h) first_day last_day).

(** The loop of lines 507-512 on the ordinals of [sorted_dates], with the
    previous date as an argument instead of an index. *)
Fixpoint scan (prev : Z) (rest : list Z) (st : Z * Z) : Z * Z :=
  match rest with
  | [] => st
  | o :: rest' =>
      scan o rest'
        (if o - prev =? 1 then (st.1, st.2 + 1) else (Z.max st.1 st.2, 1))
  end.

(** The invariant of that loop: [st.2] is the length of the run that ends
    at [prev], [st.1] the length of a run seen before, and no run among the
    days [P] seen so far is longer than both. *)
Definition streak_inv (P : Z → Prop) (prev : Z) (st : Z * Z) : Prop :=
  0 ≤ st.1 ∧ 1 ≤ st.2
  ∧ (∀ i, 0 ≤ i < st.2 → P (prev - i))
  ∧ ¬ P (prev - st.2)
  ∧ (∀ x, P x → x ≤ prev)
  ∧ (∃ a, ∀ i, 0 ≤ i < st.1 → P (a + i))
  ∧ (∀ a k, (∀ i, 0 ≤ i < k → P (a + i)) → k ≤ Z.max st.1 st.2).

(** The (habit id, date) pairs whose keys enter [completions_dict]. *)
Definition month_pairs (s : db) (first_day last_day : date) (hs : list Habit.t)
    : list (Z * date) :=
  hs ≫= (λ h, (λ c, (Habit.id h, Completion.date c))
                <$> month_comps s (Habit.id h) first_day last_day).

Global Instance done_on_dec s hid d : Decision (done_on s hid d).
Proof.
  refine (cast_if (decide (Exists (λ c, Completion.habit_id c = hid
                                         ∧ Completion.date c = d
                                         ∧ Completion.completed c = true)
                             (completion_table s))));
    unfold done_on; rewrite Exists_exists in *; naive_solver.
Defined.

(** The number of habits of the table that are completed on [d]. *)
Definition habits_done (s : db) (d : date) : Z :=
  Z.of_nat (length (filter (λ h, done_on s (Habit.id h) d) (habit_table s))).

Section SpecNumbers.
Context `{PyFloat F}.

(** The entry that the loop of lines 533-541 appends for day [j]. *)
Definition day_entry (hs : list Habit.t) (dict : gmap string bool)
    (y m j : Z) : DayStat.t F :=
  DayStat.mk j
    (py_round (percentage_of hs (day_completions dict (mkdate y m j))) 1).

(** The percentage of the specification: completed habits over habits,
    times 100, rounded to one decimal; the int 0 without habits. *)
Definition spec_percentage (s : db) (d : date) : number F :=
  match habit_table s with
  | [] => PyInt 0
  | _ :: _ =>
      PyFloatV
        (float_round
           (float_mul_int
              (int_truediv (habits_done s d)
                 (Z.of_nat (length (habit_table s)))) 100) 1)
  end.

End SpecNumbers.

(** Two stores have the same completions on the dates of the month. *)
Definition agree_in_month (s1 s2 : db) (first_day last_day : date) : Prop :=
  ∀ hid d, date_le first_day d → date_le d last_day →
           (done_on s1 hid d ↔ done_on s2 hid d).

(** The (habit, date) pairs that are marked done: those with a row. *)
Definition marked (s : db) : list (Z * date) :=
  (λ c, (Completion.habit_id c, Completion.date c)) <$> completion_table s.

(** The facts that the completion table holds, without the row ids. *)
Definition facts (s : db) : list (Z * date * bool) :=
  (λ c, (Completion.habit_id c, Completion.date c, Completion.completed c))
    <$> completion_table s.

(** Every row is as [toggle_completion] writes it. *)
Definition written_by_app (s : db) : Prop :=
  Forall (λ c, Completion.completed c = true) (completion_table s).

(** ** Sample data *)

(** Float operations left uninterpreted: a value is the expression that
    computes it. *)
Inductive float_expr : Type :=
  | TrueDiv (a b : Z)
  | MulInt (x : float_expr) (n : Z)
  | Round (x : float_expr) (ndigits : Z).

Global Instance symbolic_float : PyFloat float_expr :=
  {| int_truediv := TrueDiv; float_mul_int := MulInt; float_round := Round |}.

Definition text_of_string (s : string) : text :=
  (λ b, N_of_ascii (ascii_of_byte b)) <$> list_byte_of_string s.

(** Request values: a text that is neither a number nor a date, a JSON
    integer, and the text 'YYYY-MM-DD' of a date. *)
Inductive sample_value : Type :=
  | SText (t : text)
  | SInt (z : Z)
  | SDate (d : date).

Global Instance sample_py_value : PyValue sample_value :=
  {| py_str v :=
       match v with
       | SText t => t
       | SInt z => text_of_string (pretty z)
       | SDate d => text_of_string (str_date d)
       end;
     py_int v :=
       match v with
       | SInt z => Ret z
       | SText _ | SDate _ => Raise ValueError
       end;
     py_strptime_date v :=
       match v with
       | SDate d => if valid_date d then Ret d else Raise ValueError
       | SText _ => Raise ValueError
       | SInt _ => Raise TypeError
       end |}.

Definition sample_db : db :=
  mkdb
    [Habit.mk 1 (text_of_string "Gym") star "bg-orange-100" 0;
     Habit.mk 2 (text_of_string "Read") star "bg-blue-100" 0]
    [Completion.mk 1 1 (mkdate 2024 2 3) true;
     Completion.mk 2 1 (mkdate 2024 2 5) true;
     Completion.mk 3 1 (mkdate 2024 2 4) true;
     Completion.mk 4 1 (mkdate 2024 2 10) true;
     Completion.mk 5 2 (mkdate 2024 1 31) true;
     Completion.mk 6 2 (mkdate 2024 2 29) true;
     Completion.mk 7 2 (mkdate 2024 2 28) true].

(** The same month of February, other completions around it. *)
Definition sample_db' : db :=
  mkdb (habit_table sample_db)
    [Completion.mk 1 1 (mkdate 2024 2 3) true;
     Completion.mk 2 1 (mkdate 2024 2 5) true;
     Completion.mk 3 1 (mkdate 2024 2 4) true;
     Completion.mk 4 1 (mkdate 2024 2 10) true;
     Completion.mk 6 2 (mkdate 2024 2 29) true;
     Completion.mk 7 2 (mkdate 2024 2 28) true;
     Completion.mk 8 1 (mkdate 2024 3 1) true].

Definition summary_of (r : res (Summary.t float_expr)) : Summary.t float_expr :=
  match r with
  | Ret x => x
  | Raise _ | OutOfFuel => Summary.mk [] ∅ []
  end.

(** February 2024 fetched on 5 March 2024, and on 15 January 2024. *)
Definition sample_after : Summary.t float_expr :=
  summary_of (get_habits (mkdate 2024 3 5) 2024 2 sample_db).

Definition sample_before : Summary.t float_expr :=
  summary_of (get_habits (mkdate 2024 1 15) 2024 2 sample_db).

Definition gym_after : HabitJson.t :=
  HabitJson.mk 1 (text_of_string "Gym") star "bg-orange-100" 0 3.
Definition read_after : HabitJson.t :=
  HabitJson.mk 2 (text_of_string "Read") star "bg-blue-100" 2 2.
Definition read_before : HabitJson.t :=
  HabitJson.mk 2 (text_of_string "Read") star "bg-blue-100" 0 2.

Definition toggle_request (hid : Z) (d : date) : option (gmap string sample_value) :=
  Some (<["habit_id" := SInt hid]> (<["date" := SDate d]> ∅)).

(** C4 as the specification states it. *)
Definition walk_from_last_day_claim : Prop :=
  ∀ today y m s (resp : Summary.t float_expr) hj,
    valid_date today = true → store_wf s →
    get_habits today y m s = Ret resp → hj ∈ Summary.habits resp →
    date_ltb today (mkdate y m 1) = true
    ∨ date_ltb (mkdate y m (days_in_month y m)) today = true →
    walk_count (completed_on s (HabitJson.id hj))
      (toordinal (mkdate y m 1))
      (toordinal (mkdate y m (days_in_month y m)))
      (HabitJson.current_streak hj).

(** The name and the emoji that [create_habit] takes from a request, and
    the requests that it rejects. *)
Section HandlerSpec.
Context `{PyValue V}.

Definition requested_name (data : option (gmap string V)) : text :=
  strip (str_get data "name" []).

Definition requested_emoji (data : option (gmap string V)) : text :=
  take 2 (strip (str_get data "emoji" star)).

Definition name_rejected (data : option (gmap string V)) : Prop :=
  data ≫= (.!! "name") = None
  ∨ requested_name data = []
  ∨ (100 < length (requested_name data))%nat.

End HandlerSpec.

(** ** Invariants of the store *)

(** Every completion row refers to a habit of the table: the foreign key
    [Completion.habit_id], which SQLite does not enforce by itself. *)
Definition store_fk (s : db) : Prop :=
  ∀ c, c ∈ completion_table s →
       Completion.habit_id c ∈ Habit.id <$> habit_table s.

(** No white space at either end. *)
Definition trimmed (t : text) : Prop :=
  (∀ c, head t = Some c → is_space c = false)
  ∧ (∀ c, last t = Some c → is_space c = false).

(** [t'] is [t] without the white space at its two ends. *)
Definition stripped_of (t t' : text) : Prop :=
  ∃ pre post, t = pre ++ t' ++ post
    ∧ Forall (λ c, is_space c = true) pre
    ∧ Forall (λ c, is_space c = true) post
    ∧ trimmed t'.


(** The texts of a habit row as [create_habit] and [init_db] write them. *)
Definition habit_text_ok (h : Habit.t) : Prop :=
  Habit.name h ≠ [] ∧ (length (Habit.name h) ≤ 100)%nat ∧ trimmed (Habit.name h)
  ∧ Habit.emoji h ≠ [] ∧ (length (Habit.emoji h) ≤ 2)%nat
  ∧ (∀ c, head (Habit.emoji h) = Some c → is_space c = false).

(** What every store that the application builds satisfies. *)
Record store_inv (s : db) : Prop := mk_store_inv
  { inv_wf : store_wf s;
    inv_fk : store_fk s;
    inv_completed : written_by_app s;
    inv_text : Forall habit_text_ok (habit_table s);
    inv_habit_ids : Forall (λ h, 1 ≤ Habit.id h) (habit_table s);
    inv_completion_ids : Forall (λ c, 1 ≤ Completion.id c) (completion_table s) }.

(** ** Requests that [toggle_completion] accepts *)

Section ToggleSpec.
Context `{PyValue V}.

(** The request names an existing habit [hid] and a date [d]. *)
Definition toggle_accepts (s : db) (data : option (gmap string V))
    (hid : Z) (d : date) : Prop :=
  ∃ vh vd, data ≫= (.!! "habit_id") = Some vh ∧ data ≫= (.!! "date") = Some vd
           ∧ py_int vh = Ret hid ∧ py_strptime_date vd = Ret d
           ∧ hid ∈ Habit.id <$> habit_table s.

(** [strptime] only returns dates of the calendar. *)
Definition strptime_valid : Prop :=
  ∀ v d, py_strptime_date v = Ret d → valid_date d = true.

End ToggleSpec.

(** ** init_db *)

(** The sample habits of lines 649-654: name, emoji, color. *)
Definition sample_habits : list (text * text * string) :=
  [(text_of_string "Wake up at 6 AM", [9728%N; 65039%N], "bg-orange-100");
   (text_of_string "Gym", [128170%N], "bg-blue-100");
   (text_of_string "Exam preparation", [128218%N], "bg-purple-100");
   (text_of_string "Budget Tracking", [128176%N], "bg-green-100")].

(** [db.session.add(Habit(name=.., emoji=.., color=..))] and the row that
    the flush inserts; [now] is the value of the column default
    [datetime.utcnow]. *)
Definition add_habit_row (s : db) (now : Z) (r : text * text * string) : db :=
  mkdb (habit_table s
        ++ [Habit.mk (next_id (Habit.id <$> habit_table s)) r.1.1 r.1.2 r.2 now])
       (completion_table s).

(** [init_db()]; [now i] is the clock when the [i]-th sample row is
    inserted.  The tables exist in every [db], so [db.create_all()] has
    nothing to do. *)
Definition init_db (now : nat → Z) (s : db) : db :=
  if bool_decide (length (habit_table s) = 0%nat) then
    foldl (λ s' ir, add_habit_row s' (now ir.1) ir.2) s (imap pair sample_habits)
  else s.

(** ** The requests of the application *)

Inductive request (V : Type) : Type :=
  | CreateHabit (now : Z) (data : option (gmap string V))
  | DeleteHabit (habit_id : Z)
  | ToggleCompletion (data : option (gmap string V))
  | InitDb (now : nat → Z).
Arguments CreateHabit {V} now data.
Arguments DeleteHabit {V} habit_id.
Arguments ToggleCompletion {V} data.
Arguments InitDb {V} now.

Definition handle `{PyValue V} (s : db) (r : request V) : db :=
  match r with
  | CreateHabit now data => (create_habit now s data).1
  | DeleteHabit habit_id => (delete_habit s habit_id).1
  | ToggleCompletion data => (toggle_completion s data).1
  | InitDb now => init_db now s
  end.

(** The store after [db.create_all()] on a new database. *)
Definition empty_db : db := mkdb [] [].

(** ** The entries of the month summary *)

(** The value of a streak computation that returned. *)
Definition streak_value (r : res Z) : Z :=
  match r with
  | Ret k => k
  | Raise _ | OutOfFuel => 0
  end.

(** The entry of one habit in the answer of [get_habits]. *)
Definition habit_entry (s : db) (today first_day last_day : date)
    (h : Habit.t) : HabitJson.t :=
  HabitJson.mk (Habit.id h) (Habit.name h) (Habit.emoji h) (Habit.color h)
    (streak_value
       (current_streak_of today first_day last_day (dates_of s (Habit.id h))))
    (best_streak_of first_day last_day (dates_of s (Habit.id h))).

(** What one entry of the answer keeps when the current streak is left out. *)
Definition without_current (hj : HabitJson.t) : Z * text * text * string * Z :=
  (HabitJson.id hj, HabitJson.name hj, HabitJson.emoji hj, HabitJson.color hj,
   HabitJson.best_streak hj).

(** ** The script of the page

    The numbers of the script that occur here are integers ([getFullYear],
    [getMonth], day numbers, habit ids that a JavaScript number holds
    exactly): they are in [Z], and [String(n)] and [`${n}`] are their
    decimal digits.  [daysInMonth] and [firstDayOfWeek] are read from [Date]
    objects and are arguments here. *)

(** [t.padStart(n, c)] for a pad string [c] of one character. *)
Definition pad_start (n : nat) (c : ascii) (t : string) : string :=
  string_of_list_ascii (replicate (n - String.length t) c) +:+ t.

(** Lines 284 and 334: [dateStr], with [month] counted from 0. *)
Definition date_str (year month day : Z) : string :=
  pretty year +:+ "-" +:+ pad_start 2 "0" (pretty (month + 1))
  +:+ "-" +:+ pad_start 2 "0" (pretty day).

(** Line 285: [completions[`${habit.id}-${dateStr}`] || false]. *)
Definition is_completed (completions : gmap string bool)
    (habit_id year month day : Z) : bool :=
  default false
    (completions !! (pretty habit_id +:+ "-" +:+ date_str year month day)).

(** Lines 274-298: the cells of the row of one habit, week after week;
    [Some (cell day)] is a checkbox, [None] an empty cell. *)
Definition row_cells {A : Type} (cell : Z → A)
    (daysInMonth firstDayOfWeek : Z) : list (option A) :=
  let weeks := Z.max ((daysInMonth + firstDayOfWeek + 6) / 7) 4 in
  week ← seqZ 0 weeks;
  dayOfWeek ← seqZ 1 7;
  let day := week * 7 + dayOfWeek in
  [if bool_decide (daysInMonth < day) then None else Some (cell day)].

(** Line 286: [completedCount]. *)
Definition completed_count (completions : gmap string bool)
    (habit_id year month daysInMonth firstDayOfWeek : Z) : Z :=
  Z.of_nat (length (filter (λ c, c = Some true)
    (row_cells (is_completed completions habit_id year month)
       daysInMonth firstDayOfWeek))).

(** Lines 331-340: [done] for one day, the habits whose key for that day is
    set in [completions]. *)
Definition done_count (habits : list HabitJson.t)
    (completions : gmap string bool) (year month day : Z) : Z :=
  Z.of_nat (length (filter
    (λ habit, is_completed completions (HabitJson.id habit) year month day = true)
    habits)).

(** ** More sample data *)

(** A completion in February of the year 999. *)
Definition sample_db_999 : db :=
  mkdb (habit_table sample_db) [Completion.mk 1 1 (mkdate 999 2 3) true].

(** A request whose name is the lone surrogate U+D800 (the JSON text
    {"name": "\ud800"}). *)
Definition surrogate_request : option (gmap string sample_value) :=
  Some (<["name" := SText [55296%N]]> ∅).


(** The request that the form of the page sends for the name "  Walk ". *)
Definition walk_request : option (gmap string sample_value) :=
  Some (<["name" := SText (text_of_string "  Walk ")]> ∅).

(** The request that the form of the page sends for a sample habit. *)
Definition sample_request (r : text * text * string)
    : option (gmap string sample_value) :=
  Some (<["name" := SText r.1.1]> (<["emoji" := SText r.1.2]> ∅)).


(** * Properties *)

(** ** The calendar *)

Ltac date_unfold :=
  unfold date_le, date_leb, date_ltb, date_min, valid_date, valid_month,
    MINYEAR, MAXYEAR in *; simpl in *.

Ltac month_cases m :=
  let Hc := fresh "Hc" in
  assert (m = 1 ∨ m = 2 ∨ m = 3 ∨ m = 4 ∨ m = 5 ∨ m = 6 ∨ m = 7 ∨ m = 8
          ∨ m = 9 ∨ m = 10 ∨ m = 11 ∨ m = 12) as Hc by lia;
  destruct_or!; subst m.

Lemma days_in_month_bounds y m : 28 ≤ days_in_month y m ≤ 31.
Proof. unfold days_in_month. repeat case_match; lia. Qed.

Lemma days_before_year_succ y :
  days_before_year (y + 1) = days_before_year y + (if is_leap y then 366 else 365).
Proof.
  unfold days_before_year, is_leap. 
  replace (y + 1 - 1) with y by lia.
  destruct (Z.eqb_spec (y mod 4) 0), (Z.eqb_spec (y mod 100) 0), (Z.eqb_spec (y mod 400) 0); simpl;
  Z.div_mod_to_equations; lia.
Qed.

Lemma days_before_year_le y y' : y ≤ y' → days_before_year y ≤ days_before_year y'.
Proof. unfold days_before_year. intros. Z.div_mod_to_equations; lia. Qed.

Lemma days_before_month_succ y m :
  1 ≤ m < 12 → days_before_month y (m + 1) = days_before_month y m + days_in_month y m.
Proof.
  intros Hm. assert (1 ≤ m ≤ 12) by lia. month_cases m; try lia;
  unfold days_before_month, days_in_month; destruct (is_leap y); reflexivity.
Qed.

Lemma days_before_month_le y m m' :
  1 ≤ m → m ≤ m' → m' ≤ 12 → days_before_month y m ≤ days_before_month y m'.
Proof.
  intros. assert (1 ≤ m ≤ 12) by lia. assert (1 ≤ m' ≤ 12) by lia.
  month_cases m; month_cases m'; try lia;
  unfold days_before_month; destruct (is_leap y); simpl; lia.
Qed.

Lemma days_before_month_last y m :
  1 ≤ m ≤ 12 → days_before_month y m + days_in_month y m ≤ (if is_leap y then 366 else 365).
Proof.
  intros. month_cases m; unfold days_before_month, days_in_month; destruct (is_leap y); simpl; lia.
Qed.

Lemma valid_date_spec d :
  valid_date d = true ↔
  1 ≤ year d ≤ 9999 ∧ 1 ≤ month d ≤ 12 ∧ 1 ≤ day d ≤ days_in_month (year d) (month d).
Proof. date_unfold. rewrite !andb_true_iff, !Z.leb_le. lia. Qed.

Lemma date_ltb_spec a b :
  date_ltb a b = true ↔
  year a < year b ∨ (year a = year b ∧ (month a < month b ∨ (month a = month b ∧ day a < day b))).
Proof. unfold date_ltb. rewrite !orb_true_iff, !andb_true_iff, !Z.ltb_lt, !orb_true_iff, !andb_true_iff, !Z.eqb_eq, !Z.ltb_lt. tauto. Qed.

Lemma toordinal_lt a b :
  valid_date a = true → valid_date b = true → date_ltb a b = true → toordinal a < toordinal b.
Proof.
  rewrite !valid_date_spec, date_ltb_spec. intros (?&?&?) (?&?&?) Hlt. unfold toordinal.
  destruct Hlt as [Hy|[Hy [Hm|[Hm Hd]]]].
  - pose proof (days_before_year_le (year a + 1) (year b) ltac:(lia)).
    pose proof (days_before_year_succ (year a)).
    pose proof (days_before_month_last (year a) (month a) ltac:(lia)).
    pose proof (days_before_month_le (year b) 1 (month b) ltac:(lia) ltac:(lia) ltac:(lia)).
    change (days_before_month (year b) 1) with (0 + (if false && is_leap (year b) then 1 else 0)) in *. simpl in *.
    lia.
  - rewrite Hy in *.
    pose proof (days_before_month_succ (year b) (month a) ltac:(lia)).
    pose proof (days_before_month_le (year b) (month a + 1) (month b) ltac:(lia) ltac:(lia) ltac:(lia)).
    lia.
  - rewrite Hy, Hm in *. lia.
Qed.

Lemma date_ltb_total a b : date_ltb a b = true ∨ a = b ∨ date_ltb b a = true.
Proof.
  rewrite !date_ltb_spec. destruct a as [ya ma da], b as [yb mb db]; simpl.
  destruct (decide (ya = yb)), (decide (ma = mb)), (decide (da = db)); subst; auto; lia.
Qed.

Lemma toordinal_lt_iff a b :
  valid_date a = true → valid_date b = true → date_ltb a b = true ↔ toordinal a < toordinal b.
Proof.
  intros Ha Hb. split; [by apply toordinal_lt|]. intros Hlt.
  destruct (date_ltb_total a b) as [?|[->|Hba]]; [done|lia|].
  apply toordinal_lt in Hba; [lia|done..].
Qed.

Lemma toordinal_le_iff a b :
  valid_date a = true → valid_date b = true → date_le a b ↔ toordinal a ≤ toordinal b.
Proof.
  intros Ha Hb. unfold date_le, date_leb. rewrite negb_true_iff. split.
  - intros Hn. destruct (Z.le_gt_cases (toordinal a) (toordinal b)) as [|Hgt]; [done|].
    assert (date_ltb b a = true) by (apply toordinal_lt_iff; [done..|lia]). congruence.
  - intros Hle. destruct (date_ltb b a) eqn:E; [|done].
    apply toordinal_lt in E; [lia|done..].
Qed.

Lemma toordinal_inj a b :
  valid_date a = true → valid_date b = true → toordinal a = toordinal b → a = b.
Proof.
  intros Ha Hb Heq. destruct (date_ltb_total a b) as [Hlt|[->|Hlt]]; [|done|];
    apply toordinal_lt in Hlt; done || lia.
Qed.

Lemma date_pred_spec d d' :
  valid_date d = true → date_pred d = Ret d' →
  valid_date d' = true ∧ toordinal d' = toordinal d - 1.
Proof.
  rewrite !valid_date_spec. intros (?&?&?). unfold date_pred, MINYEAR.
  repeat case_match; intros [= <-]; simpl; rewrite ?valid_date_spec; simpl.
  - split; [lia|]. unfold toordinal; simpl. lia.
  - pose proof (days_in_month_bounds (year d) (month d - 1)).
    split; [lia|]. unfold toordinal; simpl.
    pose proof (days_before_month_succ (year d) (month d - 1) ltac:(lia)).
    replace (month d - 1 + 1) with (month d) in * by lia. lia.
  - split; [unfold days_in_month; simpl; lia|]. unfold toordinal; simpl.
    pose proof (days_before_year_succ (year d - 1)).
    replace (year d - 1 + 1) with (year d) in * by lia.
    assert (month d = 1) as -> by lia.
    unfold days_before_month; simpl. destruct (is_leap (year d - 1)); simpl; lia.
Qed.

Lemma date_succ_spec d d' :
  valid_date d = true → date_succ d = Ret d' →
  valid_date d' = true ∧ toordinal d' = toordinal d + 1.
Proof.
  rewrite !valid_date_spec. intros (?&?&?). unfold date_succ, MAXYEAR.
  repeat case_match; intros [= <-]; simpl; rewrite ?valid_date_spec; simpl.
  - split; [lia|]. unfold toordinal; simpl. lia.
  - pose proof (days_in_month_bounds (year d) (month d + 1)).
    split; [lia|]. unfold toordinal; simpl.
    pose proof (days_before_month_succ (year d) (month d) ltac:(lia)). lia.
  - split; [unfold days_in_month; simpl; lia|]. unfold toordinal; simpl.
    pose proof (days_before_year_succ (year d)).
    assert (month d = 12) as Hm by lia. rewrite Hm in *.
    assert (day d = 31) as -> by (unfold days_in_month in *; simpl in *; lia).
    unfold days_before_month; simpl. destruct (is_leap (year d)); simpl; lia.
Qed.

(** ** The error monad and the habit loop *)

Lemma bind_Ret {A B} (m : res A) (k : A → res B) b :
  m ≫= k = Ret b ↔ ∃ a, m = Ret a ∧ k a = Ret b.
Proof. destruct m; simpl; split; try done; [eauto|..]; by intros (?&?&?); simplify_eq. Qed.

Lemma elem_of_dates_of s hid d : d ∈ dates_of s hid ↔ done_on s hid d.
Proof.
  unfold dates_of, all_comps, done_on. rewrite list_elem_of_fmap. split.
  - intros (c & -> & Hc). rewrite merge_sort_Permutation in Hc.
    apply list_elem_of_filter in Hc as [[? ?] ?]. eauto 10.
  - intros (c & ? & ? & ? & ?). exists c. split; [done|].
    rewrite merge_sort_Permutation. by apply list_elem_of_filter.
Qed.

Lemma valid_dates_of s hid d :
  store_wf s → d ∈ dates_of s hid → valid_date d = true.
Proof.
  intros [_ _ _ Hv] (c & ? & _ & <- & _)%elem_of_dates_of.
  by eapply (proj1 (Forall_forall _ _) Hv).
Qed.

Lemma walk_count_unique P lo start k1 k2 :
  walk_count P lo start k1 → walk_count P lo start k2 → k1 = k2.
Proof.
  intros (? & H1 & N1) (? & H2 & N2).
  destruct (Z.lt_trichotomy k1 k2) as [?|[?|?]]; [|done|].
  - destruct N1. apply H2. lia.
  - destruct N2. apply H1. lia.
Qed.

Lemma walk_count_step P lo start k :
  lo ≤ start → P start → walk_count P lo (start - 1) k → walk_count P lo start (k + 1).
Proof.
  intros ?? (? & Hk & Hn). split; [lia|]. split.
  - intros i ?. destruct (decide (i = 0)) as [->|]; [by rewrite Z.sub_0_r|].
    replace (start - i) with (start - 1 - (i - 1)) by lia. apply Hk. lia.
  - by replace (start - (k + 1)) with (start - 1 - k) by lia.
Qed.

Section walk.
Context (s : db) (hid : Z) (first_day : date).
Hypothesis Hwf : store_wf s.
Hypothesis Hfirst : valid_date first_day = true.

Lemma streak_cond_spec st :
  valid_date st.2 = true →
  streak_cond first_day (dates_of s hid) st = true ↔
  toordinal first_day ≤ toordinal st.2 ∧ completed_on s hid (toordinal st.2).
Proof.
  intros Hv. unfold streak_cond. rewrite andb_true_iff, bool_decide_eq_true.
  change (date_leb first_day st.2 = true) with (date_le first_day st.2).
  rewrite toordinal_le_iff by done. rewrite elem_of_dates_of. unfold completed_on.
  split; intros [? Hd]; (split; [done|]).
  - eauto.
  - destruct Hd as (d & Hd & Heq). apply toordinal_inj in Heq as ->; [done| |done].
    eapply valid_dates_of; [done|]. by apply elem_of_dates_of.
Qed.

Lemma streak_walk_spec fuel st st' :
  valid_date st.2 = true →
  while fuel (streak_cond first_day (dates_of s hid)) streak_body st = Ret st' →
  walk_count (completed_on s hid) (toordinal first_day) (toordinal st.2) (st'.1 - st.1).
Proof.
  revert st. induction fuel as [|fuel IH]; intros st Hv; simpl; [done|].
  destruct (streak_cond _ _ st) eqn:Hc.
  - apply streak_cond_spec in Hc as [Hlo Hdone]; [|done].
    intros (st1 & Hb & Hw)%bind_Ret. unfold streak_body in Hb.
    apply bind_Ret in Hb as (d' & Hp & [= <-]).
    apply date_pred_spec in Hp as [Hv' Ho]; [|done].
    apply IH in Hw; [|done]. simpl in Hw. rewrite Ho in Hw.
    replace (st'.1 - st.1) with (st'.1 - (st.1 + 1) + 1) by lia.
    by apply walk_count_step.
  - intros [= <-]. rewrite Z.sub_diag. split; [done|]. split; [intros; lia|].
    rewrite Z.sub_0_r. intros Hn. apply streak_cond_spec in Hn; [|done]. congruence.
Qed.

End walk.

Lemma datetime_date_Ret y m d x :
  datetime_date y m d = Ret x → x = mkdate y m d ∧ valid_date x = true.
Proof. unfold datetime_date. repeat case_match; try done. by intros [= <-]. Qed.

Lemma datetime_date_valid y m d :
  valid_date (mkdate y m d) = true → datetime_date y m d = Ret (mkdate y m d).
Proof.
  intros Hv. unfold datetime_date. rewrite Hv.
  apply valid_date_spec in Hv. simpl in Hv.
  pose proof (days_in_month_bounds y m).
  assert (fits_c_int y && fits_c_int m && fits_c_int d = true) as ->; [|done].
  unfold fits_c_int. rewrite !andb_true_iff, !Z.leb_le. lia.
Qed.

Lemma datetime_date_fuel y m d : datetime_date y m d ≠ OutOfFuel.
Proof. unfold datetime_date. by repeat case_match. Qed.

Lemma for_each_habits s today first_day last_day hs st0 st :
  for_each (habit_body s today first_day last_day) st0 hs = Ret st →
  st.1 = foldl (pure_keys s first_day last_day) st0.1 hs
  ∧ ∀ i, if decide (i ∈ Habit.id <$> hs)
         then ∃ cs, current_streak_of today first_day last_day (dates_of s i) = Ret cs
                    ∧ st.2 !! i = Some (mk_streaks cs (best_streak_of first_day last_day (dates_of s i)))
         else st.2 !! i = st0.2 !! i.
Proof.
  revert st0. induction hs as [|h hs IH]; intros st0; cbn [for_each].
  - intros [= <-]. split; [done|]. intros i.
    destruct (decide _) as [Hi|Hi]; [|done]. by apply elem_of_nil in Hi.
  - intros (st1 & Hb & Hr)%bind_Ret. apply IH in Hr as [Hk Hs].
    unfold habit_body in Hb. apply bind_Ret in Hb as (cs & Hcs & [= <-]). cbn [fst snd foldl] in *.
    split; [done|]. intros i. specialize (Hs i). rewrite fmap_cons.
    destruct (decide (i ∈ Habit.id <$> hs)) as [Hi|Hi].
    + rewrite decide_True by (apply elem_of_cons; by right). done.
    + destruct (decide (i = Habit.id h)) as [->|Hne].
      * rewrite decide_True by (apply elem_of_cons; by left). exists cs. split; [done|].
        by rewrite Hs, lookup_insert_eq.
      * rewrite decide_False by (by intros [?|?]%elem_of_cons).
        by rewrite Hs, lookup_insert_ne.
Qed.

Section Agg.
Context `{PyFloat F}.

Lemma get_habits_Ret today y m s (resp : Summary.t F) :
  get_habits today y m s = Ret resp →
  let first_day := mkdate y m 1 in
  let last_day := mkdate y m (days_in_month y m) in
  valid_date first_day = true ∧ valid_date last_day = true ∧
  ∃ st ds,
    for_each (habit_body s today first_day last_day) (∅, ∅) (habit_table s) = Ret st
    ∧ while (month_fuel last_day) (stats_cond last_day)
        (stats_body (habit_table s) st.1) ([], first_day) = Ret ds
    ∧ resp = Summary.mk (habit_json st.2 <$> habit_table s) st.1 ds.1.
Proof.
  unfold get_habits.
  intros (fd & [-> ?]%datetime_date_Ret & (ld & [-> ?]%datetime_date_Ret
          & (st & Hst & (ds & Hds & [= <-])%bind_Ret)%bind_Ret)%bind_Ret)%bind_Ret.
  simpl. eauto 10.
Qed.

Lemma date_min_valid a b : valid_date a = true → valid_date b = true → valid_date (date_min a b) = true.
Proof. unfold date_min. by case_match. Qed.

Lemma get_habits_streaks today y m s (resp : Summary.t F) hj :
  get_habits today y m s = Ret resp → hj ∈ Summary.habits resp →
  let first_day := mkdate y m 1 in
  let last_day := mkdate y m (days_in_month y m) in
  valid_date first_day = true ∧ valid_date last_day = true ∧
  current_streak_of today first_day last_day (dates_of s (HabitJson.id hj))
    = Ret (HabitJson.current_streak hj)
  ∧ HabitJson.best_streak hj = best_streak_of first_day last_day (dates_of s (HabitJson.id hj)).
Proof.
  intros (? & ? & st & ds & Hst & _ & ->)%get_habits_Ret. simpl.
  intros (h & -> & Hh)%list_elem_of_fmap. simpl.
  apply for_each_habits in Hst as [_ Hs]. specialize (Hs (Habit.id h)).
  rewrite decide_True in Hs by (by apply list_elem_of_fmap_2).
  destruct Hs as (cs & Hcs & ->). done.
Qed.

End Agg.

(** The result of the backward walk of lines 495-499. *)
Lemma current_streak_of_spec s hid today first_day last_day k :
  store_wf s → valid_date today = true →
  valid_date first_day = true → valid_date last_day = true →
  current_streak_of today first_day last_day (dates_of s hid) = Ret k →
  walk_count (completed_on s hid) (toordinal first_day)
    (toordinal (date_min today last_day)) k.
Proof.
  intros Hwf Ht Hf Hl Hcs. unfold current_streak_of in Hcs.
  apply bind_Ret in Hcs as (st & Hw & [= Hst]).
  apply streak_walk_spec in Hw; [|done..|by apply date_min_valid].
  simpl in Hw. by rewrite Z.sub_0_r, Hst in Hw.
Qed.

Lemma completed_on_toordinal s hid d :
  store_wf s → valid_date d = true →
  completed_on s hid (toordinal d) ↔ done_on s hid d.
Proof.
  intros Hwf Hv. split; [|by exists d].
  intros (d' & Hd & Heq). apply toordinal_inj in Heq as ->; [done| |done].
  eapply valid_dates_of; [done|]. by apply elem_of_dates_of.
Qed.

(** ** The best streak *)

Lemma foldl_best_step pre d rest st :
  foldl (best_step (pre ++ d :: rest)) st (seq (S (length pre)) (length rest))
  = scan (toordinal d) (toordinal <$> rest) st.
Proof.
  revert pre d st. induction rest as [|r rest IH]; intros pre d st; [done|].
  cbn [length seq foldl fmap list_fmap scan].
  replace (best_step (pre ++ d :: r :: rest) st (S (length pre)))
    with (if toordinal r - toordinal d =? 1 then (st.1, st.2 + 1)
          else (Z.max st.1 st.2, 1)).
  - specialize (IH (pre ++ [d]) r). rewrite <-app_assoc, length_app in IH.
    simpl in IH. rewrite Nat.add_1_r in IH. apply IH.
  - unfold best_step, days_between.
    replace (S (length pre) - 1)%nat with (length pre) by lia.
    rewrite (list_lookup_total_middle pre (r :: rest) d (length pre)) by done.
    replace (pre ++ d :: r :: rest) with ((pre ++ [d]) ++ r :: rest)
      by (by rewrite <-app_assoc).
    rewrite (list_lookup_total_middle (pre ++ [d]) rest r (S (length pre))); [done|].
    rewrite length_app. simpl. lia.
Qed.

Lemma streak_inv_ext P Q prev st :
  (∀ x, P x ↔ Q x) → streak_inv P prev st → streak_inv Q prev st.
Proof.
  intros HPQ (? & ? & Hr & Hn & Hle & [a Ha] & Hmax).
  repeat split; try done.
  - intros i ?. by apply HPQ, Hr.
  - by rewrite <-HPQ.
  - intros x ?%HPQ. by apply Hle.
  - exists a. intros i ?. by apply HPQ, Ha.
  - intros b k Hk. apply (Hmax b). intros i ?. by apply HPQ, Hk.
Qed.

Lemma streak_inv_step P prev o st :
  prev < o → streak_inv P prev st →
  streak_inv (λ x, P x ∨ x = o) o
    (if o - prev =? 1 then (st.1, st.2 + 1) else (Z.max st.1 st.2, 1)).
Proof.
  intros Hlt (Hb & Ht & Hr & Hn & Hle & [a Ha] & Hmax).
  assert (∀ b k, (∀ i, 0 ≤ i < k → P (b + i) ∨ b + i = o) →
            (∀ i, 0 ≤ i < k → P (b + i)) ∨ (0 < k ∧ b + (k - 1) = o)) as Hsplit.
  { intros b k Hk. destruct (decide (0 < k ∧ b + (k - 1) = o)) as [|Hno]; [by right|left].
    intros i Hi. destruct (Hk i Hi) as [|Ho]; [done|].
    destruct (Hk (k - 1) ltac:(lia)) as [Hp|?]; [|lia].
    apply Hle in Hp. lia. }
  destruct (Z.eqb_spec (o - prev) 1) as [Heq|Hne]; unfold streak_inv; simpl.
  - split_and!; [lia|lia|..].
    + intros i ?. destruct (decide (i = 0)) as [->|]; [right; lia|left].
      replace (o - i) with (prev - (i - 1)) by lia. apply Hr. lia.
    + intros [Hp|?]; [|lia]. apply Hn. by replace (prev - st.2) with (o - (st.2 + 1)) by lia.
    + intros x [?%Hle| ->]; lia.
    + exists a. intros i ?. left. by apply Ha.
    + intros b k Hk. destruct (Hsplit b k Hk) as [Hp|[? Hend]].
      * specialize (Hmax b k Hp). lia.
      * destruct (decide (k - 1 ≤ st.2)); [lia|]. destruct Hn.
        destruct (Hk (k - 2 - st.2) ltac:(lia)) as [Hp|?]; [|lia].
        by replace (prev - st.2) with (b + (k - 2 - st.2)) by lia.
  - split_and!; [lia|lia|intros i ?; right; lia|..].
    + intros [Hp%Hle|?]; lia.
    + intros x [?%Hle| ->]; lia.
    + destruct (Z.max_spec st.1 st.2) as [[? ->]|[? ->]].
      * exists (prev - st.2 + 1). intros i ?. left.
        replace (prev - st.2 + 1 + i) with (prev - (st.2 - 1 - i)) by lia. apply Hr. lia.
      * exists a. intros i ?. left. by apply Ha.
    + intros b k Hk. destruct (Hsplit b k Hk) as [Hp|[? Hend]].
      * specialize (Hmax b k Hp). lia.
      * destruct (decide (k ≤ 1)); [lia|].
        destruct (Hk (k - 2) ltac:(lia)) as [Hp%Hle|?]; lia.
Qed.

Lemma scan_inv P prev rest st :
  StronglySorted Z.lt (prev :: rest) → streak_inv P prev st →
  ∃ last, streak_inv (λ x, P x ∨ x ∈ rest) last (scan prev rest st).
Proof.
  revert P prev st. induction rest as [|o rest IH]; intros P prev st Hs Hinv.
  - exists prev. eapply streak_inv_ext; [|done]. intros x. split; [by left|].
    by intros [?|?%elem_of_nil].
  - apply StronglySorted_inv in Hs as [Hs Hall].
    pose proof (Forall_inv Hall) as Hlt.
    apply (streak_inv_step _ _ _ _ Hlt) in Hinv. apply (IH _ _ _ Hs) in Hinv as [last Hinv].
    exists last. eapply streak_inv_ext; [|done]. intros x. simpl. rewrite elem_of_cons. tauto.
Qed.

Lemma streak_inv_longest P prev st lo hi :
  (∀ x, P x → lo ≤ x ≤ hi) →
  streak_inv P prev st → longest_run P lo hi (Z.max st.1 st.2).
Proof.
  intros Hrng (Hb & Ht & Hr & Hn & Hle & [a Ha] & Hmax). split.
  - destruct (Z.max_spec st.1 st.2) as [[? ->]|[? ->]].
    + exists (prev - st.2 + 1). split; [lia|]. intros i ?.
      assert (P (prev - st.2 + 1 + i)) as Hp.
      { replace (prev - st.2 + 1 + i) with (prev - (st.2 - 1 - i)) by lia. apply Hr. lia. }
      split; [by apply Hrng|done].
    + exists a. split; [lia|]. intros i ?. split; [apply Hrng|]; by apply Ha.
  - intros b k [? Hk]. apply (Hmax b). intros i ?. by apply Hk.
Qed.

Global Instance date_le_total : Total date_le.
Proof.
  intros a b. unfold date_le, date_leb. rewrite !negb_true_iff.
  destruct (date_ltb b a) eqn:E1; [|by left]. right.
  destruct (date_ltb a b) eqn:E2; [|done].
  apply date_ltb_spec in E1, E2. lia.
Qed.

Global Instance date_le_trans : Transitive date_le.
Proof.
  intros a b c. unfold date_le, date_leb. rewrite !negb_true_iff.
  intros H1 H2. destruct (date_ltb c a) eqn:E; [|done].
  destruct (date_ltb_total b a) as [Hba|[->|Hab]]; [congruence|congruence|].
  destruct (date_ltb_total c b) as [Hcb|[->|Hbc]]; [congruence|congruence|].
  apply date_ltb_spec in E, Hab, Hbc. lia.
Qed.

Lemma NoDup_fmap_inj_on {A B} (f : A → B) (l : list A) x y :
  NoDup (f <$> l) → x ∈ l → y ∈ l → f x = f y → x = y.
Proof.
  induction l as [|z l IH]; [by intros _ ?%elem_of_nil|].
  rewrite fmap_cons, NoDup_cons, !elem_of_cons. intros [Hz Hl] [->|Hx] [->|Hy] Hf; auto.
  - destruct Hz. rewrite Hf. by apply list_elem_of_fmap_2.
  - destruct Hz. rewrite <-Hf. by apply list_elem_of_fmap_2.
Qed.

Lemma NoDup_dates_of s hid : store_wf s → NoDup (dates_of s hid).
Proof.
  intros [_ _ Hidx _]. unfold dates_of, all_comps.
  rewrite merge_sort_Permutation. apply NoDup_fmap_2_strong.
  - intros c1 c2 [[? _] ?]%list_elem_of_filter [[? _] ?]%list_elem_of_filter Hd.
    eapply (NoDup_fmap_inj_on _ _ _ _ Hidx); [done..|]. simpl. congruence.
  - apply NoDup_filter. by eapply NoDup_fmap_1.
Qed.

Lemma sorted_ordinals l :
  Forall (λ d, valid_date d = true) l → NoDup l → StronglySorted date_le l →
  StronglySorted Z.lt (toordinal <$> l).
Proof.
  induction l as [|d l IH]; [constructor|].
  intros [Hd Hl]%Forall_cons [Hnd ?]%NoDup_cons [? Hall]%StronglySorted_inv.
  rewrite fmap_cons. constructor; [by apply IH|].
  apply Forall_fmap, Forall_forall. intros d' Hd'. simpl.
  pose proof (proj1 (Forall_forall _ _) Hl d' Hd') as Hv'.
  pose proof (proj1 (Forall_forall _ _) Hall d' Hd') as Hle.
  apply toordinal_le_iff in Hle; [|done..].
  destruct (decide (toordinal d = toordinal d')) as [Heq|]; [|lia].
  apply toordinal_inj in Heq; [|done..]. by subst.
Qed.

Lemma longest_run_ext P Q lo hi b :
  (∀ x, lo ≤ x ≤ hi → (P x ↔ Q x)) → longest_run P lo hi b → longest_run Q lo hi b.
Proof.
  intros HPQ [[a [? Ha]] Hmax]. split.
  - exists a. split; [done|]. intros i Hi. destruct (Ha i Hi) as [? ?].
    split; [done|]. by apply HPQ.
  - intros a' k [? Hk]. apply (Hmax a'). split; [done|].
    intros i Hi. destruct (Hk i Hi) as [? ?]. split; [done|]. by apply HPQ.
Qed.

Lemma longest_run_unique P lo hi b1 b2 :
  longest_run P lo hi b1 → longest_run P lo hi b2 → b1 = b2.
Proof.
  intros [[a1 H1] M1] [[a2 H2] M2]. apply M2 in H1. apply M1 in H2. lia.
Qed.

Lemma best_streak_of_spec s hid first_day last_day :
  store_wf s → valid_date first_day = true → valid_date last_day = true →
  longest_run (completed_on s hid) (toordinal first_day) (toordinal last_day)
    (best_streak_of first_day last_day (dates_of s hid)).
Proof.
  intros Hwf Hf Hl. unfold best_streak_of.
  set (month_dates := filter _ (dates_of s hid)).
  assert (∀ d, d ∈ month_dates ↔
            done_on s hid d ∧ date_le first_day d ∧ date_le d last_day) as Hmd.
  { intros d. unfold month_dates. rewrite list_elem_of_filter, elem_of_dates_of. tauto. }
  assert (Forall (λ d, valid_date d = true) month_dates) as Hvalid.
  { apply Forall_forall. intros d [Hd _]%Hmd. eapply valid_dates_of; [done|].
    by apply elem_of_dates_of. }
  assert (∀ x, toordinal first_day ≤ x ≤ toordinal last_day →
            (x ∈ toordinal <$> month_dates) ↔ completed_on s hid x) as Hord.
  { intros x Hx. rewrite list_elem_of_fmap. split.
    - intros (d & -> & [? _]%Hmd). by exists d.
    - intros (d & Hd & <-). exists d. split; [done|]. apply Hmd.
      assert (valid_date d = true)
        by (eapply valid_dates_of; [done|]; by apply elem_of_dates_of).
      rewrite !toordinal_le_iff by done. done. }
  assert (∀ x, x ∈ toordinal <$> month_dates →
            toordinal first_day ≤ x ≤ toordinal last_day) as Hrng.
  { intros x (d & -> & (Hd & H1 & H2)%Hmd)%list_elem_of_fmap.
    assert (valid_date d = true)
      by (eapply valid_dates_of; [done|]; by apply elem_of_dates_of).
    apply toordinal_le_iff in H1, H2; done. }
  case_bool_decide as Hne.
  - set (sorted_dates := merge_sort date_le month_dates).
    assert (sorted_dates ≡ₚ month_dates) as Hperm by apply merge_sort_Permutation.
    destruct sorted_dates as [|d0 rest] eqn:Hsd.
    { symmetry in Hperm. by apply Permutation_nil_r in Hperm. }
    assert (StronglySorted Z.lt (toordinal <$> d0 :: rest)) as Hss.
    { rewrite <-Hsd. apply sorted_ordinals.
      - unfold sorted_dates. by rewrite merge_sort_Permutation.
      - unfold sorted_dates. rewrite merge_sort_Permutation.
        apply NoDup_filter. by apply NoDup_dates_of.
      - apply StronglySorted_merge_sort; apply _. }
    replace (length (d0 :: rest) - 1)%nat with (length rest) by (simpl; lia).
    pose proof (foldl_best_step [] d0 rest (0, 1)) as Hfold.
    simpl in Hfold. rewrite Hfold. clear Hfold.
    destruct (scan_inv (λ x, x = toordinal d0) (toordinal d0) (toordinal <$> rest) (0, 1))
      as [last Hinv]; [done| |].
    { unfold streak_inv; simpl. split_and!; try lia.
      - exists 0. intros; lia.
      - intros a k Hk. destruct (decide (k ≤ 1)); [lia|].
        pose proof (Hk 0 ltac:(lia)). pose proof (Hk 1 ltac:(lia)). lia. }
    eapply longest_run_ext; [|eapply streak_inv_longest; [|exact Hinv]].
    + intros x Hx. rewrite <-(Hord x Hx), <-Hperm, fmap_cons, elem_of_cons. done.
    + intros x Hx. apply Hrng. rewrite <-Hperm, fmap_cons, elem_of_cons. done.
  - split.
    + exists 0. split; [done|]. intros; lia.
    + intros a k [? Hk]. destruct (decide (k ≤ 0)); [done|].
      destruct (Hk 0 ltac:(lia)) as [Hx Hp]. apply Hord in Hp; [|done].
      rewrite Hne in Hp. by apply elem_of_nil in Hp.
Qed.

Lemma date_min_le a b : date_le (date_min a b) b.
Proof.
  unfold date_min, date_le, date_leb. destruct (date_ltb b a) eqn:E; [|by rewrite E].
  rewrite negb_true_iff. destruct (date_ltb b b) eqn:E2; [|done].
  apply date_ltb_spec in E2. lia.
Qed.


(** ** Keys of the completion map and the daily statistics *)

Lemma string_app_cons c (a b : string) : String c a +:+ b = String c (a +:+ b).
Proof. done. Qed.

Lemma string_length_app (a b : string) :
  String.length (a +:+ b) = (String.length a + String.length b)%nat.
Proof.
  induction a as [|c a IH]; [done|].
  rewrite string_app_cons. cbn [String.length]. by rewrite IH.
Qed.

Lemma string_app_inj_r (a b t : string) : a +:+ t = b +:+ t → a = b.
Proof.
  revert b. induction a as [|c a IH]; intros [|c' b] Heq; [done|..].
  - apply (f_equal String.length) in Heq. rewrite !string_length_app in Heq.
    cbn in Heq. lia.
  - apply (f_equal String.length) in Heq. rewrite !string_length_app in Heq.
    cbn in Heq. lia.
  - rewrite !string_app_cons in Heq. injection Heq as -> Heq. f_equal. by apply IH.
Qed.

Lemma endswith_length k s :
  endswith k s = true → (String.length s ≤ String.length k)%nat.
Proof.
  induction k as [|c k IH]; cbn [endswith].
  - rewrite orb_false_r, bool_decide_eq_true. by intros <-.
  - rewrite orb_true_iff, bool_decide_eq_true. intros [<-|Hk]; [done|].
    apply IH in Hk. cbn. lia.
Qed.

Lemma endswith_app a b s :
  String.length b = String.length s → endswith (a +:+ b) s = true ↔ b = s.
Proof.
  intros Hlen. induction a as [|c a IH].
  - change ("" +:+ b) with b. destruct b as [|c b]; cbn [endswith].
    + rewrite orb_false_r. apply bool_decide_eq_true.
    + rewrite orb_true_iff, bool_decide_eq_true. split; [|by left].
      intros [?|Hk]; [done|]. apply endswith_length in Hk. cbn in Hlen. lia.
  - rewrite string_app_cons. cbn [endswith].
    rewrite orb_true_iff, bool_decide_eq_true, IH. split; [|by right].
    intros [Heq|?]; [|done]. apply (f_equal String.length) in Heq.
    cbn [String.length] in Heq. rewrite string_length_app in Heq. lia.
Qed.

Lemma digit_inj a b : 0 ≤ a < 10 → 0 ≤ b < 10 → digit a = digit b → a = b.
Proof.
  intros Ha Hb Hd. unfold digit in Hd. apply pretty_N_char_inj in Hd.
  - rewrite !Z.mod_small in Hd by lia. lia.
  - rewrite Z.mod_small by lia. lia.
  - rewrite Z.mod_small by lia. lia.
Qed.

Lemma digit_mod a : digit a = digit (a mod 10).
Proof. unfold digit. by rewrite Z.mod_mod. Qed.

Lemma str_date_length d : String.length (str_date d) = 10%nat.
Proof. done. Qed.

Lemma str_date_day_inj y m j j' :
  0 ≤ j < 100 → 0 ≤ j' < 100 →
  str_date (mkdate y m j) = str_date (mkdate y m j') → j = j'.
Proof.
  intros Hj Hj'. unfold str_date; simpl. intros [= H1 H2].
  apply digit_inj in H1; [|Z.div_mod_to_equations; lia..].
  rewrite (digit_mod j), (digit_mod j') in H2.
  apply digit_inj in H2; [|Z.div_mod_to_equations; lia..].
  Z.div_mod_to_equations; lia.
Qed.

Lemma completion_key_inj hid hid' d : completion_key hid d = completion_key hid' d → hid = hid'.
Proof. unfold completion_key. intros Heq. apply string_app_inj_r in Heq. by apply (inj pretty). Qed.

Lemma endswith_key hid y m j j' :
  0 ≤ j < 100 → 0 ≤ j' < 100 →
  endswith (completion_key hid (mkdate y m j)) (str_date (mkdate y m j')) = true ↔ j = j'.
Proof.
  intros Hj Hj'. unfold completion_key.
  replace (pretty hid +:+ "-" +:+ str_date (mkdate y m j))
    with ((pretty hid +:+ "-") +:+ str_date (mkdate y m j)).
  - rewrite endswith_app by done. split; [by apply str_date_day_inj|by intros ->].
  - generalize (pretty hid). intros a. induction a as [|c a IH]; [done|].
    rewrite !string_app_cons. by rewrite IH.
Qed.

Lemma in_month_inv y m dim d :
  date_le (mkdate y m 1) d → date_le d (mkdate y m dim) →
  d = mkdate y m (day d) ∧ 1 ≤ day d ≤ dim.
Proof.
  unfold date_le, date_leb. rewrite !negb_true_iff. intros H1 H2.
  destruct (date_ltb d (mkdate y m 1)) eqn:E1; [done|].
  destruct (date_ltb (mkdate y m dim) d) eqn:E2; [done|].
  destruct d as [yd md dd].
  assert (¬ date_ltb (mkdate yd md dd) (mkdate y m 1) = true) as N1 by congruence.
  assert (¬ date_ltb (mkdate y m dim) (mkdate yd md dd) = true) as N2 by congruence.
  rewrite date_ltb_spec in N1, N2. simpl in *.
  assert (yd = y) as -> by lia. assert (md = m) as -> by lia. split; [done|lia].
Qed.

Lemma in_month_intro y m dim j :
  1 ≤ j ≤ dim →
  date_le (mkdate y m 1) (mkdate y m j) ∧ date_le (mkdate y m j) (mkdate y m dim).
Proof.
  intros Hj. unfold date_le, date_leb. rewrite !negb_true_iff.
  split.
  - destruct (date_ltb (mkdate y m j) (mkdate y m 1)) eqn:E; [|done].
    apply date_ltb_spec in E. simpl in E. lia.
  - destruct (date_ltb (mkdate y m dim) (mkdate y m j)) eqn:E; [|done].
    apply date_ltb_spec in E. simpl in E. lia.
Qed.

(** *** The keys of the completion map *)

Lemma lookup_foldl_insert_true {A} (f : A → string) (l : list A)
    (d : gmap string bool) k v :
  foldl (λ d x, <[f x := true]> d) d l !! k = Some v ↔
  (v = true ∧ k ∈ (f <$> l)) ∨ ((k ∉ (f <$> l)) ∧ d !! k = Some v).
Proof.
  revert d. induction l as [|x l IH]; intros d; simpl.
  - rewrite elem_of_nil. tauto.
  - rewrite IH, elem_of_cons.
    destruct (decide (k = f x)) as [->|Hne].
    + rewrite lookup_insert_eq. destruct (decide (f x ∈ f <$> l)); split;
        intros [[-> ?]|[? ?]]; simplify_eq; tauto.
    + rewrite lookup_insert_ne by done. tauto.
Qed.

Lemma foldl_pure_keys s first_day last_day hs d :
  foldl (pure_keys s first_day last_day) d hs
  = foldl (λ d p, <[completion_key p.1 p.2 := true]> d) d
      (month_pairs s first_day last_day hs).
Proof.
  revert d. induction hs as [|h hs IH]; intros d; [done|].
  unfold month_pairs. cbn [foldl mbind list_bind]. rewrite foldl_app, IH.
  f_equal. unfold pure_keys, add_keys. by rewrite foldl_fmap.
Qed.

Lemma elem_of_month_pairs s first_day last_day hs hid d :
  (hid, d) ∈ month_pairs s first_day last_day hs ↔
  hid ∈ Habit.id <$> hs ∧ done_on s hid d
  ∧ date_le first_day d ∧ date_le d last_day.
Proof.
  unfold month_pairs, month_comps, done_on. rewrite list_elem_of_bind.
  setoid_rewrite list_elem_of_fmap. setoid_rewrite list_elem_of_filter. split.
  - intros (h & (c & [= -> ->] & (? & ? & ? & ?) & ?) & ?).
    split; [eauto|]. split; [eauto 10|done].
  - intros ((h & -> & ?) & (c & ? & ? & <- & ?) & ? & ?). exists h. eauto 10.
Qed.

Lemma completions_lookup s first_day last_day hs k v :
  foldl (pure_keys s first_day last_day) ∅ hs !! k = Some v ↔
  v = true ∧ ∃ hid d, k = completion_key hid d ∧ hid ∈ Habit.id <$> hs
    ∧ done_on s hid d ∧ date_le first_day d ∧ date_le d last_day.
Proof.
  rewrite foldl_pure_keys, lookup_foldl_insert_true, lookup_empty, list_elem_of_fmap.
  split.
  - intros [(-> & [hid d] & -> & Hp%elem_of_month_pairs)|[_ ?]]; [|done].
    split; [done|]. exists hid, d. done.
  - intros (-> & hid & d & -> & Hp). left. split; [done|]. exists (hid, d).
    split; [done|]. by apply elem_of_month_pairs.
Qed.

Lemma day_completions_spec s y m j :
  NoDup (Habit.id <$> habit_table s) →
  1 ≤ j ≤ days_in_month y m →
  day_completions
    (foldl (pure_keys s (mkdate y m 1) (mkdate y m (days_in_month y m))) ∅
       (habit_table s))
    (mkdate y m j)
  = habits_done s (mkdate y m j).
Proof.
  intros Hnd Hj. unfold day_completions, habits_done. f_equal.
  set (dict := foldl _ _ _). set (cur := mkdate y m j).
  set (fl := filter _ (map_to_list dict)).
  set (hs := filter _ (habit_table s)).
  pose proof (days_in_month_bounds y m) as Hdim.
  rewrite <-(length_fmap fst fl), <-(length_fmap (λ h, completion_key (Habit.id h) cur) hs).
  apply Permutation_length, NoDup_Permutation.
  - eapply sublist_NoDup; [apply (NoDup_fst_map_to_list dict)|].
    apply fmap_sublist, sublist_filter.
  - apply NoDup_fmap_2_strong.
    + intros h1 h2 [_ ?]%list_elem_of_filter [_ ?]%list_elem_of_filter Hk.
      apply completion_key_inj in Hk. by eapply (NoDup_fmap_inj_on Habit.id).
    + apply NoDup_filter. by eapply NoDup_fmap_1.
  - intros k. rewrite !list_elem_of_fmap. split.
    + intros ([k' v] & -> & [[Hv He] Hin%elem_of_map_to_list]%list_elem_of_filter).
      simpl in *. subst v.
      apply completions_lookup in Hin as (_ & hid & d & -> & (h & -> & Hh)%list_elem_of_fmap & Hd & H1 & H2).
      destruct (in_month_inv _ _ _ _ H1 H2) as [Heq ?]. rewrite Heq in He, Hd |- *.
      apply endswith_key in He; [|lia..]. rewrite He in *.
      exists h. split; [done|]. by apply list_elem_of_filter.
    + intros (h & -> & [Hd Hh]%list_elem_of_filter).
      exists (completion_key (Habit.id h) cur, true). split; [done|].
      apply list_elem_of_filter. split.
      * split; [done|]. simpl. apply endswith_key; lia.
      * apply elem_of_map_to_list, completions_lookup. split; [done|].
        exists (Habit.id h), cur. split; [done|]. split; [by apply list_elem_of_fmap_2|].
        split; [done|]. by apply in_month_intro.
Qed.

Lemma date_succ_in_month y m k :
  k < days_in_month y m → date_succ (mkdate y m k) = Ret (mkdate y m (k + 1)).
Proof. intros Hk. unfold date_succ; simpl. by rewrite (proj2 (Z.ltb_lt _ _) Hk). Qed.

Lemma date_succ_last y m nxt :
  date_succ (mkdate y m (days_in_month y m)) = Ret nxt →
  date_leb nxt (mkdate y m (days_in_month y m)) = false.
Proof.
  unfold date_succ; simpl. rewrite Z.ltb_irrefl.
  unfold date_leb. rewrite negb_false_iff, date_ltb_spec.
  repeat case_match; intros [= <-]; simpl; lia.
Qed.

Lemma while_unfold {S} fuel (cond : S → bool) body s :
  while (Datatypes.S fuel) cond body s
  = if cond s then body s ≫= while fuel cond body else Ret s.
Proof. done. Qed.

Section Stats.
Context `{PyFloat F}.

Lemma stats_body_unfold hs dict acc y m k :
  stats_body hs dict (acc, mkdate y m k)
  = nxt ← date_succ (mkdate y m k); Ret (acc ++ [day_entry hs dict y m k], nxt).
Proof. done. Qed.

Lemma stats_loop y m hs dict n : ∀ fuel k acc,
  1 ≤ k ≤ days_in_month y m → n = Z.to_nat (days_in_month y m - k) →
  (n + 2 ≤ fuel)%nat →
  while fuel (stats_cond (mkdate y m (days_in_month y m))) (stats_body hs dict)
    (acc, mkdate y m k)
  = nxt ← date_succ (mkdate y m (days_in_month y m));
    Ret (acc ++ (day_entry hs dict y m <$> seqZ k (days_in_month y m - k + 1)), nxt).
Proof.
  induction n as [|n IH]; intros fuel k acc Hk Hn Hfuel.
  - assert (k = days_in_month y m) as -> by lia.
    destruct fuel as [|[|fuel]]; [lia..|]. rewrite while_unfold.
    unfold stats_cond at 1. cbn [snd].
    destruct (in_month_intro y m (days_in_month y m) (days_in_month y m) Hk) as [_ ->].
    rewrite stats_body_unfold.
    destruct (date_succ (mkdate y m (days_in_month y m))) as [nxt| |] eqn:Hs; [|done..].
    cbn. unfold stats_cond. cbn [snd]. rewrite (date_succ_last _ _ _ Hs).
    rewrite Z.sub_diag. done.
  - destruct fuel as [|fuel]; [lia|]. rewrite while_unfold.
    unfold stats_cond at 1. cbn [snd].
    destruct (in_month_intro y m (days_in_month y m) k Hk) as [_ ->].
    rewrite stats_body_unfold.
    rewrite date_succ_in_month by lia. cbn [mbind res_bind].
    rewrite (IH fuel (k + 1)) by lia.
    destruct (date_succ (mkdate y m (days_in_month y m))); [|done..]. cbn.
    rewrite <-app_assoc. do 3 f_equal.
    rewrite (seqZ_cons k) by lia. cbn. repeat f_equal; lia.
Qed.

Lemma get_habits_stats today y m s (resp : Summary.t F) :
  get_habits today y m s = Ret resp →
  let dict := foldl (pure_keys s (mkdate y m 1) (mkdate y m (days_in_month y m)))
                ∅ (habit_table s) in
  Summary.completions resp = dict
  ∧ Summary.daily_stats resp
    = (day_entry (habit_table s) dict y m <$> seqZ 1 (days_in_month y m)).
Proof.
  intros (Hf & Hl & st & ds & Hst & Hds & ->)%get_habits_Ret. simpl.
  apply for_each_habits in Hst as [Hk _]. simpl in Hk. rewrite Hk in *.
  split; [done|].
  pose proof (days_in_month_bounds y m).
  rewrite (stats_loop y m _ _ (Z.to_nat (days_in_month y m - 1))) in Hds;
    [|lia|done|unfold month_fuel; simpl; lia].
  apply bind_Ret in Hds as (nxt & _ & [= <-]). simpl.
  do 2 f_equal. lia.
Qed.
End Stats.

(** ** When the month summary is returned *)

Lemma date_pred_Ret d :
  valid_date d = true → 1 < toordinal d → ∃ d', date_pred d = Ret d'.
Proof.
  rewrite valid_date_spec. intros (? & ? & ?) Hord. unfold date_pred, MINYEAR.
  repeat case_match; eauto.
  assert (year d = 1 ∧ month d = 1 ∧ day d = 1) as (Hy & Hm & Hd) by lia.
  unfold toordinal in Hord. rewrite Hy, Hm, Hd in Hord. vm_compute in Hord. done.
Qed.

Lemma toordinal_min d : valid_date d = true → 1 ≤ toordinal d.
Proof.
  intros Hv. destruct (decide (d = mkdate 1 1 1)) as [->|Hne]; [done|].
  assert (date_ltb (mkdate 1 1 1) d = true) as Hlt.
  { destruct (date_ltb_total (mkdate 1 1 1) d) as [|[?|Hlt]]; [done|done|].
    apply valid_date_spec in Hv. apply date_ltb_spec in Hlt. simpl in Hlt. lia. }
  apply toordinal_lt in Hlt; [|done..]. change (toordinal (mkdate 1 1 1)) with 1 in Hlt. lia.
Qed.

Lemma streak_body_unfold st :
  streak_body st = d ← date_pred st.2; Ret (st.1 + 1, d).
Proof. done. Qed.

Lemma streak_walk_returns first_day dates fuel st :
  valid_date first_day = true → valid_date st.2 = true →
  (1 ≤ fuel)%nat → toordinal st.2 - toordinal first_day + 2 ≤ Z.of_nat fuel →
  while fuel (streak_cond first_day dates) streak_body st ≠ OutOfFuel
  ∧ (1 < toordinal first_day →
     ∃ st', while fuel (streak_cond first_day dates) streak_body st = Ret st').
Proof.
  intros Hf. revert st. induction fuel as [|fuel IH]; intros st Hv H1 Hfuel; [lia|].
  rewrite while_unfold. destruct (streak_cond first_day dates st) eqn:Hc; [|by eauto].
  unfold streak_cond in Hc. apply andb_true_iff in Hc as [Hle _].
  apply toordinal_le_iff in Hle; [|done..].
  rewrite (streak_body_unfold st).
  destruct (date_pred st.2) as [d'| |] eqn:Hp.
  - apply date_pred_spec in Hp as [Hv' Ho]; [|done]. cbn [mbind res_bind].
    apply IH; cbn [fst snd]; [done|lia|lia].
  - split; [done|]. intros H1f.
    destruct (date_pred_Ret st.2 Hv ltac:(lia)) as [? ?]. congruence.
  - unfold date_pred in Hp. by repeat case_match.
Qed.

Lemma current_streak_of_returns today first_day last_day dates :
  valid_date today = true → valid_date first_day = true → valid_date last_day = true →
  toordinal last_day - toordinal first_day + 1 ≤ day last_day →
  current_streak_of today first_day last_day dates ≠ OutOfFuel
  ∧ (1 < toordinal first_day →
     ∃ k, current_streak_of today first_day last_day dates = Ret k).
Proof.
  intros Ht Hf Hl Hlen. unfold current_streak_of.
  pose proof (date_min_le today last_day) as Hle.
  apply toordinal_le_iff in Hle; [|by apply date_min_valid|done].
  destruct (streak_walk_returns first_day dates (month_fuel last_day) (0, date_min today last_day))
    as [Hno Hret]; [done|by apply date_min_valid|unfold month_fuel; lia| |].
  { unfold month_fuel. cbn [snd]. lia. }
  split.
  - by destruct (while _ _ _ _).
  - intros [st' ->]%Hret. cbn. eauto.
Qed.

Lemma for_each_unfold {A S} (body : S → A → res S) s x l :
  for_each body s (x :: l) = s' ← body s x; for_each body s' l.
Proof. done. Qed.

Lemma habit_body_unfold s today first_day last_day st h :
  habit_body s today first_day last_day st h
  = streak ← current_streak_of today first_day last_day (dates_of s (Habit.id h));
    Ret (add_keys (Habit.id h) st.1
           (month_comps s (Habit.id h) first_day last_day),
         <[Habit.id h :=
             mk_streaks streak
               (best_streak_of first_day last_day (dates_of s (Habit.id h)))]>
           st.2).
Proof. done. Qed.

Lemma for_each_habits_returns s today first_day last_day hs st0 :
  (∀ hid, ∃ k, current_streak_of today first_day last_day (dates_of s hid) = Ret k) →
  ∃ st, for_each (habit_body s today first_day last_day) st0 hs = Ret st.
Proof.
  intros Hk. revert st0. induction hs as [|h hs IH]; intros st0; [by eexists|].
  rewrite for_each_unfold, habit_body_unfold.
  destruct (Hk (Habit.id h)) as [k ->]. cbn [mbind res_bind]. apply IH.
Qed.

Lemma month_span y m :
  toordinal (mkdate y m (days_in_month y m)) - toordinal (mkdate y m 1) + 1
  = days_in_month y m.
Proof. unfold toordinal; simpl. lia. Qed.

Lemma valid_first_last y m :
  valid_month y m = true →
  valid_date (mkdate y m 1) = true ∧ valid_date (mkdate y m (days_in_month y m)) = true.
Proof.
  intros Hm. pose proof (days_in_month_bounds y m).
  unfold valid_month, MINYEAR, MAXYEAR in Hm.
  rewrite !andb_true_iff, !Z.leb_le in Hm.
  split; apply valid_date_spec; simpl; lia.
Qed.

Section Total.
Context `{PyFloat F}.

Lemma get_habits_returns today y m s :
  valid_date today = true → valid_month y m = true →
  (y, m) ≠ (1, 1) → (y, m) ≠ (9999, 12) →
  ∃ resp : Summary.t F, get_habits today y m s = Ret resp.
Proof.
  intros Ht Hm H1 H9. destruct (valid_first_last y m Hm) as [Hf Hl].
  unfold get_habits.
  rewrite (datetime_date_valid _ _ _ Hf), (datetime_date_valid _ _ _ Hl).
  cbn [mbind res_bind].
  assert (1 < toordinal (mkdate y m 1)) as Hord.
  { assert (date_ltb (mkdate 1 1 1) (mkdate y m 1) = true) as Hlt.
    { apply date_ltb_spec. simpl. apply valid_date_spec in Hf. simpl in Hf.
      destruct (decide (y = 1)); [|lia]. destruct (decide (m = 1)); [|lia]. congruence. }
    apply toordinal_lt in Hlt; [|done..]. change (toordinal (mkdate 1 1 1)) with 1 in Hlt. lia. }
  destruct (for_each_habits_returns s today (mkdate y m 1)
              (mkdate y m (days_in_month y m)) (habit_table s) (∅, ∅)) as [st ->].
  { intros hid. apply current_streak_of_returns; try done. rewrite month_span. simpl. lia. }
  cbn [mbind res_bind]. pose proof (days_in_month_bounds y m).
  rewrite (stats_loop y m _ _ (Z.to_nat (days_in_month y m - 1)));
    [|lia|done|unfold month_fuel; simpl; lia].
  assert (∃ nxt, date_succ (mkdate y m (days_in_month y m)) = Ret nxt) as [nxt ->].
  { unfold date_succ, MAXYEAR; simpl. rewrite Z.ltb_irrefl.
    apply valid_date_spec in Hf. simpl in Hf.
    repeat case_match; eauto. assert (y = 9999 ∧ m = 12) as [-> ->] by lia. done. }
  cbn. eauto.
Qed.

Lemma get_habits_invalid_month today y m s :
  valid_month y m = false →
  get_habits (F:=F) today y m s
  = Raise (if fits_c_int y && fits_c_int m then ValueError else OverflowError).
Proof.
  intros Hm. unfold get_habits, datetime_date, valid_date.
  cbn [year month day]. rewrite Hm. change (fits_c_int 1) with true.
  rewrite andb_true_r. by destruct (fits_c_int y && fits_c_int m).
Qed.

Lemma get_habits_december_9999 today s :
  valid_date today = true →
  get_habits (F:=F) today 9999 12 s = Raise OverflowError.
Proof.
  intros Ht. unfold get_habits.
  rewrite (datetime_date_valid 9999 12 1) by reflexivity.
  rewrite (datetime_date_valid 9999 12 (days_in_month 9999 12)) by reflexivity.
  cbn [mbind res_bind].
  destruct (for_each_habits_returns s today (mkdate 9999 12 1)
              (mkdate 9999 12 (days_in_month 9999 12)) (habit_table s) (∅, ∅)) as [st ->].
  { intros hid. apply current_streak_of_returns; done. }
  cbn [mbind res_bind].
  rewrite (stats_loop 9999 12 _ _ 30); [done|..];
    change (days_in_month 9999 12) with 31; unfold month_fuel; simpl; lia.
Qed.

(** C3.  For every day [j] of the target month, the entry of [daily_stats]
    for that day carries the percentage of the specification: the number of
    habits that have a completion on that day over the number of habits,
    times 100, rounded to one decimal, with the float operations of the
    interpreter.  Without habits it is the int 0 and the completion map is
    empty. *)
Theorem daily_percentage_spec today y m s (resp : Summary.t F) j :
  store_wf s → get_habits today y m s = Ret resp →
  1 ≤ j ≤ days_in_month y m →
  Summary.daily_stats resp !! Z.to_nat (j - 1)
    = Some (DayStat.mk j (spec_percentage s (mkdate y m j)))
  ∧ (habit_table s = [] →
     Summary.completions resp = ∅ ∧ spec_percentage s (mkdate y m j) = PyInt 0).
Proof.
  intros Hwf Hg Hj. apply get_habits_stats in Hg as [Hc Hd]. split.
  - rewrite Hd, list_lookup_fmap, lookup_seqZ_lt by lia. cbn.
    replace (1 + Z.of_nat (Z.to_nat (j - 1))) with j by lia.
    unfold day_entry. do 2 f_equal.
    rewrite day_completions_spec; [|apply Hwf|done].
    unfold percentage_of, spec_percentage. by destruct (habit_table s).
  - intros Hnil. rewrite Hc. unfold spec_percentage. by rewrite Hnil.
Qed.

(** C10.  The days of [daily_stats] are 1, 2, .., the last day of the target
    month, each once and in this order, whatever the habits and the
    completions are. *)
Theorem daily_stats_one_entry_per_day today y m s (resp : Summary.t F) :
  get_habits today y m s = Ret resp →
  DayStat.day <$> Summary.daily_stats resp = seqZ 1 (days_in_month y m).
Proof.
  intros [_ ->]%get_habits_stats. rewrite <-list_fmap_compose.
  by rewrite list_fmap_id.
Qed.
End Total.

(** ** Completions outside the month are not read *)

Global Instance date_le_antisymm : AntiSymm (=) date_le.
Proof.
  intros a b. unfold date_le, date_leb. rewrite !negb_true_iff. intros H1 H2.
  destruct (date_ltb_total a b) as [?|[?|?]]; congruence.
Qed.

Lemma date_pred_le d d' : date_pred d = Ret d' → date_le d' d.
Proof.
  unfold date_pred, MINYEAR, date_le, date_leb. rewrite negb_true_iff.
  intros Hp. destruct (date_ltb d d') eqn:E; [|done]. apply date_ltb_spec in E.
  repeat case_match; simplify_eq; simpl in *; lia.
Qed.

Lemma streak_walk_ext first_day last_day dates1 dates2 fuel st :
  (∀ d, date_le first_day d → date_le d last_day → (d ∈ dates1 ↔ d ∈ dates2)) →
  date_le st.2 last_day →
  while fuel (streak_cond first_day dates1) streak_body st
  = while fuel (streak_cond first_day dates2) streak_body st.
Proof.
  intros Hag. revert st. induction fuel as [|fuel IH]; intros st Hle; [done|].
  rewrite !while_unfold.
  assert (streak_cond first_day dates1 st = streak_cond first_day dates2 st) as ->.
  { unfold streak_cond. destruct (date_leb first_day st.2) eqn:E; [|done]. simpl.
    apply bool_decide_ext. by apply Hag. }
  destruct (streak_cond first_day dates2 st); [|done].
  rewrite streak_body_unfold. destruct (date_pred st.2) as [d'| |] eqn:Hp; [|done..].
  cbn [mbind res_bind]. apply IH. cbn [snd].
  etrans; [by apply date_pred_le|done].
Qed.

Lemma best_streak_of_ext first_day last_day dates1 dates2 :
  NoDup dates1 → NoDup dates2 →
  (∀ d, date_le first_day d → date_le d last_day → (d ∈ dates1 ↔ d ∈ dates2)) →
  best_streak_of first_day last_day dates1 = best_streak_of first_day last_day dates2.
Proof.
  intros Hn1 Hn2 Hag. unfold best_streak_of.
  set (P := λ d, date_le first_day d ∧ date_le d last_day).
  assert (filter P dates1 ≡ₚ filter P dates2) as Hperm.
  { apply NoDup_Permutation; [by apply NoDup_filter..|].
    intros d. rewrite !list_elem_of_filter. unfold P. split; intros [[? ?] ?];
      (split; [done|]); by apply (Hag d). }
  assert (merge_sort date_le (filter P dates1) = merge_sort date_le (filter P dates2)) as ->.
  { apply (Sorted_unique date_le); [apply Sorted_merge_sort, _..|].
    by rewrite !merge_sort_Permutation. }
  assert (bool_decide (filter P dates1 ≠ []) = bool_decide (filter P dates2 ≠ [])) as ->; [|done].
  apply bool_decide_ext. split; intros Hne Hnil; apply Hne.
  - rewrite Hnil in Hperm. by apply Permutation_nil_r in Hperm.
  - rewrite Hnil in Hperm. symmetry in Hperm. by apply Permutation_nil_r in Hperm.
Qed.

Lemma add_keys_ext hid dict comps1 comps2 :
  (∀ d, d ∈ Completion.date <$> comps1 ↔ d ∈ Completion.date <$> comps2) →
  add_keys hid dict comps1 = add_keys hid dict comps2.
Proof.
  intros Hag. apply map_eq. intros k. apply option_eq. intros v. unfold add_keys.
  rewrite !(lookup_foldl_insert_true (λ c, completion_key hid (Completion.date c))).
  assert (k ∈ (λ c, completion_key hid (Completion.date c)) <$> comps1
          ↔ k ∈ (λ c, completion_key hid (Completion.date c)) <$> comps2) as Hk.
  { rewrite !(list_fmap_compose Completion.date (completion_key hid)).
    rewrite !(list_elem_of_fmap (completion_key hid)). by setoid_rewrite Hag. }
  by rewrite Hk.
Qed.

Lemma elem_of_month_comps_dates s hid first_day last_day d :
  d ∈ Completion.date <$> month_comps s hid first_day last_day ↔
  done_on s hid d ∧ date_le first_day d ∧ date_le d last_day.
Proof.
  unfold month_comps, done_on. rewrite list_elem_of_fmap.
  setoid_rewrite list_elem_of_filter. split.
  - intros (c & -> & (? & ? & ? & ?) & ?). eauto 10.
  - intros ((c & ? & ? & <- & ?) & ? & ?). eauto 10.
Qed.

Lemma habit_body_ext s1 s2 today first_day last_day st h :
  store_wf s1 → store_wf s2 → agree_in_month s1 s2 first_day last_day →
  habit_body s1 today first_day last_day st h
  = habit_body s2 today first_day last_day st h.
Proof.
  intros Hw1 Hw2 Hag. rewrite !habit_body_unfold.
  assert (∀ d, date_le first_day d → date_le d last_day →
            (d ∈ dates_of s1 (Habit.id h) ↔ d ∈ dates_of s2 (Habit.id h))) as Hd.
  { intros d ??. rewrite !elem_of_dates_of. by apply Hag. }
  assert (current_streak_of today first_day last_day (dates_of s1 (Habit.id h))
          = current_streak_of today first_day last_day (dates_of s2 (Habit.id h))) as ->.
  { unfold current_streak_of.
    rewrite (streak_walk_ext first_day last_day _ _ _ (0, date_min today last_day) Hd);
      [done|apply date_min_le]. }
  rewrite (best_streak_of_ext first_day last_day _ _
             (NoDup_dates_of _ _ Hw1) (NoDup_dates_of _ _ Hw2) Hd).
  rewrite (add_keys_ext _ _ (month_comps s1 (Habit.id h) first_day last_day)
             (month_comps s2 (Habit.id h) first_day last_day)); [done|].
  intros d. rewrite !elem_of_month_comps_dates. split; intros (? & ? & ?);
    (split; [by apply (Hag _ d)|done]).
Qed.

Lemma for_each_ext {A S} (f g : S → A → res S) l s :
  (∀ s x, x ∈ l → f s x = g s x) → for_each f s l = for_each g s l.
Proof.
  revert s. induction l as [|x l IH]; intros s Hfg; [done|].
  rewrite !for_each_unfold, Hfg by left.
  destruct (g s x); [|done..]. cbn [mbind res_bind]. apply IH.
  intros ???. apply Hfg. by right.
Qed.

Section NI.
Context `{PyFloat F}.

(** C5.  The streaks do not read the completions of other months: two
    stores with the same habits whose completions agree on every date of
    the target month get the same answer, so the same current streak and
    the same best streak for every habit. *)
Theorem streaks_ignore_other_months today y m s1 s2 :
  store_wf s1 → store_wf s2 → habit_table s1 = habit_table s2 →
  agree_in_month s1 s2 (mkdate y m 1) (mkdate y m (days_in_month y m)) →
  get_habits (F:=F) today y m s1 = get_habits today y m s2.
Proof.
  intros Hw1 Hw2 Hh Hag. unfold get_habits. rewrite Hh.
  destruct (datetime_date y m 1) as [fd| |] eqn:Hfd; [|done..].
  apply datetime_date_Ret in Hfd as [-> _]. cbn [mbind res_bind].
  destruct (datetime_date y m (days_in_month y m)) as [ld| |] eqn:Hld; [|done..].
  apply datetime_date_Ret in Hld as [-> _]. cbn [mbind res_bind].
  rewrite (for_each_ext
             (habit_body s1 today (mkdate y m 1) (mkdate y m (days_in_month y m)))
             (habit_body s2 today (mkdate y m 1) (mkdate y m (days_in_month y m))));
    [done|].
  intros st h _. by apply habit_body_ext.
Qed.
End NI.

(** ** The mutating handlers *)

Lemma foldr_max_ge (x : Z) l i : i ∈ x :: l → i ≤ foldr Z.max x l.
Proof.
  induction l as [|y l IH]; simpl.
  - intros ->%list_elem_of_singleton. lia.
  - rewrite !elem_of_cons. intros [->|[->|Hi]].
    + pose proof (IH ltac:(left)). lia.
    + lia.
    + pose proof (IH ltac:(by right)). lia.
Qed.

Lemma next_id_fresh ids i : i ∈ ids → i < next_id ids.
Proof.
  destruct ids as [|x l]; [by intros ?%elem_of_nil|].
  intros Hi%foldr_max_ge. unfold next_id. lia.
Qed.

Lemma get_or_404_Ret s hid :
  hid ∈ Habit.id <$> habit_table s →
  ∃ h, get_or_404 s hid = Ret h ∧ h ∈ habit_table s ∧ Habit.id h = hid.
Proof.
  intros (h & -> & Hh)%list_elem_of_fmap. unfold get_or_404.
  destruct (list_find _ _) as [[i h']|] eqn:Hf.
  - apply list_find_Some in Hf as (Hl%list_elem_of_lookup_2 & ? & _). eauto.
  - apply list_find_None in Hf. by destruct (proj1 (Forall_forall _ _) Hf h Hh).
Qed.

Lemma get_or_404_Raise s hid :
  hid ∉ Habit.id <$> habit_table s → get_or_404 s hid = Raise NotFound.
Proof.
  intros Hn. unfold get_or_404.
  destruct (list_find _ _) as [[i h']|] eqn:Hf; [|done].
  apply list_find_Some in Hf as (Hl%list_elem_of_lookup_2 & <- & _).
  destruct Hn. by apply list_elem_of_fmap_2.
Qed.

Lemma filter_all {A} (P : A → Prop) `{∀ x, Decision (P x)} (l : list A) :
  Forall P l → filter P l = l.
Proof.
  induction 1 as [|x l ? ? IH]; [done|]. by rewrite filter_cons_True, IH.
Qed.

Lemma perm_remove {A B} `{EqDecision B} (f : A → B) (l : list A) x :
  NoDup (f <$> l) → x ∈ l → l ≡ₚ x :: filter (λ y, f y ≠ f x) l.
Proof.
  induction l as [|z l IH]; [by intros _ ?%elem_of_nil|].
  rewrite fmap_cons, NoDup_cons, elem_of_cons. intros [Hz Hnd] [->|Hx].
  - rewrite filter_cons_False by (by intros ?). rewrite filter_all; [done|].
    apply Forall_forall. intros y Hy Heq. destruct Hz. rewrite <-Heq.
    by apply list_elem_of_fmap_2.
  - rewrite filter_cons_True.
    + rewrite (IH Hnd Hx) at 1. apply Permutation_swap.
    + intros Heq. destruct Hz. rewrite Heq. by apply list_elem_of_fmap_2.
Qed.

Lemma find_completion_Some s hid d c :
  find_completion s hid d = Some c →
  c ∈ completion_table s ∧ Completion.habit_id c = hid ∧ Completion.date c = d.
Proof.
  unfold find_completion. intros ([i c'] & Hf & ->)%fmap_Some.
  apply list_find_Some in Hf as (?%list_elem_of_lookup_2 & [? ?] & _). done.
Qed.

Lemma find_completion_None s hid d :
  find_completion s hid d = None ↔
  ∀ c, c ∈ completion_table s →
       ¬ (Completion.habit_id c = hid ∧ Completion.date c = d).
Proof.
  unfold find_completion. rewrite fmap_None, list_find_None, Forall_forall. done.
Qed.

(** [strip] removes the white space at the two ends, and nothing else. *)
Lemma lstrip_spaces t :
  ∃ k, t = k ++ lstrip t ∧ Forall (λ c, is_space c = true) k.
Proof.
  induction t as [|c t (k & IH & Hk)]; [by exists []|]. simpl.
  destruct (is_space c) eqn:E; [|by exists []].
  exists (c :: k). split; [by rewrite IH at 1|by constructor].
Qed.

Lemma lstrip_head t c : head (lstrip t) = Some c → is_space c = false.
Proof.
  induction t as [|x t IH]; [done|]. simpl.
  destruct (is_space x) eqn:E; [done|]. simpl. by intros [= <-].
Qed.

Lemma lstrip_app_spaces k l :
  Forall (λ c, is_space c = true) k → lstrip (k ++ l) = lstrip l.
Proof. induction 1 as [|c k Hc _ IH]; [done|]. simpl. by rewrite Hc. Qed.

Lemma lstrip_id l :
  (∀ c, head l = Some c → is_space c = false) → lstrip l = l.
Proof. destruct l as [|c l]; [done|]. intros Hh. simpl. by rewrite (Hh c eq_refl). Qed.

Lemma strip_trimmed t : trimmed (strip t).
Proof.
  unfold strip. split; intros c Hc.
  - destruct (lstrip_spaces (reverse (lstrip t))) as (k & Hk & _).
    apply (f_equal reverse) in Hk. rewrite reverse_involutive, reverse_app in Hk.
    apply (lstrip_head t). rewrite Hk.
    destruct (reverse (lstrip (reverse (lstrip t)))); [done|]. done.
  - rewrite last_reverse in Hc. by apply lstrip_head in Hc.
Qed.

Lemma strip_stripped_of t : stripped_of t (strip t).
Proof.
  destruct (lstrip_spaces t) as (pre & Ht & Hpre).
  destruct (lstrip_spaces (reverse (lstrip t))) as (k & Hk & Hks).
  exists pre, (reverse k). split; [|split; [done|split]].
  - apply (f_equal reverse) in Hk. rewrite reverse_involutive, reverse_app in Hk.
    unfold strip. by rewrite <-Hk.
  - by apply Forall_reverse.
  - apply strip_trimmed.
Qed.

Lemma stripped_of_strip t t' : stripped_of t t' → t' = strip t.
Proof.
  intros (pre & post & -> & Hpre & Hpost & Hh & Hl). unfold strip.
  rewrite lstrip_app_spaces by done. destruct t' as [|c t'].
  - rewrite app_nil_l, <-(app_nil_r post), lstrip_app_spaces by done. done.
  - rewrite (lstrip_id ((c :: t') ++ post)) by (intros c' [= <-]; by apply Hh).
    rewrite reverse_app, lstrip_app_spaces by (by apply Forall_reverse).
    rewrite lstrip_id; [by rewrite reverse_involutive|].
    intros c' Hc'. apply Hl. by rewrite <-head_reverse.
Qed.

Lemma take_head {A} (l : list A) n c : head (take n l) = Some c → head l = Some c.
Proof. destruct l, n; naive_solver. Qed.

Section HandlerProps.
Context `{PyValue V}.

Lemma toggle_completion_ok s (m : gmap string V) vh vd hid d :
  m !! "habit_id" = Some vh → m !! "date" = Some vd →
  py_int vh = Ret hid → py_strptime_date vd = Ret d →
  hid ∈ Habit.id <$> habit_table s →
  toggle_completion s (Some m)
  = (match find_completion s hid d with
     | Some completion => delete_completion_row s completion
     | None => add_completion_row s hid d
     end, mk_response 200 SuccessBody).
Proof.
  intros Hh Hd Hi Hp Hex. unfold toggle_completion, toggle_try, falsy, has_key.
  rewrite bool_decide_eq_false_2 by (intros ->; by rewrite lookup_empty in Hh).
  rewrite !bool_decide_eq_true_2 by (rewrite ?Hh, ?Hd; eauto). simpl.
  rewrite Hh, Hd, Hi. cbn [mbind res_bind]. rewrite Hp. cbn [mbind res_bind].
  destruct (get_or_404_Ret s hid Hex) as (h & -> & _). done.
Qed.

(** C6.  For an existing habit and a well-formed date, [toggle_completion]
    answers 200 and inserts the row of (habit, date) when there is none and
    deletes it when there is one; a second toggle brings the completion
    table back: the same (habit, date) pairs are marked, with the same
    [completed] flags when the rows are as the application writes them, and
    it is the very same table when the row was absent at first. *)
Theorem toggle_completion_twice s (m : gmap string V) vh vd hid d :
  store_wf s →
  m !! "habit_id" = Some vh → m !! "date" = Some vd →
  py_int vh = Ret hid → py_strptime_date vd = Ret d →
  hid ∈ Habit.id <$> habit_table s →
  let r1 := toggle_completion s (Some m) in
  let r2 := toggle_completion r1.1 (Some m) in
  r1.2 = mk_response 200 SuccessBody ∧ r2.2 = mk_response 200 SuccessBody
  ∧ (is_Some (find_completion r1.1 hid d) ↔ find_completion s hid d = None)
  ∧ habit_table r2.1 = habit_table s
  ∧ marked r2.1 ≡ₚ marked s
  ∧ (written_by_app s → facts r2.1 ≡ₚ facts s)
  ∧ (find_completion s hid d = None → r2.1 = s).
Proof.
  intros Hwf Hh Hd Hi Hp Hex. simpl.
  rewrite (toggle_completion_ok s m vh vd hid d) by done. cbn [fst snd].
  destruct (find_completion s hid d) as [c|] eqn:Hfind.
  - apply find_completion_Some in Hfind as (Hc & Hch & Hcd).
    assert (find_completion (delete_completion_row s c) hid d = None) as Hnone.
    { apply find_completion_None. simpl. intros c' [Hne Hc']%list_elem_of_filter [? ?].
      destruct Hne. f_equal.
      eapply (NoDup_fmap_inj_on _ _ _ _ (wf_idx_habit_date s Hwf)); [done..|].
      simpl. congruence. }
    rewrite (toggle_completion_ok _ m vh vd hid d) by done. rewrite Hnone. cbn [fst snd].
    pose proof (perm_remove Completion.id (completion_table s) c
                  (wf_completion_pk s Hwf) Hc) as Hperm.
    split; [done|]. split; [done|]. split; [split; [by intros [? ?]|done]|].
    split; [done|]. split; [|split; [|done]].
    + unfold marked. simpl. rewrite fmap_app. simpl.
      rewrite Hperm at 2. rewrite fmap_cons, <-Permutation_cons_append.
      by rewrite Hch, Hcd.
    + intros Hall. unfold facts. simpl. rewrite fmap_app. simpl.
      rewrite Hperm at 2. rewrite fmap_cons, <-Permutation_cons_append.
      by rewrite Hch, Hcd, (proj1 (Forall_forall _ _) Hall c Hc).
  - assert (find_completion (add_completion_row s hid d) hid d
            = Some (Completion.mk (next_id (Completion.id <$> completion_table s)) hid d true))
      as Hsome.
    { unfold find_completion, add_completion_row. simpl.
      rewrite list_find_app_r by (by apply fmap_None in Hfind).
      simpl. by rewrite decide_True. }
    rewrite (toggle_completion_ok _ m vh vd hid d) by done. rewrite Hsome. cbn [fst snd].
    assert (delete_completion_row (add_completion_row s hid d)
              (Completion.mk (next_id (Completion.id <$> completion_table s)) hid d true) = s)
      as Hback.
    { unfold delete_completion_row, add_completion_row. simpl.
      rewrite filter_app, filter_cons_False, filter_nil, app_nil_r by (by intros ?).
      rewrite filter_all; [by destruct s|].
      apply Forall_forall. intros c Hc Heq.
      pose proof (next_id_fresh (Completion.id <$> completion_table s) (Completion.id c)
                    ltac:(by apply list_elem_of_fmap_2)). lia. }
    rewrite Hback. split; [done|]. split; [done|]. split; [split; [done|by eexists]|].
    done.
Qed.

(** The three answers of [create_habit]; the row of an accepted request. *)
Lemma create_habit_cases now s (data : option (gmap string V)) :
  let emoji := if bool_decide (requested_emoji data = []) then star
               else requested_emoji data in
  (name_rejected data ∧ (create_habit now s data).1 = s
   ∧ status (create_habit now s data).2 = 400)
  ∨ (¬ name_rejected data
     ∧ create_habit now s data
       = if encodable (requested_name data) && encodable emoji
         then (add_habit_row s now
                 (requested_name data, emoji,
                  colors !!! (length (habit_table s) `mod` length colors)%nat),
               mk_response 201 (IdBody (next_id (Habit.id <$> habit_table s))))
         else (s, mk_response 500 (ErrorBody "Failed to create habit"))).
Proof.
  intros emoji. unfold create_habit, create_try.
  fold (requested_name data). fold (requested_emoji data). fold emoji.
  assert (falsy data || negb (has_key data "name") = true
          ↔ data ≫= (.!! "name") = None) as Hmiss.
  { unfold falsy, has_key. destruct data as [m|]; simpl; [|done].
    rewrite orb_true_iff, negb_true_iff, bool_decide_eq_true, bool_decide_eq_false.
    rewrite <-eq_None_not_Some. split; [|by right].
    intros [->|?]; [apply lookup_empty|done]. }
  destruct (falsy data || negb (has_key data "name")) eqn:E1.
  { left. split; [left; by apply Hmiss|done]. }
  assert (data ≫= (.!! "name") ≠ None) as Hpresent.
  { intros Hn%Hmiss. congruence. }
  destruct (bool_decide (requested_name data = [])
            || (100 <? Z.of_nat (length (requested_name data)))) eqn:E2.
  { left. split; [|done].
    apply orb_true_iff in E2 as [?%bool_decide_eq_true|?%Z.ltb_lt];
      unfold name_rejected; [auto|right; right; lia]. }
  apply orb_false_iff in E2 as [Hne%bool_decide_eq_false Hlen%Z.ltb_ge].
  right. split.
  { unfold name_rejected. intros [?|[?|?]]; [done|done|lia]. }
  unfold insert_habit. cbn [Habit.name Habit.emoji Habit.id]. subst emoji.
  by destruct (encodable (requested_name data) && encodable _).
Qed.

Lemma create_habit_accepted now s (data : option (gmap string V)) :
  ¬ name_rejected data →
  encodable (requested_name data) = true →
  encodable (if bool_decide (requested_emoji data = []) then star
             else requested_emoji data) = true →
  create_habit now s data
  = (add_habit_row s now
       (requested_name data,
        if bool_decide (requested_emoji data = []) then star
        else requested_emoji data,
        colors !!! (length (habit_table s) `mod` length colors)%nat),
     mk_response 201 (IdBody (next_id (Habit.id <$> habit_table s)))).
Proof.
  intros Hnr Hn He.
  destruct (create_habit_cases now s data) as [[? _]|[_ ->]]; [done|].
  by rewrite Hn, He.
Qed.

Lemma create_habit_201 now s (data : option (gmap string V)) :
  status (create_habit now s data).2 = 201 →
  ¬ name_rejected data
  ∧ create_habit now s data
    = (add_habit_row s now
         (requested_name data,
          if bool_decide (requested_emoji data = []) then star
          else requested_emoji data,
          colors !!! (length (habit_table s) `mod` length colors)%nat),
       mk_response 201 (IdBody (next_id (Habit.id <$> habit_table s)))).
Proof.
  destruct (create_habit_cases now s data) as [(_ & _ & ->)|[Hnr ->]]; [done|].
  destruct (encodable _ && encodable _); [done|]. cbn. done.
Qed.


Lemma delete_habit_unknown s hid :
  hid ∉ Habit.id <$> habit_table s →
  delete_habit s hid = (s, mk_response 500 (ErrorBody "Failed to delete habit")).
Proof. intros Hn. unfold delete_habit. by rewrite get_or_404_Raise. Qed.

Lemma delete_habit_existing s hid :
  hid ∈ Habit.id <$> habit_table s →
  delete_habit s hid
  = (mkdb (filter (λ h, Habit.id h ≠ hid) (habit_table s))
          (filter (λ c, Completion.habit_id c ≠ hid) (completion_table s)),
     mk_response 204 EmptyBody).
Proof.
  intros (h & Hg & _ & Hid)%get_or_404_Ret. unfold delete_habit. rewrite Hg.
  cbn. unfold delete_habit_row. by rewrite Hid.
Qed.
End HandlerProps.

Lemma string_app_inj_len (a a' b b' : string) :
  String.length b = String.length b' → a +:+ b = a' +:+ b' → a = a' ∧ b = b'.
Proof.
  intros Hlen. revert a'. induction a as [|c a IH]; intros [|c' a'] Heq.
  - done.
  - apply (f_equal String.length) in Heq. rewrite !string_length_app in Heq.
    cbn in Heq. lia.
  - apply (f_equal String.length) in Heq. rewrite !string_length_app in Heq.
    cbn in Heq. lia.
  - rewrite !string_app_cons in Heq. injection Heq as -> Heq.
    apply IH in Heq as [-> ->]. done.
Qed.

Lemma completion_key_inj_id hid d hid' d' :
  completion_key hid d = completion_key hid' d' → hid = hid'.
Proof.
  unfold completion_key. intros [Hp _]%string_app_inj_len; [|done].
  by apply (inj pretty).
Qed.

Section AfterDelete.
Context `{PyFloat F}.

Lemma fetch_after_delete today y m s hid (resp : Summary.t F) :
  hid ∈ Habit.id <$> habit_table s →
  get_habits today y m (delete_habit s hid).1 = Ret resp →
  (delete_habit s hid).2 = mk_response 204 EmptyBody
  ∧ (∀ c, c ∈ completion_table (delete_habit s hid).1 → Completion.habit_id c ≠ hid)
  ∧ (∀ hj, hj ∈ Summary.habits resp → HabitJson.id hj ≠ hid)
  ∧ (∀ d, Summary.completions resp !! completion_key hid d = None).
Proof.
  intros Hin. rewrite delete_habit_existing by done. cbn [fst snd].
  intros Hg. split; [done|]. split.
  { intros c [? _]%list_elem_of_filter. done. }
  pose proof (get_habits_stats _ _ _ _ _ Hg) as [Hc _].
  apply get_habits_Ret in Hg as (_ & _ & st & ds & _ & _ & ->). simpl in *. split.
  - intros hj (h & -> & [? _]%list_elem_of_filter)%list_elem_of_fmap. done.
  - intros d. rewrite Hc. apply eq_None_not_Some. intros [v Hv].
    apply completions_lookup in Hv as (_ & hid' & d' & Hk & Hh & _).
    apply completion_key_inj_id in Hk as <-.
    apply list_elem_of_fmap in Hh as (h & -> & [? _]%list_elem_of_filter). done.
Qed.
End AfterDelete.

(** The fuel of the two loops is always enough. *)
Lemma for_each_habits_terminates s today first_day last_day hs st0 :
  (∀ hid, current_streak_of today first_day last_day (dates_of s hid) ≠ OutOfFuel) →
  for_each (habit_body s today first_day last_day) st0 hs ≠ OutOfFuel.
Proof.
  intros Hk. revert st0. induction hs as [|h hs IH]; intros st0; [done|].
  rewrite for_each_unfold, habit_body_unfold.
  specialize (Hk (Habit.id h)).
  destruct (current_streak_of _ _ _ _); [|done..]. cbn [mbind res_bind]. apply IH.
Qed.

Section Terminates.
Context `{PyFloat F}.

Lemma get_habits_terminates today y m s :
  valid_date today = true → get_habits (F:=F) today y m s ≠ OutOfFuel.
Proof.
  intros Ht. unfold get_habits.
  destruct (datetime_date y m 1) as [fd| |] eqn:Hfd; [|done|].
  2: { by apply datetime_date_fuel in Hfd. }
  apply datetime_date_Ret in Hfd as [-> Hf]. cbn [mbind res_bind].
  destruct (datetime_date y m (days_in_month y m)) as [ld| |] eqn:Hld; [|done|].
  2: { by apply datetime_date_fuel in Hld. }
  apply datetime_date_Ret in Hld as [-> Hl]. cbn [mbind res_bind].
  pose proof (for_each_habits_terminates s today (mkdate y m 1)
                (mkdate y m (days_in_month y m)) (habit_table s) (∅, ∅)) as Hfe.
  destruct (for_each _ _ _) as [st| |]; [|done|].
  2: { destruct Hfe; [|done]. intros hid.
       apply current_streak_of_returns; try done. rewrite month_span. simpl. lia. }
  cbn [mbind res_bind]. pose proof (days_in_month_bounds y m).
  rewrite (stats_loop y m _ _ (Z.to_nat (days_in_month y m - 1)));
    [|lia|done|unfold month_fuel; simpl; lia].
  destruct (date_succ _) eqn:Hs; [done..|].
  unfold date_succ in Hs. by repeat case_match.
Qed.
End Terminates.

(** Every habit of the table has its entry, in the order of the table. *)
Section Ids.
Context `{PyFloat F}.
Lemma summary_habit_ids today y m s (resp : Summary.t F) :
  get_habits today y m s = Ret resp →
  HabitJson.id <$> Summary.habits resp = Habit.id <$> habit_table s.
Proof.
  intros (_ & _ & st & ds & _ & _ & ->)%get_habits_Ret. simpl.
  rewrite <-list_fmap_compose. done.
Qed.
End Ids.


(** ** The streaks reported by the month summary *)

Ltac by_decision := apply (bool_decide_unpack _); vm_compute; exact I.
Ltac by_computation := vm_compute; reflexivity.

Section Claims.
Context `{PyFloat F}.

(** C1.  The current streak reported for a habit is the number of
    consecutive completed days counted backward from
    [min(today, last day of the month)], never before the first day of the
    month; it is 0 when that start day is not completed. *)
Theorem current_streak_backward_walk today y m s (resp : Summary.t F) hj :
  valid_date today = true → store_wf s →
  get_habits today y m s = Ret resp → hj ∈ Summary.habits resp →
  let first_day := mkdate y m 1 in
  let start := date_min today (mkdate y m (days_in_month y m)) in
  walk_count (completed_on s (HabitJson.id hj))
    (toordinal first_day) (toordinal start) (HabitJson.current_streak hj)
  ∧ (¬ done_on s (HabitJson.id hj) start → HabitJson.current_streak hj = 0).
Proof.
  intros Ht Hwf Hg Hhj.
  destruct (get_habits_streaks _ _ _ _ _ _ Hg Hhj) as (Hf & Hl & Hcs & _).
  pose proof (current_streak_of_spec _ _ _ _ _ _ Hwf Ht Hf Hl Hcs) as Hw.
  simpl. split; [done|]. intros Hn. destruct Hw as (? & Hk & _).
  destruct (decide (HabitJson.current_streak hj = 0)) as [|Hne]; [done|].
  destruct (Hk 0 ltac:(lia)) as [_ Hc]. rewrite Z.sub_0_r in Hc.
  destruct Hn. apply completed_on_toordinal in Hc; [done..|].
  by apply date_min_valid.
Qed.

(** C2.  The best streak reported for a habit is the length of the longest
    run of consecutive days among its completed dates of the target month,
    and 0 when it has no completion in the month. *)
Theorem best_streak_longest_run today y m s (resp : Summary.t F) hj :
  store_wf s →
  get_habits today y m s = Ret resp → hj ∈ Summary.habits resp →
  let first_day := mkdate y m 1 in
  let last_day := mkdate y m (days_in_month y m) in
  longest_run (completed_on s (HabitJson.id hj))
    (toordinal first_day) (toordinal last_day) (HabitJson.best_streak hj)
  ∧ ((∀ d, date_le first_day d → date_le d last_day →
           ¬ done_on s (HabitJson.id hj) d) →
     HabitJson.best_streak hj = 0).
Proof.
  intros Hwf Hg Hhj.
  destruct (get_habits_streaks _ _ _ _ _ _ Hg Hhj) as (Hf & Hl & _ & ->).
  simpl. pose proof (best_streak_of_spec s (HabitJson.id hj) _ _ Hwf Hf Hl) as Hbest.
  split; [done|]. intros Hnone. destruct Hbest as [[a [Hk Ha]] _].
  destruct (decide (best_streak_of (mkdate y m 1) (mkdate y m (days_in_month y m))
                      (dates_of s (HabitJson.id hj)) = 0)) as [|Hne]; [done|].
  destruct (Ha 0 ltac:(lia)) as [Hrng (d & Hd & Heq)]. rewrite <-Heq in Hrng.
  assert (valid_date d = true)
    by (eapply valid_dates_of; [done|]; by apply elem_of_dates_of).
  destruct (Hnone d); [..|done]; apply toordinal_le_iff; done || lia.
Qed.

(** C9.  The current streak reported for a habit is at most its best
    streak: the days of the backward walk are a run of consecutive
    completed days of the month. *)
Theorem current_streak_le_best_streak today y m s (resp : Summary.t F) hj :
  valid_date today = true → store_wf s →
  get_habits today y m s = Ret resp → hj ∈ Summary.habits resp →
  HabitJson.current_streak hj ≤ HabitJson.best_streak hj.
Proof.
  intros Ht Hwf Hg Hhj.
  destruct (get_habits_streaks _ _ _ _ _ _ Hg Hhj) as (Hf & Hl & Hcs & ->).
  destruct (current_streak_of_spec _ _ _ _ _ _ Hwf Ht Hf Hl Hcs) as (Hk & Hw & _).
  destruct (best_streak_of_spec s (HabitJson.id hj) _ _ Hwf Hf Hl) as [_ Hmax].
  set (start := date_min today (mkdate y m (days_in_month y m))) in *.
  apply (Hmax (toordinal start - HabitJson.current_streak hj + 1)).
  split; [done|]. intros i Hi.
  replace (toordinal start - HabitJson.current_streak hj + 1 + i)
    with (toordinal start - (HabitJson.current_streak hj - 1 - i)) by lia.
  destruct (Hw (HabitJson.current_streak hj - 1 - i) ltac:(lia)) as [? ?].
  split; [|done]. split; [done|].
  pose proof (date_min_le today (mkdate y m (days_in_month y m))) as Hle.
  apply toordinal_le_iff in Hle; [|by apply date_min_valid|done].
  fold start in Hle. lia.
Qed.

(** C4, amended.  When today is after the last day of the target month the
    backward walk starts from that last day; when today is before the first
    day of the month the current streak is 0. *)
Theorem current_streak_today_outside_month today y m s (resp : Summary.t F) hj :
  valid_date today = true → store_wf s →
  get_habits today y m s = Ret resp → hj ∈ Summary.habits resp →
  let first_day := mkdate y m 1 in
  let last_day := mkdate y m (days_in_month y m) in
  (date_ltb last_day today = true →
   walk_count (completed_on s (HabitJson.id hj))
     (toordinal first_day) (toordinal last_day) (HabitJson.current_streak hj))
  ∧ (date_ltb today first_day = true → HabitJson.current_streak hj = 0).
Proof.
  intros Ht Hwf Hg Hhj.
  destruct (get_habits_streaks _ _ _ _ _ _ Hg Hhj) as (Hf & Hl & Hcs & _).
  pose proof (current_streak_of_spec _ _ _ _ _ _ Hwf Ht Hf Hl Hcs) as Hw.
  simpl. split.
  - intros Hlt. unfold date_min in Hw. by rewrite Hlt in Hw.
  - intros Hlt. destruct Hw as (Hk & Hrun & _).
    destruct (decide (HabitJson.current_streak hj = 0)) as [|Hne]; [done|].
    destruct (Hrun 0 ltac:(lia)) as [Hlo _]. rewrite Z.sub_0_r in Hlo.
    assert (date_ltb (date_min today (mkdate y m (days_in_month y m))) (mkdate y m 1) = true)
      as Hmin.
    { unfold date_min. case_match eqn:E; [|done].
      apply date_ltb_spec in E, Hlt. apply date_ltb_spec. simpl in *. lia. }
    apply toordinal_lt in Hmin; [lia|by apply date_min_valid|done].
Qed.
End Claims.

(** C8.  On an unknown id [delete_habit] answers 500, not 404: the
    [NotFound] of [get_or_404] is caught by [except Exception]. *)
Theorem delete_habit_unknown_id_gives_500 :
  (7 ∉ (Habit.id <$> habit_table sample_db))
  ∧ delete_habit sample_db 7
    = (sample_db, mk_response 500 (ErrorBody "Failed to delete habit")).
Proof.
  split.
  - by_decision.
  - by_computation.
Qed.

(** C4 as stated fails: fetched on 15 January 2024, February 2024 has
    current streak 0 for a habit completed on 28 and 29 February, while the
    walk from the last day of the month counts 2. *)
Lemma walk_from_last_day_claim_fails : ¬ walk_from_last_day_claim.
Proof.
  intros Hclaim.
  assert (store_wf sample_db) as Hwf by (split; by_decision).
  assert (get_habits (mkdate 2024 1 15) 2024 2 sample_db = Ret sample_before) as Hg
    by by_computation.
  assert (read_before ∈ Summary.habits sample_before) as Hin
    by (apply (list_elem_of_lookup_2 _ 1%nat); by_computation).
  assert (valid_date (mkdate 2024 1 15) = true) as Hv by by_computation.
  assert (date_ltb (mkdate 2024 1 15) (mkdate 2024 2 1) = true) as Hlt by by_computation.
  pose proof (Hclaim (mkdate 2024 1 15) 2024 2 sample_db sample_before read_before
              Hv Hwf Hg Hin (or_introl Hlt)) as Hc.
  destruct Hc as (_ & _ & Hstop).
  apply Hstop. split; [vm_compute; discriminate|].
  exists (mkdate 2024 2 29). split; [|by_computation].
  exists (Completion.mk 6 2 (mkdate 2024 2 29) true).
  split; [|repeat split]. apply (list_elem_of_lookup_2 _ 5%nat). by_computation.
Qed.


(** ** Instances of the theorems on the sample data *)


Lemma current_streak_backward_walk_witness :
  valid_date (mkdate 2024 3 5) = true
  ∧ walk_count (completed_on sample_db 2)
      (toordinal (mkdate 2024 2 1)) (toordinal (mkdate 2024 2 29)) 2.
Proof.
  split; [by_computation|].
  apply (current_streak_backward_walk (mkdate 2024 3 5) 2024 2 sample_db
           sample_after read_after).
  - by_computation.
  - split; by_decision.
  - by_computation.
  - apply (list_elem_of_lookup_2 _ 1%nat). by_computation.
Defined.

Lemma best_streak_longest_run_witness :
  get_habits (mkdate 2024 3 5) 2024 2 sample_db = Ret sample_after
  ∧ longest_run (completed_on sample_db 1)
      (toordinal (mkdate 2024 2 1)) (toordinal (mkdate 2024 2 29)) 3.
Proof.
  split; [by_computation|].
  apply (best_streak_longest_run (mkdate 2024 3 5) 2024 2 sample_db
           sample_after gym_after).
  - split; by_decision.
  - by_computation.
  - apply (list_elem_of_lookup_2 _ 0%nat). by_computation.
Defined.

Lemma current_streak_le_best_streak_witness :
  HabitJson.current_streak read_after ≤ HabitJson.best_streak read_after.
Proof.
  apply (current_streak_le_best_streak (mkdate 2024 3 5) 2024 2 sample_db
           sample_after read_after).
  - by_computation.
  - split; by_decision.
  - by_computation.
  - apply (list_elem_of_lookup_2 _ 1%nat). by_computation.
Defined.

Lemma current_streak_today_outside_month_witness :
  date_ltb (mkdate 2024 1 15) (mkdate 2024 2 1) = true
  ∧ HabitJson.current_streak read_before = 0.
Proof.
  split; [by_computation|].
  apply (current_streak_today_outside_month (mkdate 2024 1 15) 2024 2 sample_db
           sample_before read_before).
  - by_computation.
  - split; by_decision.
  - by_computation.
  - apply (list_elem_of_lookup_2 _ 1%nat). by_computation.
  - by_computation.
Defined.

Lemma daily_percentage_spec_witness :
  1 ≤ 3 ≤ days_in_month 2024 2
  ∧ Summary.daily_stats sample_after !! 2%nat
    = Some (DayStat.mk 3 (PyFloatV (Round (MulInt (TrueDiv 1 2) 100) 1))).
Proof.
  assert (1 ≤ 3 ≤ days_in_month 2024 2) as Hday
    by (vm_compute; split; discriminate).
  split; [exact Hday|].
  assert (store_wf sample_db) as Hwf by (split; by_decision).
  assert (get_habits (mkdate 2024 3 5) 2024 2 sample_db = Ret sample_after)
    as Hg by by_computation.
  pose proof (proj1 (daily_percentage_spec (mkdate 2024 3 5) 2024 2 sample_db
                       sample_after 3 Hwf Hg Hday)) as Hw.
  vm_compute in Hw. vm_compute. exact Hw.
Defined.

Lemma daily_stats_one_entry_per_day_witness :
  DayStat.day <$> Summary.daily_stats sample_after = seqZ 1 29.
Proof.
  apply (daily_stats_one_entry_per_day (mkdate 2024 3 5) 2024 2 sample_db).
  by_computation.
Defined.

Lemma streaks_ignore_other_months_witness :
  completion_table sample_db ≠ completion_table sample_db'
  ∧ get_habits (F:=float_expr) (mkdate 2024 3 5) 2024 2 sample_db
    = get_habits (mkdate 2024 3 5) 2024 2 sample_db'.
Proof.
  split; [vm_compute; discriminate|].
  apply streaks_ignore_other_months.
  - split; by_decision.
  - split; by_decision.
  - reflexivity.
  - intros hid d H1 H2. split; intros (c & Hc & Hh & Hd & Hcomp);
      repeat (apply elem_of_cons in Hc as [->|Hc]);
      try (by apply elem_of_nil in Hc);
      subst hid d;
      try (vm_compute in H1; discriminate); try (vm_compute in H2; discriminate);
      (eexists; split; [|repeat split; reflexivity];
       apply list_elem_of_In; simpl; auto 20).
Defined.

Lemma toggle_completion_twice_witness :
  find_completion sample_db 1 (mkdate 2024 2 6) = None
  ∧ (toggle_completion
       (toggle_completion sample_db (toggle_request 1 (mkdate 2024 2 6))).1
       (toggle_request 1 (mkdate 2024 2 6))).1 = sample_db.
Proof.
  split; [by_computation|].
  apply (toggle_completion_twice sample_db
           (<["habit_id" := SInt 1]> (<["date" := SDate (mkdate 2024 2 6)]> ∅))
           (SInt 1) (SDate (mkdate 2024 2 6)) 1 (mkdate 2024 2 6)).
  - split; by_decision.
  - by_computation.
  - by_computation.
  - by_computation.
  - by_computation.
  - by_decision.
  - by_computation.
Defined.

(** ** Further evaluations on the sample data *)

Example best_streak_days_3_4_5_10 :
  best_streak_of (mkdate 2024 2 1) (mkdate 2024 2 29)
    [mkdate 2024 2 3; mkdate 2024 2 4; mkdate 2024 2 5; mkdate 2024 2 10] = 3.
Proof. vm_compute. reflexivity. Qed.

Example current_streak_after_full_january :
  current_streak_of (mkdate 2024 2 1) (mkdate 2024 2 1) (mkdate 2024 2 29)
    (mkdate 2024 1 <$> seqZ 1 31) = Ret 0.
Proof. vm_compute. reflexivity. Qed.

Example current_streak_clipped_at_first_day :
  current_streak_of (mkdate 2024 2 2) (mkdate 2024 2 1) (mkdate 2024 2 29)
    ((mkdate 2024 1 <$> seqZ 1 31) ++ [mkdate 2024 2 1; mkdate 2024 2 2]) = Ret 2.
Proof. vm_compute. reflexivity. Qed.

Example completion_key_sample :
  completion_key 12 (mkdate 2024 2 3) = "12-2024-02-03".
Proof. vm_compute. reflexivity. Qed.

Example create_habit_sample :
  create_habit 0 sample_db
    (Some (<["name" := SText (text_of_string "  Walk ")]> ∅))
  = (mkdb (habit_table sample_db
           ++ [Habit.mk 3 (text_of_string "Walk") star "bg-purple-100" 0])
       (completion_table sample_db),
     mk_response 201 (IdBody 3)).
Proof. vm_compute. reflexivity. Qed.

Example create_habit_blank_name :
  create_habit 0 sample_db (Some (<["name" := SText (text_of_string "   ")]> ∅))
  = (sample_db,
     mk_response 400 (ErrorBody "Habit name must be between 1-100 characters")).
Proof. vm_compute. reflexivity. Qed.

Example create_habit_lone_surrogate :
  create_habit 0 sample_db surrogate_request
  = (sample_db, mk_response 500 (ErrorBody "Failed to create habit")).
Proof. vm_compute. reflexivity. Qed.

Example toggle_unknown_habit :
  toggle_completion sample_db (toggle_request 7 (mkdate 2024 2 6))
  = (sample_db, mk_response 500 (ErrorBody "Failed to toggle completion")).
Proof. vm_compute. reflexivity. Qed.

Example delete_habit_sample :
  delete_habit sample_db 2
  = (mkdb [Habit.mk 1 (text_of_string "Gym") star "bg-orange-100" 0]
       [Completion.mk 1 1 (mkdate 2024 2 3) true;
        Completion.mk 2 1 (mkdate 2024 2 5) true;
        Completion.mk 3 1 (mkdate 2024 2 4) true;
        Completion.mk 4 1 (mkdate 2024 2 10) true],
     mk_response 204 EmptyBody).
Proof. vm_compute. reflexivity. Qed.

(** ** Exceptions of the month summary *)

Lemma date_pred_Raise d e : date_pred d = Raise e → e = OverflowError.
Proof. unfold date_pred. repeat case_match; congruence. Qed.

Lemma date_succ_Raise d e : date_succ d = Raise e → e = OverflowError.
Proof. unfold date_succ. repeat case_match; congruence. Qed.

Lemma streak_walk_Raise first_day dates fuel st e :
  while fuel (streak_cond first_day dates) streak_body st = Raise e →
  e = OverflowError.
Proof.
  revert st. induction fuel as [|fuel IH]; intros st; [done|].
  rewrite while_unfold. destruct (streak_cond _ _ _); [|done].
  rewrite streak_body_unfold. destruct (date_pred st.2) as [d| |] eqn:Hp; cbn [mbind res_bind].
  - apply IH.
  - intros [= <-]. by eapply date_pred_Raise.
  - done.
Qed.

Lemma for_each_habits_Raise s today first_day last_day hs st0 e :
  for_each (habit_body s today first_day last_day) st0 hs = Raise e →
  e = OverflowError.
Proof.
  revert st0. induction hs as [|h hs IH]; intros st0; [done|].
  rewrite for_each_unfold, habit_body_unfold. unfold current_streak_of.
  destruct (while _ _ _ _) as [st| |] eqn:Hw; cbn [mbind res_bind].
  - apply IH.
  - intros [= <-]. by eapply streak_walk_Raise.
  - done.
Qed.

(** ** Dates and keys *)

Lemma str_date_inj d d' :
  valid_date d = true → valid_date d' = true →
  str_date d = str_date d' → d = d'.
Proof.
  rewrite !valid_date_spec. intros (Hy & Hm & Hd) (Hy' & Hm' & Hd').
  pose proof (days_in_month_bounds (year d) (month d)).
  pose proof (days_in_month_bounds (year d') (month d')).
  unfold str_date. intros [= Y3 Y2 Y1 Y0 M1 M0 D1 D0].
  rewrite (digit_mod (year d / 1000)), (digit_mod (year d' / 1000)) in Y3.
  rewrite (digit_mod (year d / 100)), (digit_mod (year d' / 100)) in Y2.
  rewrite (digit_mod (year d / 10)), (digit_mod (year d' / 10)) in Y1.
  rewrite (digit_mod (year d)), (digit_mod (year d')) in Y0.
  rewrite (digit_mod (month d / 10)), (digit_mod (month d' / 10)) in M1.
  rewrite (digit_mod (month d)), (digit_mod (month d')) in M0.
  rewrite (digit_mod (day d / 10)), (digit_mod (day d' / 10)) in D1.
  rewrite (digit_mod (day d)), (digit_mod (day d')) in D0.
  apply digit_inj in Y3, Y2, Y1, Y0, M1, M0, D1, D0;
    try (apply Z.mod_pos_bound; lia).
  assert (year d = year d') by (clear - Hy Hy' Y3 Y2 Y1 Y0; Z.div_mod_to_equations; lia).
  assert (month d = month d') by (clear - Hm Hm' M1 M0; Z.div_mod_to_equations; lia).
  assert (day d = day d') by (clear - Hd Hd' H H0 D1 D0; Z.div_mod_to_equations; lia).
  destruct d, d'; simpl in *; congruence.
Qed.

Lemma completion_key_inj_both hid d hid' d' :
  completion_key hid d = completion_key hid' d' →
  hid = hid' ∧ str_date d = str_date d'.
Proof.
  unfold completion_key. intros [Hp Hs]%string_app_inj_len; [|done].
  split; [by apply (inj pretty)|]. by apply (inj (String.app "-")).
Qed.

Lemma valid_date_month d : valid_date d = true → valid_month (year d) (month d) = true.
Proof. unfold valid_date. by intros [[? _]%andb_true_iff _]%andb_true_iff. Qed.

Lemma valid_month_spec y m :
  valid_month y m = true → 1 ≤ y ≤ 9999 ∧ 1 ≤ m ≤ 12.
Proof.
  intros [Hf _]%valid_first_last. apply valid_date_spec in Hf. simpl in Hf. lia.
Qed.

Lemma in_month_valid y m d :
  valid_month y m = true →
  date_le (mkdate y m 1) d → date_le d (mkdate y m (days_in_month y m)) →
  valid_date d = true.
Proof.
  intros Hm H1 H2. destruct (in_month_inv _ _ _ _ H1 H2) as [-> ?].
  destruct (valid_first_last y m Hm) as [Hf _].
  apply valid_date_spec in Hf. apply valid_date_spec. simpl in *. lia.
Qed.

(** ** Habits without completions, and stores that differ in one habit *)

Lemma for_each_habits_Ret_iff s today first_day last_day hs st0 :
  (∃ st, for_each (habit_body s today first_day last_day) st0 hs = Ret st) ↔
  ∀ h, h ∈ hs →
       ∃ k, current_streak_of today first_day last_day (dates_of s (Habit.id h))
            = Ret k.
Proof.
  revert st0. induction hs as [|h hs IH]; intros st0.
  { split; [by intros _ h ?%elem_of_nil|]. intros _. by eexists. }
  rewrite for_each_unfold, habit_body_unfold. split.
  - intros [st Hst] h' [->|Hh']%elem_of_cons.
    + destruct (current_streak_of _ _ _ _); [by eexists|done..].
    + destruct (current_streak_of _ _ _ _); [|done..]. cbn [mbind res_bind] in Hst.
      by apply (proj1 (IH _) (ex_intro _ st Hst)).
  - intros Hall. destruct (Hall h ltac:(left)) as [k ->]. cbn [mbind res_bind].
    apply IH. intros h' Hh'. apply Hall. by right.
Qed.

Lemma filter_filter_impl {A} (P Q : A → Prop)
    `{∀ x, Decision (P x)} `{∀ x, Decision (Q x)} (l : list A) :
  (∀ x, P x → Q x) → filter P (filter Q l) = filter P l.
Proof.
  intros HPQ. induction l as [|x l IH]; [done|]. destruct (decide (Q x)).
  - rewrite (filter_cons_True Q) by done. destruct (decide (P x)).
    + by rewrite !filter_cons_True, IH.
    + by rewrite !filter_cons_False, IH.
  - rewrite (filter_cons_False Q) by done.
    rewrite (filter_cons_False P) by (intros ?; auto). done.
Qed.

Lemma filter_fmap_comm {A B} (f : A → B) (P : B → Prop)
    `{∀ x, Decision (P x)} (l : list A) :
  filter P (f <$> l) = f <$> filter (λ x, P (f x)) l.
Proof.
  induction l as [|x l IH]; [done|]. rewrite fmap_cons. destruct (decide (P (f x))).
  - by rewrite !filter_cons_True, fmap_cons, IH.
  - by rewrite !filter_cons_False, IH.
Qed.

Lemma NoDup_fmap_filter {A B} (f : A → B) (P : A → Prop)
    `{∀ x, Decision (P x)} (l : list A) :
  NoDup (f <$> l) → NoDup (f <$> filter P l).
Proof.
  induction l as [|x l IH]; [done|]. rewrite fmap_cons, NoDup_cons.
  intros [Hx Hl]. destruct (decide (P x)).
  - rewrite filter_cons_True, fmap_cons, NoDup_cons by done. split; [|auto].
    intros (y & ? & [_ ?]%list_elem_of_filter)%list_elem_of_fmap.
    apply Hx. apply list_elem_of_fmap. eauto.
  - rewrite filter_cons_False by done. auto.
Qed.

Lemma dates_of_nil s hid :
  (∀ c, c ∈ completion_table s → Completion.habit_id c ≠ hid) → dates_of s hid = [].
Proof.
  intros Hno. unfold dates_of, all_comps.
  assert (filter (λ c, Completion.habit_id c = hid ∧ Completion.completed c = true)
            (completion_table s) = []) as ->; [|done].
  induction (completion_table s) as [|c l IH]; [done|].
  rewrite filter_cons_False by (intros [? _]; by apply (Hno c ltac:(left))).
  apply IH. intros c' Hc'. apply Hno. by right.
Qed.

Lemma month_comps_nil s hid first_day last_day :
  (∀ c, c ∈ completion_table s → Completion.habit_id c ≠ hid) →
  month_comps s hid first_day last_day = [].
Proof.
  intros Hno. unfold month_comps.
  induction (completion_table s) as [|c l IH]; [done|].
  rewrite filter_cons_False by (intros [? _]; by apply (Hno c ltac:(left))).
  apply IH. intros c' Hc'. apply Hno. by right.
Qed.

Lemma current_streak_of_nil today first_day last_day :
  current_streak_of today first_day last_day [] = Ret 0.
Proof.
  unfold current_streak_of, month_fuel. rewrite while_unfold. unfold streak_cond.
  rewrite bool_decide_eq_false_2 by apply not_elem_of_nil.
  by rewrite andb_false_r.
Qed.

Lemma best_streak_of_nil first_day last_day :
  best_streak_of first_day last_day [] = 0.
Proof. unfold best_streak_of. rewrite filter_nil. by rewrite bool_decide_eq_false_2 by (by intros ?). Qed.

Lemma habit_entry_no_rows s today first_day last_day h :
  (∀ c, c ∈ completion_table s → Completion.habit_id c ≠ Habit.id h) →
  habit_entry s today first_day last_day h
  = HabitJson.mk (Habit.id h) (Habit.name h) (Habit.emoji h) (Habit.color h) 0 0.
Proof.
  intros Hno. unfold habit_entry.
  by rewrite (dates_of_nil s _ Hno), current_streak_of_nil, best_streak_of_nil.
Qed.

Lemma done_on_delete s hid hid' d :
  hid' ≠ hid →
  done_on (mkdb (filter (λ h, Habit.id h ≠ hid) (habit_table s))
             (filter (λ c, Completion.habit_id c ≠ hid) (completion_table s)))
    hid' d
  ↔ done_on s hid' d.
Proof.
  intros Hne. unfold done_on. simpl. split.
  - intros (c & [_ Hc]%list_elem_of_filter & ?). eauto.
  - intros (c & Hc & Hh & ?). exists c. split; [|done].
    apply list_elem_of_filter. split; [congruence|done].
Qed.

(** ** The month summary as a whole *)

Section MonthSummary.
Context `{PyFloat F}.

Lemma get_habits_entries today y m s (resp : Summary.t F) :
  get_habits today y m s = Ret resp →
  Summary.habits resp
  = habit_entry s today (mkdate y m 1) (mkdate y m (days_in_month y m))
      <$> habit_table s.
Proof.
  intros (_ & _ & st & ds & Hst & _ & ->)%get_habits_Ret. simpl.
  apply list_fmap_ext. intros i h Hh.
  apply for_each_habits in Hst as [_ Hs]. specialize (Hs (Habit.id h)).
  rewrite decide_True in Hs by (apply list_elem_of_fmap_2; by eapply list_elem_of_lookup_2).
  destruct Hs as (cs & Hcs & Hl). unfold habit_json, habit_entry.
  by rewrite Hl, Hcs.
Qed.

Lemma get_habits_Ret_iff today y m s :
  (∃ resp : Summary.t F, get_habits today y m s = Ret resp) ↔
  valid_month y m = true
  ∧ (∀ h, h ∈ habit_table s →
       ∃ k, current_streak_of today (mkdate y m 1) (mkdate y m (days_in_month y m))
              (dates_of s (Habit.id h)) = Ret k)
  ∧ ∃ nxt, date_succ (mkdate y m (days_in_month y m)) = Ret nxt.
Proof.
  pose proof (days_in_month_bounds y m) as Hdim. split.
  - intros [resp (Hf & _ & st & ds & Hst & Hds & _)%get_habits_Ret].
    split; [by apply valid_date_month in Hf|]. split.
    + apply (for_each_habits_Ret_iff s today _ _ (habit_table s) (∅, ∅)). eauto.
    + rewrite (stats_loop y m _ _ (Z.to_nat (days_in_month y m - 1))) in Hds;
        [|lia|done|unfold month_fuel; simpl; lia].
      destruct (date_succ _); [by eexists|done..].
  - intros (Hm & Hall & nxt & Hn). destruct (valid_first_last y m Hm) as [Hf Hl].
    unfold get_habits.
    rewrite (datetime_date_valid _ _ _ Hf), (datetime_date_valid _ _ _ Hl).
    cbn [mbind res_bind].
    apply (for_each_habits_Ret_iff s today _ _ (habit_table s) (∅, ∅)) in Hall
      as [st ->]. cbn [mbind res_bind].
    rewrite (stats_loop y m _ _ (Z.to_nat (days_in_month y m - 1)));
      [|lia|done|unfold month_fuel; simpl; lia].
    rewrite Hn. cbn [mbind res_bind]. by eexists.
Qed.

Lemma dict_lookup_key s y m hs hid d :
  valid_month y m = true →
  date_le (mkdate y m 1) d → date_le d (mkdate y m (days_in_month y m)) →
  foldl (pure_keys s (mkdate y m 1) (mkdate y m (days_in_month y m))) ∅ hs
    !! completion_key hid d
  = if decide (hid ∈ Habit.id <$> hs ∧ done_on s hid d) then Some true else None.
Proof.
  intros Hm H1 H2. pose proof (in_month_valid y m d Hm H1 H2) as Hv.
  apply option_eq. intros v. rewrite completions_lookup. split.
  - intros (-> & hid' & d' & Hk & Hh & Hd & H1' & H2').
    apply completion_key_inj_both in Hk as [<- Hs].
    apply str_date_inj in Hs as <-; [|done|by eapply in_month_valid].
    by rewrite decide_True.
  - destruct (decide _) as [[? ?]|]; [|done]. intros [= <-].
    split; [done|]. by exists hid, d.
Qed.

(** X1.  The outcome of [get_habits] for a calendar date [today]: the two
    loops end; a year outside 1..9999 or a month outside 1..12 raises
    [ValueError] when both fit a C int and [OverflowError] when one does
    not (as [datetime(year, month, 1)] does); a valid month either
    returns or raises [OverflowError]; it returns for every valid month
    other than January 0001 and December 9999; December 9999 always raises
    [OverflowError] (the day after 9999-12-31 in the statistics loop). *)
Theorem get_habits_outcome today y m s :
  valid_date today = true →
  get_habits (F:=F) today y m s ≠ OutOfFuel
  ∧ (valid_month y m = false →
     get_habits (F:=F) today y m s
     = Raise (if fits_c_int y && fits_c_int m then ValueError
              else OverflowError))
  ∧ (valid_month y m = true →
     (∃ resp : Summary.t F, get_habits today y m s = Ret resp)
     ∨ get_habits (F:=F) today y m s = Raise OverflowError)
  ∧ (valid_month y m = true → (y, m) ≠ (1, 1) → (y, m) ≠ (9999, 12) →
     ∃ resp : Summary.t F, get_habits today y m s = Ret resp)
  ∧ ((y, m) = (9999, 12) → get_habits (F:=F) today y m s = Raise OverflowError).
Proof.
  intros Ht. pose proof (get_habits_terminates (F:=F) today y m s Ht) as Hfuel.
  split; [done|]. split; [apply get_habits_invalid_month|]. split; [|split].
  - intros Hm. destruct (valid_first_last y m Hm) as [Hf Hl].
    destruct (get_habits today y m s) as [resp|e|] eqn:Hg; [left; by eexists| |done].
    right. f_equal. unfold get_habits in Hg.
    rewrite (datetime_date_valid _ _ _ Hf), (datetime_date_valid _ _ _ Hl) in Hg.
    cbn [mbind res_bind] in Hg.
    destruct (for_each _ _ _) as [st|e'|] eqn:Hfe; cbn [mbind res_bind] in Hg.
    + pose proof (days_in_month_bounds y m).
      rewrite (stats_loop y m _ _ (Z.to_nat (days_in_month y m - 1))) in Hg;
        [|lia|done|unfold month_fuel; simpl; lia].
      destruct (date_succ _) as [nxt|e'|] eqn:Hs; cbn [mbind res_bind] in Hg;
        [done| |done].
      injection Hg as <-. by eapply date_succ_Raise.
    + injection Hg as <-. by eapply for_each_habits_Raise.
    + done.
  - intros Hm H1 H2. by apply get_habits_returns.
  - intros [= -> ->]. by apply get_habits_december_9999.
Qed.

(** X2.  The completion map of the answer holds [True] under the key of a
    habit and a calendar date exactly when the habit is in the table, is
    completed on that date, and the date is in the requested month. *)
Theorem completion_map_lookup today y m s (resp : Summary.t F) hid d :
  get_habits today y m s = Ret resp → valid_date d = true →
  Summary.completions resp !! completion_key hid d = Some true ↔
  hid ∈ Habit.id <$> habit_table s ∧ done_on s hid d
  ∧ date_le (mkdate y m 1) d ∧ date_le d (mkdate y m (days_in_month y m)).
Proof.
  intros Hg Hv. pose proof (get_habits_stats _ _ _ _ _ Hg) as [-> _].
  apply get_habits_Ret in Hg as (Hf & _). apply valid_date_month in Hf. simpl in Hf.
  rewrite completions_lookup. split.
  - intros (_ & hid' & d' & Hk & Hh & Hd & H1 & H2).
    apply completion_key_inj_both in Hk as [<- Hs].
    apply str_date_inj in Hs as <-; [done..|]. by eapply in_month_valid.
  - intros (? & ? & ? & ?). split; [done|]. by exists hid, d.
Qed.

(** X3.  Every entry of the completion map is [True] under the key
    "<id>-<YYYY-MM-DD>" of a habit of the table and a day of the requested
    month on which that habit is completed. *)
Theorem completion_map_entries today y m s (resp : Summary.t F) k v :
  get_habits today y m s = Ret resp →
  Summary.completions resp !! k = Some v →
  v = true
  ∧ ∃ hid j, 1 ≤ j ≤ days_in_month y m ∧ k = completion_key hid (mkdate y m j)
      ∧ hid ∈ Habit.id <$> habit_table s ∧ done_on s hid (mkdate y m j).
Proof.
  intros Hg. pose proof (get_habits_stats _ _ _ _ _ Hg) as [-> _].
  intros (-> & hid & d & -> & Hh & Hd & H1 & H2)%completions_lookup.
  split; [done|]. destruct (in_month_inv _ _ _ _ H1 H2) as [Heq ?].
  exists hid, (day d). rewrite <-Heq. done.
Qed.

(** X4.  Both streaks of an entry are between 0 and the number of days of
    the requested month, and when [today] is in that month the current
    streak is at most the day of the month of [today]. *)
Theorem streak_bounds today y m s (resp : Summary.t F) hj :
  valid_date today = true → store_wf s →
  get_habits today y m s = Ret resp → hj ∈ Summary.habits resp →
  0 ≤ HabitJson.current_streak hj ≤ days_in_month y m
  ∧ 0 ≤ HabitJson.best_streak hj ≤ days_in_month y m
  ∧ (date_le (mkdate y m 1) today →
     date_le today (mkdate y m (days_in_month y m)) →
     HabitJson.current_streak hj ≤ day today).
Proof.
  intros Ht Hwf Hg Hhj.
  destruct (get_habits_streaks _ _ _ _ _ _ Hg Hhj) as (Hf & Hl & Hcs & ->).
  destruct (current_streak_of_spec _ _ _ _ _ _ Hwf Ht Hf Hl Hcs) as (Hk & Hw & _).
  destruct (best_streak_of_spec s (HabitJson.id hj) _ _ Hwf Hf Hl) as [[a [Hb Ha]] _].
  pose proof (month_span y m) as Hspan.
  pose proof (date_min_le today (mkdate y m (days_in_month y m))) as Hle.
  apply toordinal_le_iff in Hle; [|by apply date_min_valid|done].
  pose proof (days_in_month_bounds y m) as Hdim.
  set (k := HabitJson.current_streak hj) in *.
  set (b := best_streak_of _ _ _) in *.
  split_and!; try lia.
  - destruct (decide (k = 0)) as [->|]; [lia|].
    destruct (Hw (k - 1) ltac:(lia)). lia.
  - destruct (decide (b = 0)) as [->|]; [lia|].
    destruct (Ha 0 ltac:(lia)), (Ha (b - 1) ltac:(lia)). lia.
  - intros H1 H2. destruct (in_month_inv _ _ _ _ H1 H2) as [Heq ?].
    assert (date_min today (mkdate y m (days_in_month y m)) = today) as Hmin.
    { unfold date_min. unfold date_le, date_leb in H2.
      by destruct (date_ltb (mkdate y m (days_in_month y m)) today). }
    destruct (decide (k = 0)) as [->|]; [lia|].
    destruct (Hw (k - 1) ltac:(lia)) as [Hlo _]. rewrite Hmin in Hlo.
    rewrite Heq in Hlo. unfold toordinal in Hlo. simpl in Hlo. lia.
Qed.

(** X5.  Only the current streaks depend on the day of the request: two
    fetches of the same month of the same store on different days give the
    same completion map, the same daily statistics, and the same habit
    entries but for [current_streak]. *)
Theorem only_current_streak_reads_today today1 today2 y m s
    (r1 r2 : Summary.t F) :
  get_habits today1 y m s = Ret r1 → get_habits today2 y m s = Ret r2 →
  Summary.completions r1 = Summary.completions r2
  ∧ Summary.daily_stats r1 = Summary.daily_stats r2
  ∧ without_current <$> Summary.habits r1 = without_current <$> Summary.habits r2.
Proof.
  intros H1 H2.
  rewrite (get_habits_entries _ _ _ _ _ H1), (get_habits_entries _ _ _ _ _ H2).
  destruct (get_habits_stats _ _ _ _ _ H1) as [-> ->].
  destruct (get_habits_stats _ _ _ _ _ H2) as [-> ->].
  split; [done|]. split; [done|].
  rewrite <-!list_fmap_compose. apply list_fmap_ext. intros i h _. reflexivity.
Qed.

(** X6.  The number of completions that the statistics loop counts for a
    day of the month is between 0 and the number of habits, so the
    percentage is a fraction of at most all habits. *)
Theorem day_count_at_most_habits today y m s (resp : Summary.t F) j :
  store_wf s → get_habits today y m s = Ret resp →
  1 ≤ j ≤ days_in_month y m →
  0 ≤ day_completions (Summary.completions resp) (mkdate y m j)
  ≤ Z.of_nat (length (Summary.habits resp)).
Proof.
  intros Hwf Hg Hj. destruct (get_habits_stats _ _ _ _ _ Hg) as [-> _].
  apply get_habits_Ret in Hg as (_ & _ & st & ds & _ & _ & ->). simpl.
  rewrite day_completions_spec; [|apply Hwf|done]. unfold habits_done.
  rewrite length_fmap.
  pose proof (length_filter (λ h, done_on s (Habit.id h) (mkdate y m j)) (habit_table s)).
  lia.
Qed.

End MonthSummary.

(** ** Answers of toggle_completion *)

Section Toggle.
Context `{PyValue V}.

Lemma toggle_accepts_ok s (data : option (gmap string V)) hid d :
  toggle_accepts s data hid d →
  toggle_completion s data
  = (match find_completion s hid d with
     | Some completion => delete_completion_row s completion
     | None => add_completion_row s hid d
     end, mk_response 200 SuccessBody).
Proof.
  intros (vh & vd & Hh & Hd & Hi & Hp & Hex). destruct data as [m|]; [|done].
  by apply (toggle_completion_ok s m vh vd).
Qed.

Lemma toggle_completion_cases s (data : option (gmap string V)) :
  ((toggle_completion s data).1 = s
   ∧ (status (toggle_completion s data).2 = 400
      ∨ status (toggle_completion s data).2 = 500))
  ∨ ∃ hid d, toggle_accepts s data hid d.
Proof.
  unfold toggle_completion, toggle_try.
  destruct (falsy data || negb (has_key data "habit_id")
            || negb (has_key data "date")) eqn:E; [left; simpl; auto|].
  destruct (data ≫= (.!! "habit_id")) as [vh|] eqn:Hh; [|left; simpl; auto].
  destruct (data ≫= (.!! "date")) as [vd|] eqn:Hd; [|left; simpl; auto].
  destruct (py_int vh) as [hid|e|] eqn:Hi; cbn [mbind res_bind];
    [|left; destruct e; simpl; auto|left; simpl; auto].
  destruct (py_strptime_date vd) as [d|e|] eqn:Hp; cbn [mbind res_bind];
    [|left; destruct e; simpl; auto|left; simpl; auto].
  destruct (decide (hid ∈ Habit.id <$> habit_table s)) as [Hin|Hnin].
  - right. exists hid, d, vh, vd. done.
  - left. rewrite get_or_404_Raise by done. simpl. auto.
Qed.

(** X7.  [toggle_completion] answers 200 exactly when the request has both
    fields, [int] accepts the habit id, [strptime] accepts the date and the
    habit exists; every other request is answered 400 or 500 and leaves
    the store as it is. *)
Theorem toggle_completion_status s (data : option (gmap string V)) :
  let r := toggle_completion s data in
  (status r.2 = 200 ↔ ∃ hid d, toggle_accepts s data hid d)
  ∧ (status r.2 ≠ 200 → r.1 = s ∧ (status r.2 = 400 ∨ status r.2 = 500)).
Proof.
  simpl. destruct (toggle_completion_cases s data) as [[Hs Hst]|(hid & d & Hacc)].
  - split; [|done]. split; [lia|]. intros (hid & d & Hacc).
    rewrite (toggle_accepts_ok _ _ _ _ Hacc) in Hst. simpl in Hst. lia.
  - rewrite (toggle_accepts_ok _ _ _ _ Hacc). simpl. split; [|done].
    split; [eauto|done].
Qed.

(** X8.  For a habit id that is not in the table, [toggle_completion]
    answers 500 "Failed to toggle completion" and not 404: the [NotFound]
    of [get_or_404] is caught by [except Exception]. *)
Theorem toggle_completion_unknown_habit s (m : gmap string V) vh vd hid d :
  m !! "habit_id" = Some vh → m !! "date" = Some vd →
  py_int vh = Ret hid → py_strptime_date vd = Ret d →
  (hid ∉ (Habit.id <$> habit_table s)) →
  toggle_completion s (Some m)
  = (s, mk_response 500 (ErrorBody "Failed to toggle completion")).
Proof.
  intros Hh Hd Hi Hp Hex. unfold toggle_completion, toggle_try, falsy, has_key.
  rewrite bool_decide_eq_false_2 by (intros ->; by rewrite lookup_empty in Hh).
  rewrite !bool_decide_eq_true_2 by (rewrite ?Hh, ?Hd; eauto). simpl.
  rewrite Hh, Hd, Hi. cbn [mbind res_bind]. rewrite Hp. cbn [mbind res_bind].
  by rewrite get_or_404_Raise.
Qed.


(** The rows of the table after an accepted toggle. *)
Lemma toggle_rows s hid d :
  store_wf s →
  let s' := match find_completion s hid d with
            | Some completion => delete_completion_row s completion
            | None => add_completion_row s hid d
            end in
  habit_table s' = habit_table s
  ∧ (∀ c, Completion.habit_id c ≠ hid ∨ Completion.date c ≠ d →
          c ∈ completion_table s' ↔ c ∈ completion_table s)
  ∧ (done_on s' hid d ↔ find_completion s hid d = None).
Proof.
  intros Hwf. simpl. destruct (find_completion s hid d) as [c0|] eqn:Hfind.
  - apply find_completion_Some in Hfind as (Hc & Hch & Hcd). simpl.
    split; [done|]. split.
    + intros c Hne. rewrite list_elem_of_filter. split; [tauto|].
      intros Hin. split; [|done]. intros Heq.
      assert (c = c0) as ->
        by (by eapply (NoDup_fmap_inj_on _ _ _ _ (wf_completion_pk s Hwf))).
      by destruct Hne.
    + split; [|done]. intros (c & [Hne Hin]%list_elem_of_filter & ? & ? & _).
      destruct Hne. f_equal.
      eapply (NoDup_fmap_inj_on _ _ _ _ (wf_idx_habit_date s Hwf)); [done..|].
      simpl. congruence.
  - simpl. split; [done|]. split.
    + intros c Hne. rewrite elem_of_app, list_elem_of_singleton.
      split; [|tauto]. intros [?| ->]; [done|]. simpl in Hne. tauto.
    + split; [done|]. intros _. eexists. split.
      * apply elem_of_app. right. by apply list_elem_of_singleton.
      * done.
Qed.

(** X10.  An accepted toggle of (habit, date) changes nothing else: the
    habit table is the same, every completion row of another habit or
    another date is kept and none is added, so every other (habit, date)
    pair is completed after the toggle exactly when it was before; the
    toggled pair is completed afterwards exactly when it had no row. *)
Theorem toggle_completion_only_its_pair s (data : option (gmap string V)) hid d :
  store_wf s → toggle_accepts s data hid d →
  let s' := (toggle_completion s data).1 in
  habit_table s' = habit_table s
  ∧ (done_on s' hid d ↔ ¬ ∃ c, c ∈ completion_table s
                               ∧ Completion.habit_id c = hid
                               ∧ Completion.date c = d)
  ∧ (∀ c, Completion.habit_id c ≠ hid ∨ Completion.date c ≠ d →
          c ∈ completion_table s' ↔ c ∈ completion_table s)
  ∧ (∀ hid' d', (hid', d') ≠ (hid, d) → done_on s' hid' d' ↔ done_on s hid' d').
Proof.
  intros Hwf Hacc. simpl. rewrite (toggle_accepts_ok _ _ _ _ Hacc). cbn [fst].
  destruct (toggle_rows s hid d Hwf) as (Hh & Hrows & Hdone).
  split; [done|]. split; [|split; [done|]].
  - rewrite Hdone, find_completion_None. split.
    + intros Hn (c & ? & ? & ?). by eapply Hn.
    + intros Hn c ? [? ?]. apply Hn. eauto.
  - intros hid' d' Hne. unfold done_on. split.
    + intros (c & Hc & <- & <- & ?). exists c. split; [|done].
      apply Hrows; [|done]. destruct (decide (Completion.habit_id c = hid)); [|by left].
      right. intros <-. subst. done.
    + intros (c & Hc & <- & <- & ?). exists c. split; [|done].
      apply Hrows; [|done]. destruct (decide (Completion.habit_id c = hid)); [|by left].
      right. intros <-. subst. done.
Qed.

Lemma toggle_completion_wf s (data : option (gmap string V)) :
  strptime_valid → store_wf s → store_fk s →
  store_wf (toggle_completion s data).1 ∧ store_fk (toggle_completion s data).1.
Proof.
  intros Hval Hwf Hfk.
  destruct (toggle_completion_cases s data) as [[-> _]|(hid & d & Hacc)]; [done|].
  rewrite (toggle_accepts_ok _ _ _ _ Hacc). cbn [fst].
  destruct Hacc as (vh & vd & _ & _ & _ & Hp%Hval & Hin).
  destruct Hwf as [Hpk Hcpk Hidx Hdates].
  destruct (find_completion s hid d) as [c0|] eqn:Hfind.
  - split.
    + split; simpl; [done| | |].
      * by apply NoDup_fmap_filter.
      * by apply NoDup_fmap_filter.
      * apply Forall_forall. intros c [_ Hc]%list_elem_of_filter.
        by apply (proj1 (Forall_forall _ _) Hdates).
    + intros c [_ Hc]%list_elem_of_filter. simpl. by apply Hfk.
  - pose proof (proj1 (find_completion_None s hid d) Hfind) as Hnone. split.
    + split; simpl; [done| | |].
      * rewrite fmap_app. apply NoDup_app. split; [done|]. split; [|apply NoDup_singleton].
        intros i Hi Hi'. apply list_elem_of_singleton in Hi'. subst i.
        apply next_id_fresh in Hi. simpl in Hi. lia.
      * rewrite fmap_app. apply NoDup_app. split; [done|]. split; [|apply NoDup_singleton].
        intros p (c & -> & Hc)%list_elem_of_fmap Hp'.
        apply list_elem_of_singleton in Hp'. simpl in Hp'.
        injection Hp' as Hh' Hd'. by apply (Hnone c Hc).
      * apply Forall_app. split; [done|]. by apply Forall_singleton.
    + intros c [Hc| ->%list_elem_of_singleton]%elem_of_app; simpl; [by apply Hfk|done].
Qed.

End Toggle.

(** ** Every store that the application builds *)

Lemma NoDup_snoc_fresh (l : list Z) : NoDup l → NoDup (l ++ [next_id l]).
Proof.
  intros Hl. apply NoDup_app. split; [done|]. split; [|apply NoDup_singleton].
  intros i Hi Hi'. apply list_elem_of_singleton in Hi'. subst i.
  apply next_id_fresh in Hi. lia.
Qed.

Lemma next_id_pos (l : list Z) : Forall (λ i, 1 ≤ i) l → 1 ≤ next_id l.
Proof.
  destruct l as [|x l]; [done|]. intros Hl%Forall_cons_1. unfold next_id.
  pose proof (foldr_max_ge x l x ltac:(left)). lia.
Qed.

Lemma add_habit_row_inv s now r :
  r.1.1 ≠ [] → (length r.1.1 ≤ 100)%nat → trimmed r.1.1 →
  r.1.2 ≠ [] → (length r.1.2 ≤ 2)%nat →
  (∀ c, head r.1.2 = Some c → is_space c = false) →
  store_inv s → store_inv (add_habit_row s now r).
Proof.
  intros ? ? ? ? ? ? [[Hpk Hcpk Hidx Hdates] Hfk Hcomp Htext Hids Hcids].
  split; [split| | | | |]; simpl.
  - rewrite fmap_app. by apply NoDup_snoc_fresh.
  - done.
  - done.
  - done.
  - intros c Hc. simpl. rewrite fmap_app, elem_of_app. left. by apply Hfk.
  - done.
  - apply Forall_app. split; [done|]. by apply Forall_singleton.
  - apply Forall_app. split; [done|]. apply Forall_singleton. simpl.
    apply next_id_pos. by apply Forall_fmap.
  - done.
Qed.

Section Invariants.
Context `{PyValue V}.

Lemma create_habit_inv now s (data : option (gmap string V)) :
  store_inv s → store_inv (create_habit now s data).1.
Proof.
  intros Hinv. destruct (create_habit_cases now s data) as [(_ & -> & _)|[Hnr ->]];
    [done|].
  destruct (encodable _ && encodable _); [|done]. cbn [fst].
  apply add_habit_row_inv; cbn [fst snd]; try done.
  - intros Hn. apply Hnr. right. by left.
  - destruct (decide (length (requested_name data) ≤ 100)%nat); [done|].
    destruct Hnr. right. right. lia.
  - apply strip_trimmed.
  - by case_bool_decide.
  - case_bool_decide; [simpl; lia|]. unfold requested_emoji. rewrite length_take. lia.
  - case_bool_decide; [by intros c [= <-]|]. unfold requested_emoji.
    intros c Hc%take_head. by eapply (proj1 (strip_trimmed _)).
Qed.

Lemma delete_habit_inv s hid : store_inv s → store_inv (delete_habit s hid).1.
Proof.
  intros Hinv. destruct (decide (hid ∈ Habit.id <$> habit_table s)) as [Hin|Hnin].
  2: { by rewrite delete_habit_unknown. }
  rewrite delete_habit_existing by done. cbn [fst].
  destruct Hinv as [[Hpk Hcpk Hidx Hdates] Hfk Hcomp Htext Hids Hcids].
  assert (∀ {A} (P Q : A → Prop) `{∀ x, Decision (Q x)} (l : list A),
            Forall P l → Forall P (filter Q l)) as Hff.
  { intros A P Q ? l Hl. apply Forall_forall. intros x [_ Hx]%list_elem_of_filter.
    by apply (proj1 (Forall_forall _ _) Hl). }
  split; [split| | | | |]; simpl; try (by apply NoDup_fmap_filter); try (by apply Hff).
  intros c [Hne Hc]%list_elem_of_filter.
  apply Hfk, list_elem_of_fmap in Hc as (h & Hh & Hc).
  apply list_elem_of_fmap. exists h. split; [done|].
  apply list_elem_of_filter. split; [congruence|done].
Qed.

Lemma toggle_completion_store_inv s (data : option (gmap string V)) :
  strptime_valid → store_inv s → store_inv (toggle_completion s data).1.
Proof.
  intros Hval Hinv.
  destruct (toggle_completion_wf s data Hval (inv_wf s Hinv) (inv_fk s Hinv))
    as [Hwf' Hfk'].
  destruct (toggle_completion_cases s data) as [[-> _]|(hid & d & Hacc)]; [done|].
  rewrite (toggle_accepts_ok _ _ _ _ Hacc) in *. cbn [fst] in *.
  destruct Hinv as [_ _ Hcomp Htext Hids Hcids]. unfold written_by_app in *.
  destruct (find_completion s hid d) as [c0|] eqn:Hfind.
  - split; simpl; try done.
    + apply Forall_forall. intros x [_ Hx]%list_elem_of_filter.
      by apply (proj1 (Forall_forall _ _) Hcomp).
    + apply Forall_forall. intros x [_ Hx]%list_elem_of_filter.
      by apply (proj1 (Forall_forall _ _) Hcids).
  - split; simpl; try done.
    + apply Forall_app. split; [done|]. by apply Forall_singleton.
    + apply Forall_app. split; [done|]. apply Forall_singleton. simpl.
      apply next_id_pos. by apply Forall_fmap.
Qed.

End Invariants.

Lemma init_db_inv now s : store_inv s → store_inv (init_db now s).
Proof.
  intros Hinv. unfold init_db. case_bool_decide; [|done].
  unfold sample_habits. simpl.
  repeat (apply add_habit_row_inv;
          [by_computation || done | cbn; lia | split; intros c [= <-]; done
          | done | cbn; lia | intros c [= <-]; done |]).
  done.
Qed.

Section Reach.
Context `{PyValue V}.

(** X11.  Every store that [init_db], [create_habit], [delete_habit] and
    [toggle_completion] build from an empty database, in any order and
    with any requests, has distinct habit ids and completion ids, at most
    one completion row for a habit and a date, calendar dates only, no
    completion row of a habit that is not in the table, [completed] set in
    every row, ids of at least 1, and habit names of 1 to 100 characters
    without white space at either end with an emoji of 1 or 2 characters
    that does not start with white space. *)
Theorem reachable_store_invariant (reqs : list (request V)) :
  strptime_valid → store_inv (foldl handle empty_db reqs).
Proof.
  intros Hval. assert (store_inv empty_db) as Hinit.
  { split; [split|..]; simpl; try done; try apply NoDup_nil_2.
    - intros c Hc. by apply elem_of_nil in Hc.
    - apply Forall_nil_2. }
  revert Hinit. generalize empty_db. induction reqs as [|r reqs IH]; [done|].
  intros s Hs. simpl. apply IH. destruct r; simpl.
  - by apply create_habit_inv.
  - by apply delete_habit_inv.
  - by apply toggle_completion_store_inv.
  - by apply init_db_inv.
Qed.

End Reach.

(** ** A fetch after a change *)

Section Fetch.
Context `{PyFloat F}.

(** X12.  After a [create_habit] that answered 201, the month summary
    lists the entries that it listed before, followed by the entry of the
    new habit: it has the id of the 201 answer, the name of the request
    without the white space at its ends, and both streaks 0; the
    completion map is unchanged.  The fetch returns whenever it returned
    before.  No completion row can belong to the new habit although SQLite
    may give it the id of a deleted habit, because no completion row
    outlives its habit. *)
Theorem create_habit_then_fetch `{PyValue V} today y m now s
    (data : option (gmap string V)) (r1 : Summary.t F) :
  store_fk s → status (create_habit now s data).2 = 201 →
  get_habits today y m s = Ret r1 →
  ∃ (r2 : Summary.t F) hj,
    get_habits today y m (create_habit now s data).1 = Ret r2
    ∧ Summary.habits r2 = Summary.habits r1 ++ [hj]
    ∧ body (create_habit now s data).2 = IdBody (HabitJson.id hj)
    ∧ stripped_of (str_get data "name" []) (HabitJson.name hj)
    ∧ HabitJson.name hj = requested_name data
    ∧ HabitJson.current_streak hj = 0 ∧ HabitJson.best_streak hj = 0
    ∧ Summary.completions r2 = Summary.completions r1.
Proof.
  intros Hfk H201 Hg1. destruct (create_habit_201 now s data H201) as [Hnr ->].
  cbn [fst snd body].
  set (hid := next_id (Habit.id <$> habit_table s)).
  set (r := (requested_name data, _, _)).
  assert (∀ c, c ∈ completion_table s → Completion.habit_id c ≠ hid) as Hnone.
  { intros c Hc%Hfk%next_id_fresh. fold hid in Hc. lia. }
  pose proof (dates_of_nil s hid Hnone) as Hdates.
  assert (∀ i, dates_of (add_habit_row s now r) i = dates_of s i) as Hsame by done.
  destruct (proj1 (get_habits_Ret_iff today y m s) (ex_intro _ r1 Hg1))
    as (Hm & Hall & Hnxt).
  destruct (proj2 (get_habits_Ret_iff today y m (add_habit_row s now r)))
    as [r2 Hg2].
  { split; [done|]. split; [|done]. intros h Hh. rewrite Hsame.
    apply elem_of_app in Hh as [Hh|Hh]; [by apply Hall|].
    apply list_elem_of_singleton in Hh as ->. cbn [Habit.id]. fold hid.
    rewrite Hdates, current_streak_of_nil. by eexists. }
  exists r2, (HabitJson.mk hid r.1.1 r.1.2 r.2 0 0).
  split; [done|].
  rewrite (get_habits_entries _ _ _ _ _ Hg1), (get_habits_entries _ _ _ _ _ Hg2).
  destruct (get_habits_stats _ _ _ _ _ Hg1) as [-> _].
  destruct (get_habits_stats _ _ _ _ _ Hg2) as [-> _].
  cbn [HabitJson.id HabitJson.name HabitJson.current_streak HabitJson.best_streak].
  split; [|split; [done|split; [apply strip_stripped_of|
    split; [done|split; [done|split; [done|]]]]]].
  - unfold add_habit_row at 2. cbn [habit_table]. rewrite fmap_app. f_equal.
    cbn [fmap list_fmap].
    by rewrite (habit_entry_no_rows (add_habit_row s now r)).
  - unfold add_habit_row at 2. cbn [habit_table]. rewrite foldl_app. cbn [foldl].
    unfold pure_keys at 1. cbn [Habit.id]. fold hid.
    by rewrite (month_comps_nil (add_habit_row s now r)).
Qed.

(** X13.  Deleting an existing habit answers 204, and the month summary
    afterwards is the one before without that habit: the other entries
    are the same, in the same order, with the same streaks; no key of the
    deleted habit is in the completion map and every other key is as
    before.  The fetch returns whenever it returned before. *)
Theorem delete_habit_then_fetch today y m s hid (r1 : Summary.t F) :
  hid ∈ Habit.id <$> habit_table s →
  get_habits today y m s = Ret r1 →
  (delete_habit s hid).2 = mk_response 204 EmptyBody
  ∧ ∃ r2 : Summary.t F,
      get_habits today y m (delete_habit s hid).1 = Ret r2
      ∧ Summary.habits r2
        = filter (λ hj, HabitJson.id hj ≠ hid) (Summary.habits r1)
      ∧ (∀ d, Summary.completions r2 !! completion_key hid d = None)
      ∧ (∀ k, (∀ d, k ≠ completion_key hid d) →
              Summary.completions r2 !! k = Summary.completions r1 !! k).
Proof.
  intros Hin Hg1. rewrite delete_habit_existing by done. cbn [fst snd].
  split; [done|].
  set (s' := mkdb _ _).
  assert (habit_table s' = filter (λ h, Habit.id h ≠ hid) (habit_table s))
    as Hs' by done.
  assert (∀ hid', hid' ≠ hid → dates_of s' hid' = dates_of s hid') as Hdates.
  { intros hid' Hne. unfold dates_of, all_comps, s'. cbn [completion_table].
    rewrite filter_filter_impl; [done|]. intros c [? _]. congruence. }
  destruct (proj1 (get_habits_Ret_iff today y m s) (ex_intro _ r1 Hg1))
    as (Hm & Hall & Hnxt).
  destruct (proj2 (get_habits_Ret_iff today y m s')) as [r2 Hg2].
  { split; [done|]. split; [|done]. rewrite Hs'.
    intros h [Hne Hh]%list_elem_of_filter.
    rewrite Hdates by done. by apply Hall. }
  exists r2. split; [done|]. split; [|split].
  - rewrite (get_habits_entries _ _ _ _ _ Hg1), (get_habits_entries _ _ _ _ _ Hg2).
    rewrite filter_fmap_comm, Hs'.
    apply list_fmap_ext. intros i h [Hne _]%list_elem_of_lookup_2%list_elem_of_filter.
    unfold habit_entry. cbn [HabitJson.id] in Hne. by rewrite Hdates.
  - intros d. destruct (get_habits_stats _ _ _ _ _ Hg2) as [-> _].
    apply eq_None_not_Some. intros [v Hv].
    apply completions_lookup in Hv as (_ & hid' & d' & Hk & Hh & _).
    apply completion_key_inj_id in Hk as <-. rewrite Hs' in Hh.
    apply list_elem_of_fmap in Hh as (h & -> & [? _]%list_elem_of_filter). done.
  - intros k Hk. destruct (get_habits_stats _ _ _ _ _ Hg1) as [-> _].
    destruct (get_habits_stats _ _ _ _ _ Hg2) as [-> _].
    apply option_eq. intros v. rewrite !completions_lookup.
    split; intros (-> & hid' & d' & -> & Hh & Hd & H1 & H2);
      (split; [done|]); exists hid', d'; (split; [done|]);
      assert (hid' ≠ hid) as Hne by (intros ->; by apply (Hk d')).
    + split; [|split; [by apply (done_on_delete s hid)|done]].
      rewrite Hs' in Hh.
      apply list_elem_of_fmap in Hh as (h & -> & [_ ?]%list_elem_of_filter).
      by apply list_elem_of_fmap_2.
    + split; [|split; [by apply (done_on_delete s hid)|done]].
      rewrite Hs'.
      apply list_elem_of_fmap in Hh as (h & -> & ?).
      apply list_elem_of_fmap. exists h. split; [done|].
      by apply list_elem_of_filter.
Qed.

(** X14.  An accepted toggle of a habit and a date of the fetched month
    flips its entry of the completion map, present as [True] after the
    toggle exactly when it was absent before, and leaves every other key
    as it was.  The store has its keys and [completed] set in every row,
    as the application writes them. *)
Theorem toggle_completion_then_fetch `{PyValue V} today y m s
    (data : option (gmap string V)) hid d (r1 r2 : Summary.t F) :
  store_wf s → written_by_app s → toggle_accepts s data hid d →
  date_le (mkdate y m 1) d → date_le d (mkdate y m (days_in_month y m)) →
  get_habits today y m s = Ret r1 →
  get_habits today y m (toggle_completion s data).1 = Ret r2 →
  (Summary.completions r1 !! completion_key hid d = None
   ∨ Summary.completions r1 !! completion_key hid d = Some true)
  ∧ (Summary.completions r2 !! completion_key hid d = Some true
     ↔ Summary.completions r1 !! completion_key hid d = None)
  ∧ (Summary.completions r2 !! completion_key hid d = None
     ↔ Summary.completions r1 !! completion_key hid d = Some true)
  ∧ (∀ k, k ≠ completion_key hid d →
          Summary.completions r2 !! k = Summary.completions r1 !! k).
Proof.
  intros Hwf Happ Hacc H1 H2 Hg1.
  rewrite (toggle_accepts_ok _ _ _ _ Hacc). cbn [fst].
  destruct (toggle_rows s hid d Hwf) as (Hh & Hrows & Hdone).
  assert (hid ∈ Habit.id <$> habit_table s) as Hin by (by destruct Hacc as (? & ? & ? & ? & ? & ? & ?)).
  set (s' := match find_completion s hid d with
             | Some completion => delete_completion_row s completion
             | None => add_completion_row s hid d
             end) in *.
  intros Hg2.
  assert (valid_month y m = true) as Hm.
  { by apply (get_habits_Ret_iff today y m s); exists r1. }
  destruct (get_habits_stats _ _ _ _ _ Hg1) as [-> _].
  destruct (get_habits_stats _ _ _ _ _ Hg2) as [-> _].
  rewrite Hh. rewrite !dict_lookup_key by done.
  assert (done_on s hid d ↔ find_completion s hid d ≠ None) as Hdone1.
  { split.
    - intros (c & Hc & ? & ? & _) Hn.
      by apply (proj1 (find_completion_None s hid d) Hn c Hc).
    - intros Hn. destruct (find_completion s hid d) as [c|] eqn:Hf; [|done].
      apply find_completion_Some in Hf as (Hc & ? & ?). exists c.
      split; [done|]. split; [done|]. split; [done|].
      by apply (proj1 (Forall_forall _ _) Happ). }
  split; [|split; [|split]].
  - destruct (decide _); auto.
  - destruct (decide (_ ∧ done_on s' _ _)) as [[_ Hd']|Hn'];
      destruct (decide (_ ∧ done_on s _ _)) as [[_ Hd]|Hn]; try done.
    + apply Hdone in Hd'. by apply Hdone1 in Hd.
    + split; [done|]. intros _. destruct Hn'. split; [done|]. apply Hdone.
      destruct (find_completion s hid d) eqn:Hf; [|done]. destruct Hn. split; [done|].
      apply Hdone1. congruence.
  - destruct (decide (_ ∧ done_on s' _ _)) as [[_ Hd']|Hn'];
      destruct (decide (_ ∧ done_on s _ _)) as [[_ Hd]|Hn]; try done.
    + apply Hdone in Hd'. by apply Hdone1 in Hd.
    + split; [|done]. intros _. destruct Hn'. split; [done|]. apply Hdone.
      destruct (find_completion s hid d) eqn:Hf; [|done]. destruct Hn. split; [done|].
      apply Hdone1. congruence.
  - intros k Hk. apply option_eq. intros v. rewrite !completions_lookup.
    assert (∀ hid' d', k = completion_key hid' d' → valid_date d' = true →
              (done_on s' hid' d' ↔ done_on s hid' d')) as Hsame.
    { intros hid' d' -> Hv'. unfold done_on.
      assert (∀ c, Completion.habit_id c = hid' → Completion.date c = d' →
                (c ∈ completion_table s' ↔ c ∈ completion_table s)) as Hc.
      { intros c <- <-. apply Hrows.
        destruct (decide (Completion.habit_id c = hid)) as [<-|]; [|by left].
        right. intros <-. done. }
      split; intros (c & Hin' & ? & ? & ?); exists c; (split; [|done]);
        by apply (Hc c). }
    split; intros (-> & hid' & d' & -> & Hh' & Hd & H1' & H2');
      (split; [done|]); exists hid', d'; (split; [done|]);
      (split; [done|]); (split; [|done]);
      apply (Hsame hid' d'); try done; by eapply in_month_valid.
Qed.

End Fetch.

(** ** init_db *)

(** X15.  [init_db] adds the sample habits only once: it leaves a store
    with a habit as it is, so running it again changes nothing; it never
    touches the completions; on an empty habit table it inserts the four
    sample habits with the ids 1 to 4, in the order of the list. *)
Theorem init_db_once now now' s :
  (habit_table s ≠ [] → init_db now s = s)
  ∧ init_db now' (init_db now s) = init_db now s
  ∧ completion_table (init_db now s) = completion_table s
  ∧ (habit_table s = [] →
     (Habit.id <$> habit_table (init_db now s)) = [1; 2; 3; 4]
     ∧ (λ h, (Habit.name h, Habit.emoji h, Habit.color h))
         <$> habit_table (init_db now s) = sample_habits).
Proof.
  unfold init_db. destruct s as [hs cs]. cbn [habit_table].
  destruct hs as [|h hs].
  - rewrite bool_decide_eq_true_2 by done. split; [done|]. split; [|split; done].
    cbn. done.
  - rewrite bool_decide_eq_false_2 by done. cbn [habit_table].
    rewrite bool_decide_eq_false_2 by done. done.
Qed.

(** X16.  On an empty habit table, the rows that [init_db] inserts are the
    rows that [create_habit] stores for the four requests with the sample
    names and emojis: the names are already trimmed, each emoji fits in
    the two characters that [create_habit] keeps, and the sample colors
    are the first four of the color rotation. *)
Theorem init_db_as_create_habit now s :
  habit_table s = [] →
  init_db now s
  = foldl (λ s' ir, (create_habit (now ir.1) s' (sample_request ir.2)).1) s
      (imap pair sample_habits).
Proof.
  destruct s as [hs cs]. cbn [habit_table]. intros ->. unfold init_db.
  cbn [habit_table length]. rewrite bool_decide_eq_true_2 by done.
  unfold sample_habits. cbn [imap foldl fst snd].
  assert (∀ i r, sample_habits !! i = Some r → ∀ s',
            (length (habit_table s') = i) →
            (create_habit (now i) s' (sample_request r)).1
            = add_habit_row s' (now i) r) as Hstep.
  { intros i r Hr s' Hlen.
    rewrite create_habit_accepted.
    - cbn [fst]. f_equal. rewrite Hlen.
      destruct i as [|[|[|[|i]]]]; try done;
        injection Hr as <-; by_computation.
    - destruct i as [|[|[|[|i]]]]; try done; injection Hr as <-;
        intros [Hn|[Hn|Hn]]; revert Hn; by_computation || (vm_compute; lia) || done.
    - destruct i as [|[|[|[|i]]]]; try done; injection Hr as <-; by_computation.
    - destruct i as [|[|[|[|i]]]]; try done; injection Hr as <-; by_computation. }
  rewrite !Hstep; done.
Qed.

(** ** The script of the page and the month summary *)

Lemma string_app_assoc (a b c : string) : (a +:+ b) +:+ c = a +:+ (b +:+ c).
Proof. induction a as [|x a IH]; [done|]. by rewrite !string_app_cons, IH. Qed.

Lemma pretty_four_digits y :
  1000 ≤ y ≤ 9999 →
  pretty y = String (digit (y / 1000)) (String (digit (y / 100))
               (String (digit (y / 10)) (String (digit y) ""))).
Proof.
  intros Hy.
  assert (Forall (λ y, pretty y = String (digit (y / 1000)) (String (digit (y / 100))
               (String (digit (y / 10)) (String (digit y) ""))))
            (seqZ 1000 9000)) as Hall by by_decision.
  apply (proj1 (Forall_forall _ _) Hall). apply elem_of_seqZ. lia.
Qed.

Lemma pad_two_digits n :
  0 ≤ n ≤ 99 →
  pad_start 2 "0" (pretty n) = String (digit (n / 10)) (String (digit n) "").
Proof.
  intros Hn.
  assert (Forall (λ n, pad_start 2 "0" (pretty n)
                       = String (digit (n / 10)) (String (digit n) ""))
            (seqZ 0 100)) as Hall by by_decision.
  apply (proj1 (Forall_forall _ _) Hall). apply elem_of_seqZ. lia.
Qed.

Lemma date_str_str_date y m j :
  1000 ≤ y ≤ 9999 → 1 ≤ m ≤ 12 → 1 ≤ j ≤ 31 →
  date_str y (m - 1) j = str_date (mkdate y m j).
Proof.
  intros Hy Hm Hj. unfold date_str, str_date. cbn [year month day].
  replace (m - 1 + 1) with m by lia.
  rewrite pretty_four_digits, !pad_two_digits by lia.
  by rewrite !string_app_cons.
Qed.

(** Below the year 1000 the year of [dateStr] has fewer than four digits. *)
Lemma pretty_short y :
  0 ≤ y ≤ 999 → ∃ t, (String.length t ≤ 3)%nat ∧ pretty y = t.
Proof.
  intros Hy.
  assert (Forall (λ y, bool_decide (String.length (pretty y) ≤ 3)%nat = true)
            (seqZ 0 1000)) as Hall by by_decision.
  exists (pretty y). split; [|done]. apply (bool_decide_eq_true_1 _).
  apply (proj1 (Forall_forall _ _) Hall). apply elem_of_seqZ. lia.
Qed.

Lemma digit_not_dash n : digit n ≠ "-"%char.
Proof.
  rewrite digit_mod. pose proof (Z.mod_pos_bound n 10 ltac:(lia)) as Hn.
  assert (Forall (λ k, digit k ≠ "-"%char) (seqZ 0 10)) as Hall by by_decision.
  apply (proj1 (Forall_forall _ _) Hall). apply elem_of_seqZ. lia.
Qed.

Lemma string_last_inj (a b : string) (x y : ascii) :
  a +:+ String x "" = b +:+ String y "" → x = y.
Proof. intros [_ [= ->]]%string_app_inj_len; done. Qed.

(** A key of the server has four digits before the month; a key of the
    script for a year below 1000 has a dash among them. *)
Lemma short_year_key (hid hid' : Z) y m j d :
  0 ≤ y ≤ 999 → 0 ≤ m + 1 ≤ 99 → 0 ≤ j ≤ 99 →
  pretty hid +:+ "-" +:+ date_str y m j ≠ completion_key hid' d.
Proof.
  intros Hy Hm Hj. destruct (pretty_short y Hy) as (t & Ht & Hp).
  unfold date_str, completion_key, str_date. rewrite Hp, !pad_two_digits by lia.
  set (y3 := digit (year d / 1000)). set (y2 := digit (year d / 100)).
  set (y1 := digit (year d / 10)). set (y0 := digit (year d)).
  pose proof (digit_not_dash (year d / 1000)) as H3.
  pose proof (digit_not_dash (year d / 100)) as H2.
  pose proof (digit_not_dash (year d / 10)) as H1.
  pose proof (digit_not_dash (year d)) as H0.
  fold y3 in H3. fold y2 in H2. fold y1 in H1. fold y0 in H0.
  clearbody y3 y2 y1 y0. clear Hp.
  set (tail := String "-" (String (digit ((m + 1) / 10)) (String (digit (m + 1))
                 (String "-" (String (digit (j / 10)) (String (digit j) "")))))).
  set (tail' := String "-" (String (digit (month d / 10)) (String (digit (month d))
                  (String "-" (String (digit (day d / 10)) (String (digit (day d)) "")))))).
  intros Heq.
  assert ((pretty hid +:+ "-" +:+ t) +:+ tail
          = (pretty hid' +:+ String "-" (String y3 (String y2 (String y1 (String y0 "")))))
            +:+ tail') as Heq'.
  { rewrite !string_app_assoc. exact Heq. }
  clear Heq. apply string_app_inj_len in Heq' as [Heq _]; [|done].
  destruct t as [|c0 [|c1 [|c2 [|c3 t]]]]; [| | | |simpl in Ht; lia].
  - replace (pretty hid +:+ "-" +:+ "") with (pretty hid +:+ String "-" "") in Heq by done.
    replace (pretty hid' +:+ String "-" (String y3 (String y2 (String y1 (String y0 "")))))
      with ((pretty hid' +:+ String "-" (String y3 (String y2 (String y1 ""))))
            +:+ String y0 "") in Heq
      by (rewrite string_app_assoc; by rewrite !string_app_cons).
    apply string_last_inj in Heq. by destruct H0.
  - replace (pretty hid +:+ "-" +:+ String c0 "")
      with ((pretty hid +:+ String "-" "") +:+ String c0 "") in Heq
      by (by rewrite string_app_assoc).
    replace (pretty hid' +:+ String "-" (String y3 (String y2 (String y1 (String y0 "")))))
      with (((pretty hid' +:+ String "-" (String y3 (String y2 "")))
            +:+ String y1 "") +:+ String y0 "") in Heq
      by (rewrite !string_app_assoc; by rewrite !string_app_cons).
    apply string_app_inj_len in Heq as [Heq _]; [|done].
    apply string_last_inj in Heq. by destruct H1.
  - replace (pretty hid +:+ "-" +:+ String c0 (String c1 ""))
      with ((pretty hid +:+ String "-" "") +:+ String c0 (String c1 "")) in Heq
      by (by rewrite string_app_assoc).
    replace (pretty hid' +:+ String "-" (String y3 (String y2 (String y1 (String y0 "")))))
      with (((pretty hid' +:+ String "-" (String y3 ""))
            +:+ String y2 "") +:+ String y1 (String y0 "")) in Heq
      by (rewrite !string_app_assoc; by rewrite !string_app_cons).
    apply string_app_inj_len in Heq as [Heq _]; [|done].
    apply string_last_inj in Heq. by destruct H2.
  - replace (pretty hid +:+ "-" +:+ String c0 (String c1 (String c2 "")))
      with ((pretty hid +:+ String "-" "") +:+ String c0 (String c1 (String c2 ""))) in Heq
      by (by rewrite string_app_assoc).
    replace (pretty hid' +:+ String "-" (String y3 (String y2 (String y1 (String y0 "")))))
      with (((pretty hid' +:+ String "-" "")
            +:+ String y3 "") +:+ String y2 (String y1 (String y0 ""))) in Heq
      by (rewrite !string_app_assoc; by rewrite !string_app_cons).
    apply string_app_inj_len in Heq as [Heq _]; [|done].
    apply string_last_inj in Heq. by destruct H3.
Qed.

Lemma row_cells_checkboxes {A} (cell : Z → A) dim fdow :
  28 ≤ dim ≤ 31 → 0 ≤ fdow ≤ 6 →
  omap id (row_cells cell dim fdow) = cell <$> seqZ 1 dim.
Proof.
  intros Hd Hf.
  assert (dim = 28 ∨ dim = 29 ∨ dim = 30 ∨ dim = 31) as Hdim by lia.
  assert (fdow = 0 ∨ fdow = 1 ∨ fdow = 2 ∨ fdow = 3 ∨ fdow = 4 ∨ fdow = 5 ∨ fdow = 6)
    as Hfdow by lia.
  destruct Hdim as [->|[->|[->| ->]]];
    destruct Hfdow as [->|[->|[->|[->|[->|[->| ->]]]]]]; vm_compute; reflexivity.
Qed.

Lemma length_filter_Some_true (l : list (option bool)) :
  length (filter (λ c, c = Some true) l)
  = length (filter (λ b, b = true) (omap id l)).
Proof.
  induction l as [|c l IH]; [done|]. destruct c as [[|]|].
  - rewrite filter_cons_True by done.
    change (omap id (Some true :: l)) with (true :: omap id l).
    rewrite (filter_cons_True (λ b, b = true)) by done. simpl. by rewrite IH.
  - rewrite filter_cons_False by done.
    change (omap id (Some false :: l)) with (false :: omap id l).
    by rewrite (filter_cons_False (λ b, b = true)) by done.
  - by rewrite filter_cons_False by done.
Qed.

Lemma length_filter_fmap {A B} (f : A → B) (P : B → Prop) (Q : A → Prop)
    `{∀ x, Decision (P x)} `{∀ x, Decision (Q x)} (l : list A) :
  (∀ x, x ∈ l → P (f x) ↔ Q x) →
  length (filter P (f <$> l)) = length (filter Q l).
Proof.
  induction l as [|x l IH]; [done|]. intros Hx. rewrite fmap_cons.
  destruct (decide (Q x)) as [Hq|Hq].
  - rewrite (filter_cons_True P), (filter_cons_True Q); [|done|apply Hx; [left|done]].
    simpl. rewrite IH; [done|]. intros z Hz. apply Hx. by right.
  - rewrite (filter_cons_False P), (filter_cons_False Q);
      [|done|intros Hp; apply Hq, Hx; [left|done]].
    apply IH. intros z Hz. apply Hx. by right.
Qed.

Section Page.
Context `{PyFloat F}.

(** X17.  For a year of four digits, the key that [renderHabits] looks up
    for a habit and a day of the fetched month is the key under which
    [get_habits] stores that pair: the checkbox is checked exactly when
    the habit is in the table and completed on that day. *)
Theorem checkbox_checked_iff_done today y m s (resp : Summary.t F) hid j :
  get_habits today y m s = Ret resp →
  1000 ≤ y → 1 ≤ j ≤ days_in_month y m →
  is_completed (Summary.completions resp) hid y (m - 1) j = true
  ↔ hid ∈ Habit.id <$> habit_table s ∧ done_on s hid (mkdate y m j).
Proof.
  intros Hg Hy Hj.
  assert (valid_month y m = true) as Hm.
  { by apply (get_habits_Ret_iff today y m s); exists resp. }
  pose proof (valid_month_spec y m Hm) as Hm'.
  pose proof (days_in_month_bounds y m).
  unfold is_completed. rewrite date_str_str_date by lia.
  fold (completion_key hid (mkdate y m j)).
  destruct (get_habits_stats _ _ _ _ _ Hg) as [-> _].
  destruct (in_month_intro y m (days_in_month y m) j Hj) as [H1 H2].
  rewrite dict_lookup_key by done. by destruct (decide _).
Qed.

(** X18.  For a year below 1000 the script does not pad the year to four
    digits as [str(date)] does, so its key is none of the keys of the
    answer: every checkbox of the month is unchecked, whatever is
    completed. *)
Theorem checkbox_never_checked_below_year_1000 today y m s
    (resp : Summary.t F) hid j :
  get_habits today y m s = Ret resp →
  y ≤ 999 → 1 ≤ j ≤ days_in_month y m →
  is_completed (Summary.completions resp) hid y (m - 1) j = false.
Proof.
  intros Hg Hy Hj.
  assert (valid_month y m = true) as Hm.
  { by apply (get_habits_Ret_iff today y m s); exists resp. }
  pose proof (valid_month_spec y m Hm). pose proof (days_in_month_bounds y m).
  unfold is_completed. destruct (get_habits_stats _ _ _ _ _ Hg) as [-> _].
  destruct (_ !! _) as [v|] eqn:Hl; [|done].
  apply completions_lookup in Hl as (_ & hid' & d & Hk & _).
  apply short_year_key in Hk; [done|lia..].
Qed.

(** X19.  The row that [renderHabits] builds for a habit has exactly one
    checkbox for every day of the month, in order, whatever the weekday
    of the first day is, and for a year of four digits the count shown as
    "Done" is the number of days of the month on which the habit is
    completed.  [daysInMonth] is the number of days of the month. *)
Theorem habit_row_done_count today y m s (resp : Summary.t F) hid fdow :
  get_habits today y m s = Ret resp →
  1000 ≤ y → 0 ≤ fdow ≤ 6 → hid ∈ Habit.id <$> habit_table s →
  omap id (row_cells id (days_in_month y m) fdow) = seqZ 1 (days_in_month y m)
  ∧ completed_count (Summary.completions resp) hid y (m - 1)
      (days_in_month y m) fdow
    = Z.of_nat (length (filter (λ j, done_on s hid (mkdate y m j))
                          (seqZ 1 (days_in_month y m)))).
Proof.
  intros Hg Hy Hf Hin. pose proof (days_in_month_bounds y m) as Hdim.
  split. { rewrite row_cells_checkboxes by done. apply list_fmap_id. }
  unfold completed_count. f_equal.
  rewrite length_filter_Some_true, row_cells_checkboxes by done.
  apply length_filter_fmap. intros j Hj%elem_of_seqZ.
  assert (valid_month y m = true) as Hm.
  { by apply (get_habits_Ret_iff today y m s); exists resp. }
  pose proof (valid_month_spec y m Hm) as Hm'.
  unfold is_completed. rewrite date_str_str_date by lia.
  fold (completion_key hid (mkdate y m j)).
  destruct (get_habits_stats _ _ _ _ _ Hg) as [-> _].
  destruct (in_month_intro y m (days_in_month y m) j ltac:(lia)) as [H1 H2].
  rewrite dict_lookup_key by done. destruct (decide _) as [[? ?]|Hn]; [done|].
  split; [done|]. intros ?. destruct Hn. done.
Qed.

(** X20.  For a year of four digits and a store with its keys, the number
    [done] that the progress row of [renderHabits] shows for a day of the
    fetched month is the number of habits completed on that day, and it
    is the count from which [get_habits] computes the percentage of that
    day: script and server count the same completions, the one by looking
    up a key per habit, the other by the ending of the keys. *)
Theorem progress_row_done_count today y m s (resp : Summary.t F) j :
  store_wf s → get_habits today y m s = Ret resp →
  1000 ≤ y → 1 ≤ j ≤ days_in_month y m →
  done_count (Summary.habits resp) (Summary.completions resp) y (m - 1) j
  = habits_done s (mkdate y m j)
  ∧ done_count (Summary.habits resp) (Summary.completions resp) y (m - 1) j
    = day_completions (Summary.completions resp) (mkdate y m j).
Proof.
  intros Hwf Hg Hy Hj.
  assert (valid_month y m = true) as Hm.
  { by apply (get_habits_Ret_iff today y m s); exists resp. }
  pose proof (valid_month_spec y m Hm) as Hm'.
  pose proof (days_in_month_bounds y m) as Hdim.
  destruct (in_month_intro y m (days_in_month y m) j Hj) as [H1 H2].
  assert (done_count (Summary.habits resp) (Summary.completions resp) y (m - 1) j
          = habits_done s (mkdate y m j)) as Hdone.
  { unfold done_count, habits_done. f_equal.
    rewrite (get_habits_entries _ _ _ _ _ Hg).
    destruct (get_habits_stats _ _ _ _ _ Hg) as [-> _].
    apply length_filter_fmap. intros h Hh.
    unfold is_completed, habit_entry. cbn [HabitJson.id].
    rewrite date_str_str_date by lia.
    fold (completion_key (Habit.id h) (mkdate y m j)).
    rewrite dict_lookup_key by done.
    assert (Habit.id h ∈ Habit.id <$> habit_table s) by (by apply list_elem_of_fmap_2).
    destruct (decide _) as [[? ?]|Hn]; [done|]. split; [done|]. intros ?. by destruct Hn. }
  split; [done|]. rewrite Hdone.
  destruct (get_habits_stats _ _ _ _ _ Hg) as [-> _].
  symmetry. apply day_completions_spec; [apply Hwf|done].
Qed.

End Page.

(** ** Instances of these theorems on the sample data *)

Lemma sample_db_wf : store_wf sample_db.
Proof. split; by_decision. Qed.

Lemma sample_db_fk : store_fk sample_db.
Proof.
  intros c Hc. repeat (apply elem_of_cons in Hc as [->|Hc]); try by_decision.
  by apply elem_of_nil in Hc.
Qed.

Lemma sample_strptime_valid : strptime_valid (V:=sample_value).
Proof.
  intros [t|z|d] d'; simpl; try done.
  destruct (valid_date d) eqn:E; [|done]. by intros [= <-].
Qed.

Lemma sample_toggle_accepts hid d :
  valid_date d = true → hid ∈ Habit.id <$> habit_table sample_db →
  toggle_accepts sample_db (toggle_request hid d) hid d.
Proof.
  intros Hv Hin. exists (SInt hid), (SDate d). split_and!; try done.
  simpl. by rewrite Hv.
Qed.

Lemma get_habits_outcome_witness :
  valid_date (mkdate 2024 3 5) = true
  ∧ get_habits (F:=float_expr) (mkdate 2024 3 5) 2024 13 sample_db = Raise ValueError
  ∧ get_habits (F:=float_expr) (mkdate 2024 3 5) 2147483648 1 sample_db
    = Raise OverflowError
  ∧ ∃ resp : Summary.t float_expr,
      get_habits (mkdate 2024 3 5) 2024 2 sample_db = Ret resp.
Proof.
  assert (valid_date (mkdate 2024 3 5) = true) as Hv by by_computation.
  split; [exact Hv|]. split; [|split].
  - apply (get_habits_outcome (F:=float_expr) (mkdate 2024 3 5) 2024 13 sample_db Hv).
    by_computation.
  - destruct (get_habits_outcome (F:=float_expr) (mkdate 2024 3 5) 2147483648 1
                sample_db Hv) as (_ & Hinvalid & _).
    apply Hinvalid. by_computation.
  - apply (get_habits_outcome (F:=float_expr) (mkdate 2024 3 5) 2024 2 sample_db Hv).
    + by_computation.
    + vm_compute. discriminate.
    + vm_compute. discriminate.
Defined.

Lemma completion_map_lookup_witness :
  done_on sample_db 1 (mkdate 2024 2 3)
  ∧ Summary.completions sample_after !! "1-2024-02-03" = Some true.
Proof.
  assert (done_on sample_db 1 (mkdate 2024 2 3)) as Hd by by_decision.
  split; [exact Hd|].
  apply (completion_map_lookup (mkdate 2024 3 5) 2024 2 sample_db sample_after
           1 (mkdate 2024 2 3)).
  - by_computation.
  - by_computation.
  - split; [by_decision|]. split; [exact Hd|]. split; by_computation.
Defined.

Lemma completion_map_entries_witness :
  ∃ hid j, 1 ≤ j ≤ days_in_month 2024 2
    ∧ "2-2024-02-29" = completion_key hid (mkdate 2024 2 j)
    ∧ hid ∈ Habit.id <$> habit_table sample_db
    ∧ done_on sample_db hid (mkdate 2024 2 j).
Proof.
  apply (completion_map_entries (mkdate 2024 3 5) 2024 2 sample_db sample_after
           "2-2024-02-29" true).
  - by_computation.
  - by_computation.
Defined.

Lemma streak_bounds_witness :
  read_after ∈ Summary.habits sample_after
  ∧ 0 ≤ HabitJson.current_streak read_after ≤ days_in_month 2024 2.
Proof.
  assert (read_after ∈ Summary.habits sample_after) as Hin
    by (apply (list_elem_of_lookup_2 _ 1%nat); by_computation).
  split; [exact Hin|].
  apply (streak_bounds (mkdate 2024 3 5) 2024 2 sample_db sample_after read_after).
  - by_computation.
  - split; by_decision.
  - by_computation.
  - exact Hin.
Defined.

Lemma only_current_streak_reads_today_witness :
  Summary.habits sample_after ≠ Summary.habits sample_before
  ∧ Summary.completions sample_after = Summary.completions sample_before
  ∧ Summary.daily_stats sample_after = Summary.daily_stats sample_before
  ∧ without_current <$> Summary.habits sample_after
    = without_current <$> Summary.habits sample_before.
Proof.
  split; [vm_compute; discriminate|].
  apply (only_current_streak_reads_today (mkdate 2024 3 5) (mkdate 2024 1 15)
           2024 2 sample_db sample_after sample_before).
  - by_computation.
  - by_computation.
Defined.

Lemma day_count_at_most_habits_witness :
  0 ≤ day_completions (Summary.completions sample_after) (mkdate 2024 2 3) ≤ 2.
Proof.
  apply (day_count_at_most_habits (mkdate 2024 3 5) 2024 2 sample_db sample_after 3).
  - split; by_decision.
  - by_computation.
  - vm_compute. split; discriminate.
Defined.

Lemma toggle_completion_unknown_habit_witness :
  (7 ∉ (Habit.id <$> habit_table sample_db))
  ∧ toggle_completion sample_db (toggle_request 7 (mkdate 2024 2 6))
    = (sample_db, mk_response 500 (ErrorBody "Failed to toggle completion")).
Proof.
  assert (7 ∉ (Habit.id <$> habit_table sample_db)) as Hn by by_decision.
  split; [exact Hn|].
  apply (toggle_completion_unknown_habit sample_db
           (<["habit_id" := SInt 7]> (<["date" := SDate (mkdate 2024 2 6)]> ∅))
           (SInt 7) (SDate (mkdate 2024 2 6)) 7 (mkdate 2024 2 6)).
  - by_computation.
  - by_computation.
  - by_computation.
  - by_computation.
  - exact Hn.
Defined.

Lemma toggle_completion_only_its_pair_witness :
  done_on sample_db 1 (mkdate 2024 2 3)
  ∧ ¬ done_on (toggle_completion sample_db (toggle_request 1 (mkdate 2024 2 3))).1
        1 (mkdate 2024 2 3)
  ∧ (done_on (toggle_completion sample_db (toggle_request 1 (mkdate 2024 2 3))).1
       1 (mkdate 2024 2 4)
     ↔ done_on sample_db 1 (mkdate 2024 2 4)).
Proof.
  assert (done_on sample_db 1 (mkdate 2024 2 3)) as Hd by by_decision.
  split; [exact Hd|].
  destruct (toggle_completion_only_its_pair sample_db
              (toggle_request 1 (mkdate 2024 2 3)) 1 (mkdate 2024 2 3))
    as (_ & Hflip & _ & Hother).
  - split; by_decision.
  - apply sample_toggle_accepts; [by_computation|by_decision].
  - split.
    + intros Hd'. apply Hflip in Hd'. apply Hd'.
      destruct Hd as (c & ? & ? & ? & _). by exists c.
    + apply Hother. vm_compute. discriminate.
Defined.

Lemma reachable_store_invariant_witness :
  store_inv
    (foldl handle empty_db
       [InitDb (λ _, 0); ToggleCompletion (toggle_request 2 (mkdate 2024 2 6));
        CreateHabit 0 walk_request; DeleteHabit 2]).
Proof.
  apply (reachable_store_invariant (V:=sample_value)). exact sample_strptime_valid.
Defined.

Lemma create_habit_then_fetch_witness :
  status (create_habit 0 sample_db walk_request).2 = 201
  ∧ ∃ (r2 : Summary.t float_expr) hj,
    get_habits (mkdate 2024 3 5) 2024 2 (create_habit 0 sample_db walk_request).1
    = Ret r2
    ∧ Summary.habits r2 = Summary.habits sample_after ++ [hj]
    ∧ body (create_habit 0 sample_db walk_request).2 = IdBody (HabitJson.id hj)
    ∧ stripped_of (str_get walk_request "name" []) (HabitJson.name hj)
    ∧ HabitJson.name hj = requested_name walk_request
    ∧ HabitJson.current_streak hj = 0 ∧ HabitJson.best_streak hj = 0
    ∧ Summary.completions r2 = Summary.completions sample_after.
Proof.
  assert (status (create_habit 0 sample_db walk_request).2 = 201) as H201
    by by_computation.
  split; [exact H201|].
  apply (create_habit_then_fetch (mkdate 2024 3 5) 2024 2 0 sample_db walk_request
           sample_after).
  - exact sample_db_fk.
  - exact H201.
  - by_computation.
Defined.

Lemma delete_habit_then_fetch_witness :
  ∃ r2 : Summary.t float_expr,
    get_habits (mkdate 2024 3 5) 2024 2 (delete_habit sample_db 2).1 = Ret r2
    ∧ Summary.habits r2
      = filter (λ hj, HabitJson.id hj ≠ 2) (Summary.habits sample_after)
    ∧ (∀ d, Summary.completions r2 !! completion_key 2 d = None)
    ∧ (∀ k, (∀ d, k ≠ completion_key 2 d) →
            Summary.completions r2 !! k = Summary.completions sample_after !! k).
Proof.
  apply (delete_habit_then_fetch (mkdate 2024 3 5) 2024 2 sample_db 2 sample_after).
  - by_decision.
  - by_computation.
Defined.

Lemma toggle_completion_then_fetch_witness :
  Summary.completions sample_after !! completion_key 1 (mkdate 2024 2 3) = Some true
  ∧ Summary.completions
      (summary_of (get_habits (mkdate 2024 3 5) 2024 2
         (toggle_completion sample_db (toggle_request 1 (mkdate 2024 2 3))).1))
    !! completion_key 1 (mkdate 2024 2 3) = None.
Proof.
  assert (Summary.completions sample_after !! completion_key 1 (mkdate 2024 2 3)
          = Some true) as Hs by by_computation.
  split; [exact Hs|].
  destruct (toggle_completion_then_fetch (mkdate 2024 3 5) 2024 2 sample_db
              (toggle_request 1 (mkdate 2024 2 3)) 1 (mkdate 2024 2 3) sample_after
              (summary_of (get_habits (mkdate 2024 3 5) 2024 2
                 (toggle_completion sample_db (toggle_request 1 (mkdate 2024 2 3))).1)))
    as (_ & _ & Hnone & _).
  - split; by_decision.
  - by_decision.
  - apply sample_toggle_accepts; [by_computation|by_decision].
  - by_computation.
  - by_computation.
  - by_computation.
  - by_computation.
  - apply Hnone. exact Hs.
Defined.

Lemma init_db_as_create_habit_witness :
  init_db (λ _, 0) empty_db
  = foldl (λ s' ir, (create_habit 0 s' (sample_request ir.2)).1) empty_db
      (imap pair sample_habits).
Proof. apply (init_db_as_create_habit (λ _, 0) empty_db). reflexivity. Defined.

Lemma checkbox_checked_iff_done_witness :
  done_on sample_db 1 (mkdate 2024 2 3)
  ∧ is_completed (Summary.completions sample_after) 1 2024 1 3 = true.
Proof.
  assert (done_on sample_db 1 (mkdate 2024 2 3)) as Hd by by_decision.
  split; [exact Hd|].
  apply (checkbox_checked_iff_done (mkdate 2024 3 5) 2024 2 sample_db sample_after 1 3).
  - by_computation.
  - vm_compute. discriminate.
  - vm_compute. split; discriminate.
  - split; [by_decision|exact Hd].
Defined.

Lemma checkbox_never_checked_below_year_1000_witness :
  done_on sample_db_999 1 (mkdate 999 2 3)
  ∧ is_completed
      (Summary.completions
         (summary_of (get_habits (F:=float_expr) (mkdate 2024 3 5) 999 2 sample_db_999)))
      1 999 1 3 = false.
Proof.
  split; [by_decision|].
  apply (checkbox_never_checked_below_year_1000 (mkdate 2024 3 5) 999 2 sample_db_999).
  - by_computation.
  - vm_compute. discriminate.
  - vm_compute. split; discriminate.
Defined.

Lemma habit_row_done_count_witness :
  completed_count (Summary.completions sample_after) 1 2024 1 29 4 = 4.
Proof.
  destruct (habit_row_done_count (mkdate 2024 3 5) 2024 2 sample_db sample_after 1 4)
    as [_ Hc].
  - by_computation.
  - vm_compute. discriminate.
  - vm_compute. split; discriminate.
  - by_decision.
  - vm_compute in Hc. vm_compute. exact Hc.
Defined.

Lemma progress_row_done_count_witness :
  done_count (Summary.habits sample_after) (Summary.completions sample_after)
    2024 (2 - 1) 3 = 1
  ∧ day_completions (Summary.completions sample_after) (mkdate 2024 2 3) = 1.
Proof.
  destruct (progress_row_done_count (mkdate 2024 3 5) 2024 2 sample_db sample_after 3)
    as [H1 H2].
  - split; by_decision.
  - by_computation.
  - vm_compute. discriminate.
  - vm_compute. split; discriminate.
  - split.
    + rewrite H1. by_computation.
    + rewrite <-H2, H1. by_computation.
Defined.
